(** * MarbleLens scene editor: a shallow embedding of App.tsx, ControlPanel.tsx,
    EditorPanel.tsx, SceneViewer.tsx and services/geminiService.ts, with the
    properties of the editing layer.

    Numbers are JavaScript doubles in the source; they are embedded as the
    real numbers they denote (no rounding, no NaN, no infinities); a
    division whose divisor can be zero is written with [pc.divide], which has
    no result there.  Strings are ASCII strings.  React state setters and mutable refs become fields of
    explicit state records that every handler threads through; an [async]
    handler is cut at its [await] into the part that runs at once and the part
    that runs when the awaited result arrives, and the operations it starts
    are returned as commands.

    The engine is PlayCanvas.  Its vector, quaternion and plane arithmetic is
    written out in [pc] as the library computes it; what the engine derives
    from the pointer and the scene graph (the pointer ray, the camera axes,
    the boxes a ray meets, the Euler angles of the camera) comes in with the
    event.  The image service is embedded up to the request it sends and from
    the response it gets.  Panel layout, materials, and the unmounting of the
    viewer while an archive is being unpacked are left out. *)

From Stdlib Require Import Reals Lra Lia String Ascii List Bool Arith.
From stdpp Require Import gmap strings.
Import ListNotations.

(** ** JavaScript built-ins used by the handlers *)

Module JS.

(** [c.toLowerCase()] on one ASCII character. *)
Definition lowerAscii (c : ascii) : ascii :=
  let n := nat_of_ascii c in
  if Nat.leb 65 n && Nat.leb n 90 then ascii_of_nat (n + 32) else c.

Fixpoint toLowerCase (s : string) : string :=
  match s with
  | EmptyString => EmptyString
  | String c r => String (lowerAscii c) (toLowerCase r)
  end.

(** [s.startsWith(p)] *)
Definition startsWith (s p : string) : bool := String.prefix p s.

(** [s.endsWith(suf)] *)
Definition endsWith (s suf : string) : bool :=
  Nat.leb (String.length suf) (String.length s)
  && String.eqb
       (String.substring (String.length s - String.length suf)
                         (String.length suf) s)
       suf.

(** White space stripped by [trim]: space, tab, line feed, vertical tab,
    form feed, carriage return. *)
Definition isSpace (c : ascii) : bool :=
  let n := nat_of_ascii c in
  Nat.eqb n 32 || (Nat.leb 9 n && Nat.leb n 13).

Fixpoint trimStart (s : string) : string :=
  match s with
  | EmptyString => EmptyString
  | String c r => if isSpace c then trimStart r else s
  end.

(** Strips trailing white space: a character is kept when it is not a
    space or when something is kept after it. *)
Fixpoint trimEnd (s : string) : string :=
  match s with
  | EmptyString => EmptyString
  | String c r =>
      match trimEnd r with
      | EmptyString => if isSpace c then EmptyString else String c EmptyString
      | r' => String c r'
      end
  end.

(** [s.trim()] *)
Definition trim (s : string) : string := trimEnd (trimStart s).

(** Truthiness of a string ([!s] is its negation): only the empty string
    is falsy. *)
Definition truthy (s : string) : bool := negb (String.eqb s EmptyString).

(** Truthiness of a [string | null]. *)
Definition truthyOpt (o : option string) : bool :=
  match o with
  | Some s => truthy s
  | None => false
  end.

(** [l.find(p)] *)
Definition find {A : Type} (p : A -> bool) (l : list A) : option A :=
  List.find p l.

(** [a || b] on [string | undefined] operands. *)
Definition orElse (a b : option string) : option string :=
  if truthyOpt a then a else b.

(** [s.substring(start, end)] for [start <= end]. *)
Definition substring (s : string) (start end_ : nat) : string :=
  String.substring start (end_ - start) s.

(** [s.substring(start)] *)
Definition substringFrom (s : string) (start : nat) : string :=
  String.substring start (String.length s - start) s.

End JS.

(** ** The part of the PlayCanvas math library the viewer calls *)

Module pc.
Local Open Scope R_scope.

Record Vec3 : Type := mkVec3 { vx : R; vy : R; vz : R }.

Definition vzero : Vec3 := mkVec3 0 0 0.
Definition add (a b : Vec3) : Vec3 :=
  mkVec3 (vx a + vx b) (vy a + vy b) (vz a + vz b).
Definition sub (a b : Vec3) : Vec3 :=
  mkVec3 (vx a - vx b) (vy a - vy b) (vz a - vz b).
Definition mulScalar (a : Vec3) (k : R) : Vec3 :=
  mkVec3 (vx a * k) (vy a * k) (vz a * k).
Definition dot (a b : Vec3) : R :=
  vx a * vx b + vy a * vy b + vz a * vz b.
Definition length (a : Vec3) : R := sqrt (dot a a).

Record Quat : Type := mkQuat { qx : R; qy : R; qz : R; qw : R }.

Definition IDENTITY : Quat := mkQuat 0 0 0 1.

(** [q.transformVector(v)]: the product q v q^-1, written out as the
    library does. *)
Definition transformVector (q : Quat) (v : Vec3) : Vec3 :=
  let x := vx v in let y := vy v in let z := vz v in
  let ix := qw q * x + qy q * z - qz q * y in
  let iy := qw q * y + qz q * x - qx q * z in
  let iz := qw q * z + qx q * y - qy q * x in
  let iw := - qx q * x - qy q * y - qz q * z in
  mkVec3 (ix * qw q + iw * - qx q + iy * - qz q - iz * - qy q)
         (iy * qw q + iw * - qy q + iz * - qx q - ix * - qz q)
         (iz * qw q + iw * - qz q + ix * - qy q - iy * - qx q).

Record Ray : Type := mkRay { origin : Vec3; direction : Vec3 }.

(** A plane [normal . p + distance = 0]. *)
Record Plane : Type := mkPlane { normal : Vec3; distance : R }.

Definition setFromPointNormal (point n : Vec3) : Plane :=
  mkPlane n (- dot n point).

(** [plane.intersectsRay(ray, point)]: the boolean result and the value of
    [point] afterwards ([point] is written only when the ray meets the
    plane in front of its origin). *)
Definition intersectsRay (p : Plane) (r : Ray) (point : Vec3) : bool * Vec3 :=
  let denominator := dot (normal p) (direction r) in
  if Req_dec_T denominator 0 then (false, point)
  else
    let t := - (dot (normal p) (origin r) + distance p) / denominator in
    if Rle_dec 0 t
    then (true, add (mulScalar (direction r) t) (origin r))
    else (false, point).

(** [pc.math.clamp] *)
Definition clamp (value lo hi : R) : R :=
  if Rle_dec hi value then hi
  else if Rle_dec value lo then lo
  else value.

Definition DEG_TO_RAD : R := PI / 180.
Definition RAD_TO_DEG : R := 180 / PI.

(** [Math.atan2(y, x)] *)
Definition atan2 (y x : R) : R :=
  if Rlt_dec 0 x then atan (y / x)
  else if Rlt_dec x 0 then
    (if Rle_dec 0 y then atan (y / x) + PI else atan (y / x) - PI)
  else if Rlt_dec 0 y then PI / 2
  else if Rlt_dec y 0 then - (PI / 2)
  else 0.

(** [r || fallback] on numbers: zero is the falsy number. *)
Definition orNum (r fallback : R) : R :=
  if Req_dec_T r 0 then fallback else r.

(** [x / y] where the quotient is a real number: with a zero divisor
    JavaScript gives NaN or an infinity, and there is none. *)
Definition divide (x y : R) : option R :=
  if Req_dec_T y 0 then None else Some (x / y).

(** [quat.setFromEulerAngles(ex, ey, ez)], angles in degrees. *)
Definition setFromEulerAngles (e : Vec3) : Quat :=
  let halfToRad := 0.5 * DEG_TO_RAD in
  let ex := vx e * halfToRad in
  let ey := vy e * halfToRad in
  let ez := vz e * halfToRad in
  let sx := sin ex in let cx := cos ex in
  let sy := sin ey in let cy := cos ey in
  let sz := sin ez in let cz := cos ez in
  mkQuat (sx * cy * cz - cx * sy * sz)
         (cx * sy * cz + sx * cy * sz)
         (cx * cy * sz - sx * sy * cz)
         (cx * cy * cz + sx * sy * sz).

(** [quat.getEulerAngles()], angles in degrees: the angles are derived
    from the quaternion again, with the one about Y within [-90, 90]. *)
Definition getEulerAngles (q : Quat) : Vec3 :=
  let a2 := 2 * (qw q * qy q - qx q * qz q) in
  let e :=
    if Rle_dec a2 (-0.99999) then
      mkVec3 (2 * atan2 (qx q) (qw q)) (- PI / 2) 0
    else if Rle_dec 0.99999 a2 then
      mkVec3 (2 * atan2 (qx q) (qw q)) (PI / 2) 0
    else
      mkVec3 (atan2 (2 * (qw q * qx q + qy q * qz q))
                    (1 - 2 * (qx q * qx q + qy q * qy q)))
             (asin a2)
             (atan2 (2 * (qw q * qz q + qx q * qy q))
                    (1 - 2 * (qy q * qy q + qz q * qz q))) in
  mulScalar e RAD_TO_DEG.

(** [this.cross(lhs, rhs)] *)
Definition cross (lhs rhs : Vec3) : Vec3 :=
  mkVec3 (vy lhs * vz rhs - vy rhs * vz lhs)
         (vz lhs * vx rhs - vz rhs * vx lhs)
         (vx lhs * vy rhs - vx rhs * vy lhs).

(** [v.normalize()]: a zero vector is left as it is. *)
Definition normalize (v : Vec3) : Vec3 :=
  let lengthSq := dot v v in
  if Rlt_dec 0 lengthSq then mulScalar v (1 / sqrt lengthSq) else v.

Definition UP : Vec3 := mkVec3 0 1 0.

(** The up axis of the frame [entity.lookAt(target)] gives an entity at
    [position]: the y column of [Mat4.setLookAt(position, target, UP)]. *)
Definition lookAtUp (position target : Vec3) : Vec3 :=
  let z := normalize (sub position target) in
  let y := normalize UP in
  let x := normalize (cross y z) in
  cross z x.

End pc.

(** ** types.ts *)

Module Types.

Inductive ViewMode : Type := VIEWPORT | RESULT | SPLIT.

(** [Character.type]: ['2d' | '3d'] *)
Inductive CharacterType : Type := T2d | T3d.

Record Character : Type := mkCharacter {
  id : string;
  type : CharacterType;
  url : string;
  name : string
}.

Record GenerationState : Type := mkGenerationState {
  isGenerating : bool;
  generatedImage : option string;
  error : option string
}.

Inductive TargetType : Type := scene | character.
Inductive GizmoMode : Type := translate | rotate | scale.
Inductive Axis : Type := X | Y | Z.

Definition is2d (c : Character) : bool :=
  match type c with T2d => true | T3d => false end.

End Types.

(** ** App.tsx *)

Module App.
Import Types.
Local Open Scope string_scope.

(** A browser [File]: its name and MIME type. *)
Record File : Type := mkFile { fileName : string; fileType : string }.

(** The canvas behind [captureRef.current], by what [toDataURL] yields. *)
Record Canvas : Type := mkCanvas { toDataURL : string }.

(** The component state ([useState] cells) and [captureRef.current]. *)
Record State : Type := mkState {
  splatUrl : option string;
  splatFileName : option string;
  isLoading : bool;
  characters : list Character;
  generationState : GenerationState;
  viewMode : ViewMode;
  captureRef : option Canvas
}.

Definition initial : State :=
  mkState None None false [] (mkGenerationState false None None) VIEWPORT None.

(** Asynchronous operations a handler starts before it returns or
    suspends. *)
Inductive Command : Type :=
| Unzip (file : File)
    (* [await file.arrayBuffer()] followed by [fflate.unzip] *)
| ReadAsDataURL (file : File) (id : string)
| Generate (sceneSnapshot prompt : string) (characterImage : option string).

Definition setSplatUrl (v : option string) (s : State) : State :=
  mkState v (splatFileName s) (isLoading s) (characters s)
          (generationState s) (viewMode s) (captureRef s).
Definition setSplatFileName (v : option string) (s : State) : State :=
  mkState (splatUrl s) v (isLoading s) (characters s)
          (generationState s) (viewMode s) (captureRef s).
Definition setIsLoading (v : bool) (s : State) : State :=
  mkState (splatUrl s) (splatFileName s) v (characters s)
          (generationState s) (viewMode s) (captureRef s).
Definition setCharacters (f : list Character -> list Character) (s : State)
  : State :=
  mkState (splatUrl s) (splatFileName s) (isLoading s) (f (characters s))
          (generationState s) (viewMode s) (captureRef s).
Definition setGenerationState (f : GenerationState -> GenerationState)
  (s : State) : State :=
  mkState (splatUrl s) (splatFileName s) (isLoading s) (characters s)
          (f (generationState s)) (viewMode s) (captureRef s).
Definition setViewMode (v : ViewMode) (s : State) : State :=
  mkState (splatUrl s) (splatFileName s) (isLoading s) (characters s)
          (generationState s) v (captureRef s).

(** [captureRef.current = canvasRef.current], done by the viewer when it
    initialises the engine. *)
Definition setCaptureRef (v : option Canvas) (s : State) : State :=
  mkState (splatUrl s) (splatFileName s) (isLoading s) (characters s)
          (generationState s) (viewMode s) v.

(** [prev => ({ ...prev, generatedImage: null, error: null })] *)
Definition clearResult (prev : GenerationState) : GenerationState :=
  mkGenerationState (isGenerating prev) None None.

(** [prev => ({ ...prev, error: msg })] *)
Definition withError (msg : string) (prev : GenerationState) : GenerationState :=
  mkGenerationState (isGenerating prev) (generatedImage prev) (Some msg).

Definition isSpz (file : File) : bool :=
  JS.endsWith (JS.toLowerCase (fileName file)) ".spz".

(** *** handleUploadSplat *)

(** The [catch] block; [message] is [e.message]. *)
Definition uploadSplatCatch (message : string) (s : State) : State :=
  setSplatUrl None
    (setGenerationState (withError ("Failed to load file: " ++ message)) s).

(** The [finally] block. *)
Definition uploadSplatFinally (s : State) : State := setIsLoading false s.

(** From the call to the first [await], or to the end for a file that is
    not an archive.  [url] is what [URL.createObjectURL(file)] returns. *)
Definition handleUploadSplat (file : File) (url : string) (s : State)
  : State * list Command :=
  let s := setIsLoading true s in
  let s := setSplatFileName (Some (fileName file)) s in
  let s := setGenerationState clearResult s in
  let s := setViewMode VIEWPORT s in
  if isSpz file then (s, [Unzip file])
  else (uploadSplatFinally (setSplatUrl (Some url) s), []).

(** What the awaited decompression delivers: a rejection of
    [file.arrayBuffer()] or an [err] from [fflate.unzip], with its message,
    or the unzipped object, as its keys in order. *)
Inductive UnzipResult : Type :=
| UnzipError (message : string)
| Unzipped (keys : list string).

Definition isSplatName (name : string) : bool :=
  JS.endsWith (JS.toLowerCase name) ".splat"
  || JS.endsWith (JS.toLowerCase name) ".ksplat".
Definition isPlyName (name : string) : bool :=
  JS.endsWith (JS.toLowerCase name) ".ply".

(** [Object.keys(unzipped).find(splat) || Object.keys(unzipped).find(ply)] *)
Definition findInnerFile (keys : list string) : option string :=
  JS.orElse (JS.find isSplatName keys) (JS.find isPlyName keys).

(** The rest of [handleUploadSplat] once the decompression has settled.
    [url] is what [URL.createObjectURL(blob)] returns for the inner file. *)
Definition handleUploadSplat_resume (r : UnzipResult) (url : string) (s : State)
  : State :=
  uploadSplatFinally
    match r with
    | UnzipError message => uploadSplatCatch message s
    | Unzipped keys =>
        if negb (JS.truthyOpt (findInnerFile keys))
        then uploadSplatCatch
               "No valid .splat or .ply file found inside SPZ archive" s
        else setSplatUrl (Some url) s
    end.

(** *** handleUploadCharacter *)

Definition is3D (file : File) : bool :=
  JS.endsWith (JS.toLowerCase (fileName file)) ".glb"
  || JS.endsWith (JS.toLowerCase (fileName file)) ".gltf".
Definition isImage (file : File) : bool :=
  JS.startsWith (fileType file) "image/".

(** [id] is [crypto.randomUUID().slice(0, 8)]; [url] is what
    [URL.createObjectURL(file)] returns. *)
Definition handleUploadCharacter (file : File) (id url : string) (s : State)
  : State * list Command :=
  if is3D file then
    let newChar := mkCharacter id T3d url (fileName file) in
    (setViewMode VIEWPORT
       (setCharacters (fun prev => (prev ++ [newChar])%list) s), [])
  else if isImage file then
    (setViewMode VIEWPORT s, [ReadAsDataURL file id])
  else (s, []).

(** [reader.onloadend]; [result] is [reader.result]. *)
Definition readerOnloadend (file : File) (id result : string) (s : State) : State :=
  let newChar := mkCharacter id T2d result (fileName file) in
  setCharacters (fun prev => (prev ++ [newChar])%list) s.

Definition handleRemoveCharacter (rid : string) (s : State) : State :=
  setCharacters (List.filter (fun c => negb (String.eqb (id c) rid))) s.

(** *** captureScene and handleGenerate *)

Definition captureScene (s : State) : option string :=
  match captureRef s with
  | Some canvas => Some (toDataURL canvas)
  | None => None
  end.

(** From the call to the [await] of the service. *)
Definition handleGenerate (prompt : string) (s : State) : State * list Command :=
  match captureScene s with
  | Some sceneSnapshot =>
      if JS.truthy sceneSnapshot then
        let s1 := setGenerationState
                    (fun _ => mkGenerationState true None None) s in
        let char2D := JS.find is2d (characters s) in
        let characterImage := option_map url char2D in
        (s1, [Generate sceneSnapshot prompt characterImage])
      else
        (setGenerationState (withError "Failed to capture 3D scene.") s, [])
  | None =>
      (setGenerationState (withError "Failed to capture 3D scene.") s, [])
  end.

(** What the awaited service call delivers: the image, or what it was
    rejected with: a value with its [message] (possibly absent or empty), or
    [null] or [undefined], of which no property can be read. *)
Inductive GenerateResult : Type :=
| Resolved (resultImage : string)
| Rejected (message : option string)
| RejectedNullish.

(** The rest of [handleGenerate] once the service call has settled. *)
Definition handleGenerate_resume (r : GenerateResult) (s : State) : State :=
  match r with
  | Resolved resultImage =>
      setViewMode RESULT
        (setGenerationState
           (fun _ => mkGenerationState false (Some resultImage) None) s)
  | Rejected message =>
      setGenerationState
        (fun _ => mkGenerationState false None
                    (JS.orElse message
                       (Some "Something went wrong during generation."))) s
  | RejectedNullish =>
      (* [error.message] throws in the [catch] block, before the setter *)
      s
  end.

Definition handleReset (s : State) : State :=
  setViewMode VIEWPORT (setGenerationState clearResult s).

End App.

(** ** ControlPanel.tsx *)

Module ControlPanel.
Import Types.

(** The [disabled] attribute of the submit button. *)
Definition submitDisabled (isGenerating : bool) (prompt : string) : bool :=
  isGenerating || negb (JS.truthy (JS.trim prompt)).

(** The [disabled] attribute of the prompt input and of the Clear button. *)
Definition inputDisabled (isGenerating : bool) : bool := isGenerating.

(** [handleSubmit], with [onGenerate] bound to [App.handleGenerate]. *)
Definition handleSubmit (prompt : string) (s : App.State)
  : App.State * list App.Command :=
  if negb (JS.truthy (JS.trim prompt)) then (s, [])
  else App.handleGenerate prompt s.

(** A submission of the prompt form as the browser delivers it: a form
    whose submit button is disabled dispatches no submit event. *)
Definition submitForm (prompt : string) (s : App.State)
  : App.State * list App.Command :=
  if submitDisabled (isGenerating (App.generationState s)) prompt
  then (s, [])
  else handleSubmit prompt s.

End ControlPanel.

(** ** SceneViewer.tsx *)

Module SceneViewer.
Import Types pc.
Local Open Scope R_scope.

(** A [pc.Entity] parented to [app.root], so that its world and local
    transforms coincide.  The orientation is kept as the Euler angles last
    set; [getRotation] is the quaternion they denote.  [asset] is the URL
    of the asset the entity renders. *)
Record Entity : Type := mkEntity {
  position : Vec3;
  eulerAngles : Vec3;
  localScale : Vec3;
  is2DBillboard : bool;
  asset : string
}.

Definition getRotation (e : Entity) : Quat := setFromEulerAngles (eulerAngles e).

(** [entity.getLocalEulerAngles()]: the engine keeps the quaternion and
    reads the angles back from it, so that what is read need not be the
    triple that was set. *)
Definition getLocalEulerAngles (e : Entity) : Vec3 := getEulerAngles (getRotation e).

Definition setPosition (p : Vec3) (e : Entity) : Entity :=
  mkEntity p (eulerAngles e) (localScale e) (is2DBillboard e) (asset e).
Definition setLocalEulerAngles (r : Vec3) (e : Entity) : Entity :=
  mkEntity (position e) r (localScale e) (is2DBillboard e) (asset e).
Definition setLocalScale (k : Vec3) (e : Entity) : Entity :=
  mkEntity (position e) (eulerAngles e) k (is2DBillboard e) (asset e).

(** The transform of the [GizmoRoot] entity and the tool its parts were
    built for. *)
Record GizmoRoot : Type := mkGizmoRoot {
  gizmoPosition : Vec3;
  gizmoRotation : Quat;
  gizmoScale : R;
  gizmoParts : GizmoMode
}.

(** How the camera entity is oriented: by Euler angles set directly, or by
    [lookAt] towards a point from where it stands. *)
Inductive Orientation : Type :=
| EulerAngles (x y z : R)
| LookAt (target : Vec3).

Record Camera : Type := mkCamera {
  cameraPosition : Vec3;
  cameraOrientation : Orientation
}.

Record OrbitParams : Type := mkOrbitParams {
  alpha : R;
  beta : R;
  radius : R;
  targetPivot : Vec3
}.

Record Transforms : Type := mkTransforms {
  tPosition : Vec3;
  tRotation : Vec3;
  tScale : Vec3
}.

(** The refs and the [useState] cells of the component, with the engine
    initialised.  A state cell and the ref that mirrors it for the engine
    loop are one field ([selectedTarget] and [selectedTargetRef], and so for
    [activeCharacterId], [isEditMode] and [isLocked]).  [rootSplats] lists
    the SplatRoot entities attached to [app.root], by asset URL, newest
    last. *)
Record State : Type := mkState {
  cameraEntity : Camera;
  splatEntityRef : option Entity;
  rootSplats : list string;
  characterEntitiesMap : gmap string Entity;
  gizmoRootRef : option GizmoRoot;
  draggedAxisRef : option string;
  dragStartPointRef : Vec3;
  dragStartValueRef : Vec3;
  dragPlaneRef : Plane;
  isOrbitingRef : bool;
  isFreeLookingRef : bool;
  orbitParamsRef : OrbitParams;
  mouseLookEulerRef : Vec3;
  isLocked : bool;
  isEditMode : bool;
  selectedTarget : option TargetType;
  activeCharacterId : option string;
  gizmoMode : GizmoMode;
  transforms : Transforms;
  sceneLoadVersion : nat
}.

Definition set_cameraEntity (v : Camera) (s : State) : State :=
  mkState v (splatEntityRef s) (rootSplats s) (characterEntitiesMap s)
    (gizmoRootRef s) (draggedAxisRef s) (dragStartPointRef s)
    (dragStartValueRef s) (dragPlaneRef s) (isOrbitingRef s)
    (isFreeLookingRef s) (orbitParamsRef s) (mouseLookEulerRef s) (isLocked s)
    (isEditMode s) (selectedTarget s) (activeCharacterId s) (gizmoMode s)
    (transforms s) (sceneLoadVersion s).
Definition set_splatEntityRef (v : option Entity) (s : State) : State :=
  mkState (cameraEntity s) v (rootSplats s) (characterEntitiesMap s)
    (gizmoRootRef s) (draggedAxisRef s) (dragStartPointRef s)
    (dragStartValueRef s) (dragPlaneRef s) (isOrbitingRef s)
    (isFreeLookingRef s) (orbitParamsRef s) (mouseLookEulerRef s) (isLocked s)
    (isEditMode s) (selectedTarget s) (activeCharacterId s) (gizmoMode s)
    (transforms s) (sceneLoadVersion s).
Definition set_rootSplats (v : list string) (s : State) : State :=
  mkState (cameraEntity s) (splatEntityRef s) v (characterEntitiesMap s)
    (gizmoRootRef s) (draggedAxisRef s) (dragStartPointRef s)
    (dragStartValueRef s) (dragPlaneRef s) (isOrbitingRef s)
    (isFreeLookingRef s) (orbitParamsRef s) (mouseLookEulerRef s) (isLocked s)
    (isEditMode s) (selectedTarget s) (activeCharacterId s) (gizmoMode s)
    (transforms s) (sceneLoadVersion s).
Definition set_characterEntitiesMap (v : gmap string Entity) (s : State) : State :=
  mkState (cameraEntity s) (splatEntityRef s) (rootSplats s) v
    (gizmoRootRef s) (draggedAxisRef s) (dragStartPointRef s)
    (dragStartValueRef s) (dragPlaneRef s) (isOrbitingRef s)
    (isFreeLookingRef s) (orbitParamsRef s) (mouseLookEulerRef s) (isLocked s)
    (isEditMode s) (selectedTarget s) (activeCharacterId s) (gizmoMode s)
    (transforms s) (sceneLoadVersion s).
Definition set_gizmoRootRef (v : option GizmoRoot) (s : State) : State :=
  mkState (cameraEntity s) (splatEntityRef s) (rootSplats s)
    (characterEntitiesMap s) v (draggedAxisRef s) (dragStartPointRef s)
    (dragStartValueRef s) (dragPlaneRef s) (isOrbitingRef s)
    (isFreeLookingRef s) (orbitParamsRef s) (mouseLookEulerRef s) (isLocked s)
    (isEditMode s) (selectedTarget s) (activeCharacterId s) (gizmoMode s)
    (transforms s) (sceneLoadVersion s).
Definition set_draggedAxisRef (v : option string) (s : State) : State :=
  mkState (cameraEntity s) (splatEntityRef s) (rootSplats s)
    (characterEntitiesMap s) (gizmoRootRef s) v (dragStartPointRef s)
    (dragStartValueRef s) (dragPlaneRef s) (isOrbitingRef s)
    (isFreeLookingRef s) (orbitParamsRef s) (mouseLookEulerRef s) (isLocked s)
    (isEditMode s) (selectedTarget s) (activeCharacterId s) (gizmoMode s)
    (transforms s) (sceneLoadVersion s).
Definition set_dragStartPointRef (v : Vec3) (s : State) : State :=
  mkState (cameraEntity s) (splatEntityRef s) (rootSplats s)
    (characterEntitiesMap s) (gizmoRootRef s) (draggedAxisRef s) v
    (dragStartValueRef s) (dragPlaneRef s) (isOrbitingRef s)
    (isFreeLookingRef s) (orbitParamsRef s) (mouseLookEulerRef s) (isLocked s)
    (isEditMode s) (selectedTarget s) (activeCharacterId s) (gizmoMode s)
    (transforms s) (sceneLoadVersion s).
Definition set_dragStartValueRef (v : Vec3) (s : State) : State :=
  mkState (cameraEntity s) (splatEntityRef s) (rootSplats s)
    (characterEntitiesMap s) (gizmoRootRef s) (draggedAxisRef s)
    (dragStartPointRef s) v (dragPlaneRef s) (isOrbitingRef s)
    (isFreeLookingRef s) (orbitParamsRef s) (mouseLookEulerRef s) (isLocked s)
    (isEditMode s) (selectedTarget s) (activeCharacterId s) (gizmoMode s)
    (transforms s) (sceneLoadVersion s).
Definition set_dragPlaneRef (v : Plane) (s : State) : State :=
  mkState (cameraEntity s) (splatEntityRef s) (rootSplats s)
    (characterEntitiesMap s) (gizmoRootRef s) (draggedAxisRef s)
    (dragStartPointRef s) (dragStartValueRef s) v (isOrbitingRef s)
    (isFreeLookingRef s) (orbitParamsRef s) (mouseLookEulerRef s) (isLocked s)
    (isEditMode s) (selectedTarget s) (activeCharacterId s) (gizmoMode s)
    (transforms s) (sceneLoadVersion s).
Definition set_isOrbitingRef (v : bool) (s : State) : State :=
  mkState (cameraEntity s) (splatEntityRef s) (rootSplats s)
    (characterEntitiesMap s) (gizmoRootRef s) (draggedAxisRef s)
    (dragStartPointRef s) (dragStartValueRef s) (dragPlaneRef s) v
    (isFreeLookingRef s) (orbitParamsRef s) (mouseLookEulerRef s) (isLocked s)
    (isEditMode s) (selectedTarget s) (activeCharacterId s) (gizmoMode s)
    (transforms s) (sceneLoadVersion s).
Definition set_isFreeLookingRef (v : bool) (s : State) : State :=
  mkState (cameraEntity s) (splatEntityRef s) (rootSplats s)
    (characterEntitiesMap s) (gizmoRootRef s) (draggedAxisRef s)
    (dragStartPointRef s) (dragStartValueRef s) (dragPlaneRef s)
    (isOrbitingRef s) v (orbitParamsRef s) (mouseLookEulerRef s) (isLocked s)
    (isEditMode s) (selectedTarget s) (activeCharacterId s) (gizmoMode s)
    (transforms s) (sceneLoadVersion s).
Definition set_orbitParamsRef (v : OrbitParams) (s : State) : State :=
  mkState (cameraEntity s) (splatEntityRef s) (rootSplats s)
    (characterEntitiesMap s) (gizmoRootRef s) (draggedAxisRef s)
    (dragStartPointRef s) (dragStartValueRef s) (dragPlaneRef s)
    (isOrbitingRef s) (isFreeLookingRef s) v (mouseLookEulerRef s)
    (isLocked s) (isEditMode s) (selectedTarget s) (activeCharacterId s)
    (gizmoMode s) (transforms s) (sceneLoadVersion s).
Definition set_mouseLookEulerRef (v : Vec3) (s : State) : State :=
  mkState (cameraEntity s) (splatEntityRef s) (rootSplats s)
    (characterEntitiesMap s) (gizmoRootRef s) (draggedAxisRef s)
    (dragStartPointRef s) (dragStartValueRef s) (dragPlaneRef s)
    (isOrbitingRef s) (isFreeLookingRef s) (orbitParamsRef s) v (isLocked s)
    (isEditMode s) (selectedTarget s) (activeCharacterId s) (gizmoMode s)
    (transforms s) (sceneLoadVersion s).
Definition set_isLocked (v : bool) (s : State) : State :=
  mkState (cameraEntity s) (splatEntityRef s) (rootSplats s)
    (characterEntitiesMap s) (gizmoRootRef s) (draggedAxisRef s)
    (dragStartPointRef s) (dragStartValueRef s) (dragPlaneRef s)
    (isOrbitingRef s) (isFreeLookingRef s) (orbitParamsRef s)
    (mouseLookEulerRef s) v (isEditMode s) (selectedTarget s)
    (activeCharacterId s) (gizmoMode s) (transforms s) (sceneLoadVersion s).
Definition set_isEditMode (v : bool) (s : State) : State :=
  mkState (cameraEntity s) (splatEntityRef s) (rootSplats s)
    (characterEntitiesMap s) (gizmoRootRef s) (draggedAxisRef s)
    (dragStartPointRef s) (dragStartValueRef s) (dragPlaneRef s)
    (isOrbitingRef s) (isFreeLookingRef s) (orbitParamsRef s)
    (mouseLookEulerRef s) (isLocked s) v (selectedTarget s)
    (activeCharacterId s) (gizmoMode s) (transforms s) (sceneLoadVersion s).
Definition set_selectedTarget (v : option TargetType) (s : State) : State :=
  mkState (cameraEntity s) (splatEntityRef s) (rootSplats s)
    (characterEntitiesMap s) (gizmoRootRef s) (draggedAxisRef s)
    (dragStartPointRef s) (dragStartValueRef s) (dragPlaneRef s)
    (isOrbitingRef s) (isFreeLookingRef s) (orbitParamsRef s)
    (mouseLookEulerRef s) (isLocked s) (isEditMode s) v (activeCharacterId s)
    (gizmoMode s) (transforms s) (sceneLoadVersion s).
Definition set_activeCharacterId (v : option string) (s : State) : State :=
  mkState (cameraEntity s) (splatEntityRef s) (rootSplats s)
    (characterEntitiesMap s) (gizmoRootRef s) (draggedAxisRef s)
    (dragStartPointRef s) (dragStartValueRef s) (dragPlaneRef s)
    (isOrbitingRef s) (isFreeLookingRef s) (orbitParamsRef s)
    (mouseLookEulerRef s) (isLocked s) (isEditMode s) (selectedTarget s) v
    (gizmoMode s) (transforms s) (sceneLoadVersion s).
Definition set_gizmoMode (v : GizmoMode) (s : State) : State :=
  mkState (cameraEntity s) (splatEntityRef s) (rootSplats s)
    (characterEntitiesMap s) (gizmoRootRef s) (draggedAxisRef s)
    (dragStartPointRef s) (dragStartValueRef s) (dragPlaneRef s)
    (isOrbitingRef s) (isFreeLookingRef s) (orbitParamsRef s)
    (mouseLookEulerRef s) (isLocked s) (isEditMode s) (selectedTarget s)
    (activeCharacterId s) v (transforms s) (sceneLoadVersion s).
Definition set_transforms (v : Transforms) (s : State) : State :=
  mkState (cameraEntity s) (splatEntityRef s) (rootSplats s)
    (characterEntitiesMap s) (gizmoRootRef s) (draggedAxisRef s)
    (dragStartPointRef s) (dragStartValueRef s) (dragPlaneRef s)
    (isOrbitingRef s) (isFreeLookingRef s) (orbitParamsRef s)
    (mouseLookEulerRef s) (isLocked s) (isEditMode s) (selectedTarget s)
    (activeCharacterId s) (gizmoMode s) v (sceneLoadVersion s).
Definition set_sceneLoadVersion (v : nat) (s : State) : State :=
  mkState (cameraEntity s) (splatEntityRef s) (rootSplats s)
    (characterEntitiesMap s) (gizmoRootRef s) (draggedAxisRef s)
    (dragStartPointRef s) (dragStartValueRef s) (dragPlaneRef s)
    (isOrbitingRef s) (isFreeLookingRef s) (orbitParamsRef s)
    (mouseLookEulerRef s) (isLocked s) (isEditMode s) (selectedTarget s)
    (activeCharacterId s) (gizmoMode s) (transforms s) v.

(** Asset loads the effects start; each ends in a [ready] callback. *)
Inductive Command : Type :=
| LoadSplat (url : string)
| LoadContainer (c : Character)
| LoadTexture (c : Character).

(** *** Target lookup *)

(** [getTargetEntity], and the same lookup through the refs in the engine
    callbacks. *)
Definition getTargetEntity (s : State) : option Entity :=
  match selectedTarget s with
  | Some scene => splatEntityRef s
  | Some character =>
      match activeCharacterId s with
      | Some cid =>
          if JS.truthy cid then characterEntitiesMap s !! cid else None
      | None => None
      end
  | None => None
  end.

(** A mutation of the target entity: the object the lookup returned is
    the one held by [splatEntityRef] or by the map, so the change shows
    there. *)
Definition updateTarget (f : Entity -> Entity) (s : State) : State :=
  match selectedTarget s with
  | Some scene => set_splatEntityRef (f <$> splatEntityRef s) s
  | Some character =>
      match activeCharacterId s with
      | Some cid =>
          if JS.truthy cid
          then set_characterEntitiesMap (alter f cid (characterEntitiesMap s)) s
          else s
      | None => s
      end
  | None => s
  end.

(** *** Orbit parameters *)

(** The divisor of the elevation computation: [(radius || 0.001)]. *)
Definition elevationDivisor (radius : R) : R := orNum radius 0.001.

(** The orbit parameters derived from the camera-to-target vector; the
    source repeats this computation in [syncOrbitParamsToCamera] and in the
    two orbit seeds of [onMouseDown].  There are none when the division of
    the elevation has no result: the elevation would not be a number. *)
Definition orbitParamsFrom (camPos targetPos : Vec3) : option OrbitParams :=
  let vec := sub camPos targetPos in
  let radius := length vec in
  let alpha := atan2 (vx vec) (vz vec) * RAD_TO_DEG in
  match divide (vy vec) (elevationDivisor radius) with
  | Some quotient =>
      let beta := asin quotient * RAD_TO_DEG in
      Some (mkOrbitParams alpha beta radius targetPos)
  | None => None
  end.

(** Parameters that are not numbers cannot be written to the record of
    reals: the record is then left as it is. *)
Definition syncOrbitParamsToCamera (s : State) : State :=
  match getTargetEntity s with
  | None => s
  | Some target =>
      match orbitParamsFrom (cameraPosition (cameraEntity s)) (position target) with
      | Some p => set_orbitParamsRef p s
      | None => s
      end
  end.

(** The camera offset from the pivot, as [onMouseMove] and [onMouseWheel]
    compute it from the orbit parameters. *)
Definition orbitOffset (p : OrbitParams) : Vec3 :=
  let a := alpha p * DEG_TO_RAD in
  let b := beta p * DEG_TO_RAD in
  let x := radius p * cos b * sin a in
  let z := radius p * cos b * cos a in
  let y := radius p * sin b in
  mkVec3 x y z.

(** *** Pointer events *)

(** A [pc.MouseEvent].  [pointerRay] is the ray the handlers build from the
    camera position through [screenToWorld(event.x, event.y, farClip)]. *)
Record MouseEvent : Type := mkMouseEvent {
  dx : R;
  dy : R;
  wheelDelta : R;
  leftButton : bool;
  pointerRay : Ray
}.

(** The first-person look branch (pointer lock and free look). *)
Definition mouseLook (event : MouseEvent) (s : State) : State :=
  let lookSpeed := 0.2 in
  let x := vx (mouseLookEulerRef s) - dy event * lookSpeed in
  let y := vy (mouseLookEulerRef s) - dx event * lookSpeed in
  let x := clamp x (-90) 90 in
  let s := set_mouseLookEulerRef (mkVec3 x y (vz (mouseLookEulerRef s))) s in
  set_cameraEntity
    (mkCamera (cameraPosition (cameraEntity s)) (EulerAngles x y 0)) s.

(** The orbit branch. *)
Definition mouseOrbit (event : MouseEvent) (s : State) : State :=
  let sensitivity := 0.4 in
  let p := orbitParamsRef s in
  let alpha1 := alpha p - dx event * sensitivity in
  let beta1 := beta p + dy event * sensitivity in
  let beta1 := clamp beta1 (-89) 89 in
  let p := mkOrbitParams alpha1 beta1 (radius p) (targetPivot p) in
  let newPos := add (targetPivot p) (orbitOffset p) in
  set_cameraEntity (mkCamera newPos (LookAt (targetPivot p)))
    (set_orbitParamsRef p s).

(** The unit vector of the axis named by the second character of the
    handle tag, before the gizmo rotation is applied. *)
Definition axisUnit (dir : string) : Vec3 :=
  let v := vzero in
  let v := if String.eqb dir "x" then mkVec3 1 0 0 else v in
  let v := if String.eqb dir "y" then mkVec3 0 1 0 else v in
  let v := if String.eqb dir "z" then mkVec3 0 0 1 else v in
  v.

Definition addOnAxis (dir : string) (v : Vec3) (k : R) : Vec3 :=
  let v := if String.eqb dir "x" then mkVec3 (vx v + k) (vy v) (vz v) else v in
  let v := if String.eqb dir "y" then mkVec3 (vx v) (vy v + k) (vz v) else v in
  let v := if String.eqb dir "z" then mkVec3 (vx v) (vy v) (vz v + k) else v in
  v.

Definition mulOnAxis (dir : string) (v : Vec3) (k : R) : Vec3 :=
  let v := if String.eqb dir "x" then mkVec3 (vx v * k) (vy v) (vz v) else v in
  let v := if String.eqb dir "y" then mkVec3 (vx v) (vy v * k) (vz v) else v in
  let v := if String.eqb dir "z" then mkVec3 (vx v) (vy v) (vz v * k) else v in
  v.

Definition set_tPosition (v : Vec3) (t : Transforms) : Transforms :=
  mkTransforms v (tRotation t) (tScale t).
Definition set_tRotation (v : Vec3) (t : Transforms) : Transforms :=
  mkTransforms (tPosition t) v (tScale t).
Definition set_tScale (v : Vec3) (t : Transforms) : Transforms :=
  mkTransforms (tPosition t) (tRotation t) v.

(** The scalar the drag projects onto the handle's axis: the rotated axis
    vector and its dot product with the move from the drag anchor to the
    point where the pointer ray meets the drag plane. *)
Definition dragAxisVec (gizmo : GizmoRoot) (dir : string) : Vec3 :=
  transformVector (gizmoRotation gizmo) (axisUnit dir).

Definition dragProjectedDelta (gizmo : GizmoRoot) (dir : string)
  (event : MouseEvent) (s : State) : R :=
  let hitPoint := snd (intersectsRay (dragPlaneRef s) (pointerRay event) vzero) in
  let deltaVec := sub hitPoint (dragStartPointRef s) in
  dot (dragAxisVec gizmo dir) deltaVec.

(** The gizmo drag branch.  The test [t !== undefined] on the boolean that
    [intersectsRay] returns always passes. *)
Definition mouseDrag (axis : string) (gizmo : GizmoRoot) (event : MouseEvent)
  (s : State) : State :=
  let mode := JS.substring axis 0 1 in
  let dir := JS.substringFrom axis 1 in
  match getTargetEntity s with
  | None => s
  | Some _ =>
      let axisVec := dragAxisVec gizmo dir in
      let projectedDelta := dragProjectedDelta gizmo dir event s in
      if String.eqb mode "t" then
        let moveVec := mulScalar axisVec projectedDelta in
        let newPos := add (dragStartValueRef s) moveVec in
        set_transforms (set_tPosition newPos (transforms s))
          (updateTarget (setPosition newPos) s)
      else if String.eqb mode "r" then
        let sensitivity := 20 in
        let angle := projectedDelta * sensitivity in
        let newRot := addOnAxis dir (dragStartValueRef s) angle in
        set_transforms (set_tRotation newRot (transforms s))
          (updateTarget (setLocalEulerAngles newRot) s)
      else if String.eqb mode "s" then
        let sensitivity := 1 in
        let scaleFactor := 1 + projectedDelta * sensitivity in
        let newScale := mulOnAxis dir (dragStartValueRef s) scaleFactor in
        set_transforms (set_tScale newScale (transforms s))
          (updateTarget (setLocalScale newScale) s)
      else s
  end.

(** [onMouseMove]; [pointerLocked] is
    [document.pointerLockElement === canvasRef.current]. *)
Definition onMouseMove (pointerLocked : bool) (event : MouseEvent) (s : State)
  : State :=
  if pointerLocked then mouseLook event s
  else if negb (isEditMode s) then s
  else if isFreeLookingRef s then mouseLook event s
  else if isOrbitingRef s then mouseOrbit event s
  else
    match draggedAxisRef s, gizmoRootRef s with
    | Some axis, Some gizmo =>
        if JS.truthy axis then mouseDrag axis gizmo event s else s
    | _, _ => s
    end.

(** What the hit tests of [onMouseDown] find along the pointer ray: the tag
    of the closest gizmo part, and the id of the closest character. *)
Record HitTest : Type := mkHitTest {
  hitAxis : option string;
  hitCharacterId : option string
}.

(** The value a drag starts from, chosen by the first letter of the handle
    tag. *)
Definition dragStartValue (axis : string) (target : Entity) (old : Vec3) : Vec3 :=
  let v := old in
  let v := if JS.startsWith axis "t" then position target else v in
  let v := if JS.startsWith axis "r" then getLocalEulerAngles target else v in
  let v := if JS.startsWith axis "s" then localScale target else v in
  v.

Definition startOrbit (targetPos : Vec3) (s : State) : State :=
  let s := set_isOrbitingRef true s in
  match orbitParamsFrom (cameraPosition (cameraEntity s)) targetPos with
  | Some p => set_orbitParamsRef p s
  | None => s
  end.

(** The branch of [onMouseDown] taken when no gizmo part is hit: a hit
    character is selected and orbited; otherwise the active target is
    orbited, or the view is turned freely when there is none. *)
Definition mouseDownSelect (hit : HitTest) (s : State) : State :=
  if JS.truthyOpt (hitCharacterId hit) then
    match hitCharacterId hit with
    | Some cid =>
        let s1 := set_activeCharacterId (Some cid)
                    (set_selectedTarget (Some character) s) in
        match characterEntitiesMap s !! cid with
        | Some targetEntity => startOrbit (position targetEntity) s1
        | None => s1
        end
    | None => s
    end
  else
    match getTargetEntity s with
    | Some target => startOrbit (position target) s
    | None => set_isFreeLookingRef true s
    end.

(** The branch taken when the gizmo part tagged [axis] is hit. *)
Definition mouseDownGizmo (axis : string) (event : MouseEvent) (forward : Vec3)
  (s : State) : State :=
  let s1 := set_draggedAxisRef (Some axis) s in
  match getTargetEntity s with
  | Some target =>
      let planeNormal := mulScalar forward (-1) in
      let plane := setFromPointNormal (position target) planeNormal in
      let hitPoint := snd (intersectsRay plane (pointerRay event) vzero) in
      set_dragStartValueRef
        (dragStartValue axis target (dragStartValueRef s))
        (set_dragStartPointRef hitPoint (set_dragPlaneRef plane s1))
  | None => s1
  end.

(** [onMouseDown]; [forward] is [cameraEntityRef.current.forward]. *)
Definition onMouseDown (event : MouseEvent) (forward : Vec3) (hit : HitTest)
  (s : State) : State :=
  if negb (isEditMode s) then s
  else if negb (leftButton event) then s
  else
    match hitAxis hit with
    | Some axis =>
        if JS.truthy axis then mouseDownGizmo axis event forward s
        else mouseDownSelect hit s
    | None => mouseDownSelect hit s
    end.

Definition onMouseUp (s : State) : State :=
  set_isFreeLookingRef false
    (set_isOrbitingRef false (set_draggedAxisRef None s)).

Definition onMouseWheel (event : MouseEvent) (s : State) : State :=
  if isEditMode s && isOrbitingRef s then
    let sensitivity := 0.5 in
    let p := orbitParamsRef s in
    let radius1 := radius p - wheelDelta event * sensitivity * 0.5 in
    let radius1 := Rmax 0.5 (Rmin radius1 50) in
    let p := mkOrbitParams (alpha p) (beta p) radius1 (targetPivot p) in
    let newPos := add (targetPivot p) (orbitOffset p) in
    set_cameraEntity (mkCamera newPos (cameraOrientation (cameraEntity s)))
      (set_orbitParamsRef p s)
  else s.

(** *** Gizmo placement *)

(** Step 1 of the per-frame [update]: the gizmo follows the target and
    keeps its size on screen. *)
Definition updateGizmo (s : State) : State :=
  match gizmoRootRef s, selectedTarget s, getTargetEntity s with
  | Some gizmo, Some _, Some target =>
      let dist := length (sub (cameraPosition (cameraEntity s)) (position target)) in
      let k := Rmax 0.1 (dist * 0.2) in
      set_gizmoRootRef
        (Some (mkGizmoRoot (position target) (getRotation target) k
                           (gizmoParts gizmo))) s
  | _, _, _ => s
  end.

(** Step 2: every 2D character is turned about the vertical to face the
    camera. *)
Definition billboard (camPos : Vec3) (e : Entity) : Entity :=
  if is2DBillboard e then
    let dx := vx camPos - vx (position e) in
    let dz := vz camPos - vz (position e) in
    let yaw := atan2 dx dz * RAD_TO_DEG in
    setLocalEulerAngles (mkVec3 0 yaw 0) e
  else e.

Definition updateBillboards (s : State) : State :=
  set_characterEntitiesMap
    (billboard (cameraPosition (cameraEntity s)) <$> characterEntitiesMap s) s.

(** What one frame reads from outside the component: the elapsed time, the
    key directions ([keyX], [keyY], [keyZ] are the sums x, y, z of the
    pressed keys: -1, 0 or 1), the camera axes and Euler angles as the engine
    reports them, and the move speed of the environment settings. *)
Record FrameInput : Type := mkFrameInput {
  dt : R;
  keyX : R;
  keyY : R;
  keyZ : R;
  forward : Vec3;
  right : Vec3;
  speed : R;
  curEuler : Vec3
}.

Definition nonzero (r : R) : bool := if Req_dec_T r 0 then false else true.

(** Step 3: the keys move the camera. *)
Definition updateMovement (f : FrameInput) (s : State) : State :=
  if isLocked s || isEditMode s then
    if nonzero (keyX f) || nonzero (keyZ f) || nonzero (keyY f) then
      let pos := cameraPosition (cameraEntity s) in
      let move := vzero in
      let move := add move (mulScalar (forward f) (keyZ f * speed f * dt f)) in
      let move := add move (mulScalar (right f) (keyX f * speed f * dt f)) in
      let move := mkVec3 (vx move) (vy move + keyY f * speed f * dt f) (vz move) in
      set_cameraEntity
        (mkCamera (add pos move) (cameraOrientation (cameraEntity s))) s
    else s
  else s.

(** Step 4: outside the look modes the look angles follow the camera. *)
Definition updateMouseLook (f : FrameInput) (s : State) : State :=
  if negb (isFreeLookingRef s) && negb (isLocked s)
  then set_mouseLookEulerRef (mkVec3 (vx (curEuler f)) (vy (curEuler f)) 0) s
  else s.

(** The per-frame [update]. *)
Definition update (f : FrameInput) (s : State) : State :=
  updateMouseLook f (updateMovement f (updateBillboards (updateGizmo s))).

(** [rebuildGizmo]: the old gizmo is destroyed; in edit mode with a
    selection a new one is built for the current tool and placed on the
    target when there is one. *)
Definition rebuildGizmo (s : State) : State :=
  if negb (isEditMode s) then set_gizmoRootRef None s
  else
    match selectedTarget s with
    | None => set_gizmoRootRef None s
    | Some _ =>
        let root :=
          match getTargetEntity s with
          | Some target =>
              mkGizmoRoot (position target) (getRotation target) 1 (gizmoMode s)
          | None => mkGizmoRoot vzero IDENTITY 1 (gizmoMode s)
          end in
        set_gizmoRootRef (Some root) s
    end.

(** The tag [addPart] gives the parts of one handle. *)
Definition gizmoAxis (m : GizmoMode) (a : Axis) : string :=
  String.append
    match m with translate => "t" | rotate => "r" | scale => "s" end
    match a with X => "x" | Y => "y" | Z => "z" end.

Definition component (a : Axis) (v : Vec3) : R :=
  match a with X => vx v | Y => vy v | Z => vz v end.

Definition setComponent (a : Axis) (k : R) (v : Vec3) : Vec3 :=
  match a with
  | X => mkVec3 k (vy v) (vz v)
  | Y => mkVec3 (vx v) k (vz v)
  | Z => mkVec3 (vx v) (vy v) k
  end.

Inductive TransformType : Type := tposition | trotation | tscale.

(** [handleTransformChange]: a value typed into the inspector. *)
Definition handleTransformChange (ty : TransformType) (a : Axis) (value : R)
  (s : State) : State :=
  match getTargetEntity s with
  | None => s
  | Some entity =>
      let t := transforms s in
      let t :=
        match ty with
        | tposition => set_tPosition (setComponent a value (tPosition t)) t
        | trotation => set_tRotation (setComponent a value (tRotation t)) t
        | tscale => set_tScale (setComponent a value (tScale t)) t
        end in
      let f (e : Entity) : Entity :=
        match ty with
        | tposition => setPosition (setComponent a value (position e)) e
        | trotation =>
            setLocalEulerAngles (setComponent a value (getLocalEulerAngles e)) e
        | tscale => setLocalScale (setComponent a value (localScale e)) e
        end in
      let s := updateTarget f (set_transforms t s) in
      match gizmoRootRef s with
      | Some gizmo =>
          let e := f entity in
          set_gizmoRootRef
            (Some (mkGizmoRoot (position e) (getRotation e)
                               (gizmoScale gizmo) (gizmoParts gizmo))) s
      | None => s
      end
  end.

(** *** Scene loader *)

Fixpoint removeFirst (u : string) (l : list string) : list string :=
  match l with
  | [] => []
  | x :: r => if String.eqb x u then r else x :: removeFirst u r
  end.

(** The effect on [splatUrl]: the current scene entity is destroyed and a
    load of the new URL is started. *)
Definition splatEffect (splatUrl : option string) (s : State)
  : State * list Command :=
  match splatUrl with
  | Some u =>
      if JS.truthy u then
        let s :=
          match splatEntityRef s with
          | Some old =>
              set_splatEntityRef None
                (set_rootSplats (removeFirst (asset old) (rootSplats s)) s)
          | None => s
          end in
        (s, [LoadSplat u])
      else (s, [])
  | None => (s, [])
  end.

(** The [asset.ready] callback of the load started for [u]. *)
Definition splatReady (u : string) (s : State) : State :=
  let entity := mkEntity (mkVec3 0 0 0) (mkVec3 0 0 180) (mkVec3 1 1 1) false u in
  let s := set_rootSplats (rootSplats s ++ [u]) s in
  let s := set_splatEntityRef (Some entity) s in
  let s :=
    if negb (isEditMode s) then
      set_mouseLookEulerRef (mkVec3 0 0 0)
        (set_cameraEntity (mkCamera (mkVec3 0 1 4) (EulerAngles 0 0 0)) s)
    else s in
  set_sceneLoadVersion (S (sceneLoadVersion s)) s.

(** *** Character manager *)

(** [new Set(characters.map(c => c.id))] *)
Definition currentIds (characters : list Character) : gset string :=
  list_to_set (List.map id characters).

(** One visit of the removal loop.  [s0] is the state the effect was
    created in: the closure reads [activeCharacterId] and [selectedTarget]
    from that render, while the setters act on [acc]. *)
Definition removeVisit (ids : gset string) (s0 : State)
  (cid : string) (entity : Entity) (acc : State) : State :=
  if decide (cid ∈ ids) then acc
  else
    let acc := set_characterEntitiesMap (delete cid (characterEntitiesMap acc)) acc in
    if decide (activeCharacterId s0 = Some cid) then
      let acc := set_activeCharacterId None acc in
      match selectedTarget s0 with
      | Some character => set_selectedTarget None acc
      | _ => acc
      end
    else acc.

(** Step 1 of the effect on [characters]: every entity whose id has left
    the list is destroyed and forgotten. *)
Definition removeDeleted (characters : list Character) (s : State) : State :=
  map_fold (removeVisit (currentIds characters) s) s (characterEntitiesMap s).

(** Step 2: a load is started for every listed character without an
    entity. *)
Definition addNew (characters : list Character) (s : State) : list Command :=
  List.map
    (fun c => match type c with T3d => LoadContainer c | T2d => LoadTexture c end)
    (List.filter
       (fun c => negb (bool_decide (is_Some (characterEntitiesMap s !! id c))))
       characters).

Definition characterEffect (characters : list Character) (s : State)
  : State * list Command :=
  let s := removeDeleted characters s in
  (s, addNew characters s).

Definition registerCharacter (c : Character) (entity : Entity) (s : State) : State :=
  let s := set_characterEntitiesMap (<[id c := entity]> (characterEntitiesMap s)) s in
  let s := set_activeCharacterId (Some (id c)) s in
  let s := set_selectedTarget (Some character) s in
  set_sceneLoadVersion (S (sceneLoadVersion s)) s.

(** The [asset.ready] callback of a 3D character; [instantiated] is what
    [instantiateRenderEntity()] returns. *)
Definition containerReady (c : Character) (instantiated : option Entity)
  (s : State) : State :=
  match instantiated with
  | Some entity => registerCharacter c (setPosition (mkVec3 0 0 0) entity) s
  | None => s
  end.

(** The [asset.ready] callback of a 2D character. *)
Definition textureReady (c : Character) (s : State) : State :=
  let root := mkEntity (mkVec3 0 1 0) (mkVec3 0 0 0) (mkVec3 1 1 1) true (url c) in
  registerCharacter c root s.

(** The component as first mounted, once the engine is initialised. *)
Definition initial : State :=
  mkState (mkCamera (mkVec3 0 1.5 4) (EulerAngles 0 0 0)) None [] ∅ None
    None vzero vzero (mkPlane UP 0) false false
    (mkOrbitParams 0 0 5 vzero) vzero false false (Some scene) None translate
    (mkTransforms vzero vzero (mkVec3 1 1 1)) 0%nat.

End SceneViewer.

(** ** The application and the viewer under sequences of events *)

Module System.
Import Types.

(** The application state with the asynchronous operations it has started
    and that have not settled yet. *)
Record World : Type := mkWorld {
  app : App.State;
  pending : list App.Command
}.

Inductive Event : Type :=
| SubmitForm (prompt : string)
| ClickClear
| ClickViewMode (m : ViewMode)
| ChooseSplat (file : App.File) (url : string)
| ChooseCharacter (file : App.File) (id url : string)
| UnzipSettled (file : App.File) (r : App.UnzipResult) (url : string)
| ReaderLoaded (file : App.File) (id result : string)
| GenerateSettled (r : App.GenerateResult)
| RemoveCharacter (id : string)
| ViewerMounted (canvas : App.Canvas).

Definition sameFile (a b : App.File) : bool :=
  String.eqb (App.fileName a) (App.fileName b)
  && String.eqb (App.fileType a) (App.fileType b).

Definition isUnzipOf (file : App.File) (c : App.Command) : bool :=
  match c with
  | App.Unzip f => sameFile f file
  | _ => false
  end.

Definition isReadOf (file : App.File) (rid : string) (c : App.Command) : bool :=
  match c with
  | App.ReadAsDataURL f i => sameFile f file && String.eqb i rid
  | _ => false
  end.

Definition isGenerate (c : App.Command) : bool :=
  match c with
  | App.Generate _ _ _ => true
  | _ => false
  end.

(** Removes the first pending operation that [p] accepts, if any. *)
Fixpoint settle (p : App.Command -> bool) (l : list App.Command)
  : option (list App.Command) :=
  match l with
  | [] => None
  | c :: r => if p c then Some r else option_map (cons c) (settle p r)
  end.

(** The service calls among the pending operations. *)
Definition generations (l : list App.Command) : nat :=
  List.length (List.filter isGenerate l).

(** The service calls that are outstanding. *)
Definition outstanding (w : World) : nat := generations (pending w).

Definition started (r : App.State * list App.Command) (w : World) : World :=
  mkWorld (fst r) (pending w ++ snd r).

Definition hasResult (s : App.State) : bool :=
  JS.truthyOpt (generatedImage (App.generationState s)).

(** One event: a user action goes through the control it comes from (a
    disabled or absent control delivers nothing); a completion runs the
    rest of the handler that awaits it, and is void when no such operation
    is pending. *)
Definition step (e : Event) (w : World) : World :=
  match e with
  | SubmitForm prompt => started (ControlPanel.submitForm prompt (app w)) w
  | ClickClear =>
      if hasResult (app w)
         && negb (ControlPanel.inputDisabled
                    (isGenerating (App.generationState (app w))))
      then mkWorld (App.handleReset (app w)) (pending w)
      else w
  | ClickViewMode m =>
      match m with
      | VIEWPORT => mkWorld (App.setViewMode m (app w)) (pending w)
      | _ => if hasResult (app w)
             then mkWorld (App.setViewMode m (app w)) (pending w)
             else w
      end
  | ChooseSplat file u => started (App.handleUploadSplat file u (app w)) w
  | ChooseCharacter file i u =>
      started (App.handleUploadCharacter file i u (app w)) w
  | UnzipSettled file r u =>
      match settle (isUnzipOf file) (pending w) with
      | Some rest => mkWorld (App.handleUploadSplat_resume r u (app w)) rest
      | None => w
      end
  | ReaderLoaded file i result =>
      match settle (isReadOf file i) (pending w) with
      | Some rest => mkWorld (App.readerOnloadend file i result (app w)) rest
      | None => w
      end
  | GenerateSettled r =>
      match settle isGenerate (pending w) with
      | Some rest => mkWorld (App.handleGenerate_resume r (app w)) rest
      | None => w
      end
  | RemoveCharacter i => mkWorld (App.handleRemoveCharacter i (app w)) (pending w)
  | ViewerMounted canvas => mkWorld (App.setCaptureRef (Some canvas) (app w)) (pending w)
  end.

Definition run (events : list Event) (w : World) : World :=
  List.fold_left (fun w e => step e w) events w.

(** *** Sequences in the viewer *)

(** A gizmo drag between mouse down and mouse up: pointer moves with
    frames of the engine loop in between. *)
Inductive DragStep : Type :=
| Move (event : SceneViewer.MouseEvent)
| Frame (f : SceneViewer.FrameInput).

Definition dragStep (d : DragStep) (s : SceneViewer.State) : SceneViewer.State :=
  match d with
  | Move event => SceneViewer.onMouseMove false event s
  | Frame f => SceneViewer.update f s
  end.

Definition runDrag (steps : list DragStep) (s : SceneViewer.State)
  : SceneViewer.State :=
  List.fold_left (fun s d => dragStep d s) steps s.

(** Pointer moves delivered one after the other. *)
Definition runMoves (events : list SceneViewer.MouseEvent)
  (s : SceneViewer.State) : SceneViewer.State :=
  List.fold_left (fun s event => SceneViewer.onMouseMove false event s) events s.

End System.

(** ** Invariants of the event sequences *)

Module Invariants.
Import Types pc SceneViewer.
Local Open Scope R_scope.

(** The busy flag accounts for every outstanding service call. *)
Definition accounted (w : System.World) : Prop :=
  System.outstanding w = 0%nat
  \/ (System.outstanding w = 1%nat
      /\ isGenerating (App.generationState (System.app w)) = true).

(** What the removal loop of the character effect, created in state [s0]
    for the ids [ids], has done once it has visited the entries [m]. *)
Definition removalDone (ids : gset string) (s0 : State)
  (r : State) (m : gmap string Entity) : Prop :=
  (forall k, is_Some (m !! k) -> k ∉ ids -> characterEntitiesMap r !! k = None)
  /\ (forall a, activeCharacterId s0 = Some a -> is_Some (m !! a) -> a ∉ ids ->
      activeCharacterId r = None
      /\ (selectedTarget s0 = Some character -> selectedTarget r = None))
  /\ ((forall k, is_Some (m !! k) -> k ∉ ids -> activeCharacterId s0 <> Some k) ->
      activeCharacterId r = activeCharacterId s0
      /\ selectedTarget r = selectedTarget s0).

(** An orbit drag is in progress. *)
Definition orbiting (s : State) : Prop :=
  isEditMode s = true /\ isFreeLookingRef s = false /\ isOrbitingRef s = true.

(** The world axis of a handle. *)
Definition axisVector (a : Axis) : Vec3 :=
  match a with
  | X => mkVec3 1 0 0
  | Y => mkVec3 0 1 0
  | Z => mkVec3 0 0 1
  end.

(** A drag of the handle tagged [tag] is in progress, started from the
    value [start], with a gizmo and a target in place. *)
Definition dragging (tag : string) (start : Vec3) (s : State) : Prop :=
  isEditMode s = true
  /\ isFreeLookingRef s = false
  /\ isOrbitingRef s = false
  /\ draggedAxisRef s = Some tag
  /\ dragStartValueRef s = start
  /\ is_Some (gizmoRootRef s)
  /\ is_Some (getTargetEntity s).

(** The two letters of a handle tag. *)
Definition modeLetter (m : GizmoMode) : string :=
  match m with translate => "t" | rotate => "r" | scale => "s" end.
Definition axisLetter (a : Axis) : string :=
  match a with X => "x" | Y => "y" | Z => "z" end.

(** What a pointer move of a drag does to the target, by tool: [start] is
    the drag-start value, [q] the gizmo rotation, [d] the projected
    delta. *)
Definition dragUpdate (m : GizmoMode) (a : Axis) (start : Vec3) (q : Quat)
  (d : R) : Entity -> Entity :=
  match m with
  | translate =>
      setPosition (add start (mulScalar (transformVector q (axisVector a)) d))
  | rotate => setLocalEulerAngles (addOnAxis (axisLetter a) start (d * 20))
  | scale => setLocalScale (mulOnAxis (axisLetter a) start (1 + d * 1))
  end.

(** A translate drag of the handle of axis [a] is in progress on a target
    that was [t0] when the button went down and is no billboard: the gizmo
    has the rotation of [t0], and the target differs from [t0] by a move
    along the rotated axis. *)
Definition translating (a : Axis) (t0 : Entity) (s : State) : Prop :=
  dragging (gizmoAxis translate a) (position t0) s
  /\ (exists g, gizmoRootRef s = Some g /\ gizmoRotation g = getRotation t0)
  /\ (exists t k,
        getTargetEntity s = Some t
        /\ is2DBillboard t = false
        /\ eulerAngles t = eulerAngles t0
        /\ localScale t = localScale t0
        /\ position t
           = add (position t0)
                 (mulScalar (transformVector (getRotation t0) (axisVector a)) k)).

End Invariants.

(** ** A concrete editing session *)

Module Scenario.
Import Types pc SceneViewer.
Local Open Scope R_scope.

Definition hero : Character := mkCharacter "ab12cd34" T3d "blob:hero" "hero.glb".

(** What the container of hero.glb instantiates. *)
Definition body : Entity := mkEntity vzero vzero (mkVec3 1 1 1) false "blob:hero".

(** Edit mode, with the character loaded and selected and the translate
    gizmo built on it. *)
Definition editing : State :=
  rebuildGizmo (set_isEditMode true (containerReady hero (Some body) initial)).

(** The same after 90 has been typed into the Y rotation field, and the
    character entity as it is then. *)
Definition turned : State := handleTransformChange trotation Y 90 editing.
Definition turnedBody : Entity := setLocalEulerAngles (mkVec3 0 90 0) body.

(** The same with the camera brought to the character's origin. *)
Definition inside : State :=
  set_cameraEntity (mkCamera vzero (EulerAngles 0 0 0)) editing.

(** The same as [editing] with the scale tool chosen. *)
Definition scaling : State := rebuildGizmo (set_gizmoMode scale editing).

(** The camera looks straight down from four units above the origin. *)
Definition forward : Vec3 := mkVec3 0 (-1) 0.

(** The drag plane of a press on a target at the origin: the ground. *)
Definition ground : Plane := setFromPointNormal vzero (mulScalar forward (-1)).

(** A frame with no key pressed. *)
Definition idle : FrameInput :=
  mkFrameInput (1/60) 0 0 0 (mkVec3 0 (-1) 0) (mkVec3 1 0 0) 2 (mkVec3 (-90) 0 0).

(** A press with the pointer ray going straight down. *)
Definition press : MouseEvent :=
  mkMouseEvent 0 0 0 true (mkRay (mkVec3 0 4 0) (mkVec3 0 (-1) 0)).

(** Moves whose pointer rays meet the ground plane at (0, 0, -3) and at
    (3, 0, 0). *)
Definition pullBack : MouseEvent :=
  mkMouseEvent 0 (-30) 0 true (mkRay (mkVec3 0 4 0) (mkVec3 0 (-4/5) (-3/5))).
Definition pullRight : MouseEvent :=
  mkMouseEvent 30 0 0 true (mkRay (mkVec3 0 4 0) (mkVec3 (3/5) (-4/5) 0)).

End Scenario.

(** ** services/geminiService.ts *)

Module GeminiService.
Local Open Scope string_scope.

Definition nl : string := String (ascii_of_nat 10) EmptyString.

(** The prefix the cleaning patterns look for, for one alternative of the
    image kind. *)
Definition dataUrlPrefix (kind : string) : string :=
  "data:image/" ++ kind ++ ";base64,".

(** [s.replace(/^data:image\/(k1|k2|...);base64,/, '')]: the alternatives
    are tried in order at the start of the string, and the first whose
    prefix is there is cut off. *)
Fixpoint stripDataUrl (kinds : list string) (s : string) : string :=
  match kinds with
  | [] => s
  | kind :: rest =>
      if JS.startsWith s (dataUrlPrefix kind)
      then JS.substringFrom s (String.length (dataUrlPrefix kind))
      else stripDataUrl rest s
  end.

Definition sceneKinds : list string := ["png"; "jpeg"; "jpg"].
Definition characterKinds : list string := ["png"; "jpeg"; "jpg"; "webp"].

(** A part of the request. *)
Inductive Part : Type :=
| Text (text : string)
| InlineData (data mimeType : string).

Definition basePrompt (prompt : string) : string :=
  "Context: This is a snapshot of a 3D environment." ++ nl
  ++ "Task: " ++ prompt ++ nl
  ++ "Instruction: Seamlessly integrate the subject into the environment. Match the lighting, shadows, and camera perspective of the background scene perfectly.".

Definition referencePrompt : string :=
  nl
  ++ "Reference: A character image is provided. Use this character's visual features (appearance, clothing, style) but RE-DRAW them to match the perspective and angle of the 3D scene." ++ nl
  ++ "IMPORTANT: Do not just paste the image. You must rotate/warp/redraw the character so they look like they are physically standing in this 3D space.".

(** The parts [generateCharacterInScene] sends. *)
Definition buildParts (sceneSnapshotBase64 prompt : string)
  (characterReferenceBase64 : option string) : list Part :=
  let cleanSceneBase64 := stripDataUrl sceneKinds sceneSnapshotBase64 in
  let finalPrompt := basePrompt prompt in
  let finalPrompt :=
    if JS.truthyOpt characterReferenceBase64
    then finalPrompt ++ referencePrompt else finalPrompt in
  let parts := [Text finalPrompt] in
  let parts := (parts ++ [InlineData cleanSceneBase64 "image/png"])%list in
  match characterReferenceBase64 with
  | Some reference =>
      if JS.truthy reference
      then (parts ++ [InlineData (stripDataUrl characterKinds reference) "image/png"])%list
      else parts
  | None => parts
  end.

(** A part of a response: its [inlineData] when it has one, with the [data]
    of it when that is defined. *)
Record ResponsePart : Type := mkResponsePart {
  inlineData : option (option string)
}.

(** A response: its [candidates] when defined, each by the parts of its
    content, when it has a content with parts. *)
Record Response : Type := mkResponse {
  candidates : option (list (option (list ResponsePart)))
}.

(** The template [`data:image/png;base64,${data}`]: an undefined [data] is
    spelled out. *)
Definition imageUrl (data : option string) : string :=
  "data:image/png;base64,"
  ++ match data with Some d => d | None => "undefined" end.

(** The first part with inline data, as the [for] loop finds it. *)
Fixpoint firstInlineData (parts : list ResponsePart) : option (option string) :=
  match parts with
  | [] => None
  | part :: rest =>
      match inlineData part with
      | Some data => Some data
      | None => firstInlineData rest
      end
  end.

(** How a call ends: with the image, or with what was thrown: a value
    and its [message] when it has one, or [null] or [undefined]. *)
Inductive Outcome : Type :=
| Image (dataUrl : string)
| Failed (message : option string)
| FailedNullish.

Definition noImage : string := "No image data found in response.".
Definition missingKey : string :=
  "API Key is missing. Please ensure process.env.API_KEY is available.".

(** The parsing of the response; [typeError] is the message of the
    [TypeError] the engine throws when the first candidate has no parts to
    go through. *)
Definition parseResponse (typeError : string) (response : Response) : Outcome :=
  match candidates response with
  | Some (Some parts :: _) =>
      match firstInlineData parts with
      | Some data => Image (imageUrl data)
      | None => Failed (Some noImage)
      end
  | Some (None :: _) => Failed (Some typeError)
  | _ => Failed (Some noImage)
  end.

(** What [generateContent] delivers: a response, or a rejection with a
    value and its message when it has one, or with [null] or [undefined]. *)
Inductive Reply : Type :=
| Answered (response : Response)
| Refused (message : option string)
| RefusedNullish.

(** [generateCharacterInScene] up to the request: without an API key
    nothing is sent. *)
Definition request (apiKey : option string) (sceneSnapshotBase64 prompt : string)
  (characterReferenceBase64 : option string) : option (list Part) :=
  if JS.truthyOpt apiKey
  then Some (buildParts sceneSnapshotBase64 prompt characterReferenceBase64)
  else None.

(** [generateCharacterInScene] as a whole; [reply] is what the request gets
    when it is sent. *)
Definition generateCharacterInScene (apiKey : option string)
  (sceneSnapshotBase64 prompt : string) (characterReferenceBase64 : option string)
  (typeError : string) (reply : Reply) : Outcome :=
  match request apiKey sceneSnapshotBase64 prompt characterReferenceBase64 with
  | None => Failed (Some missingKey)
  | Some _ =>
      match reply with
      | Answered response => parseResponse typeError response
      | Refused message => Failed message
      | RefusedNullish => FailedNullish
      end
  end.

(** What [handleGenerate] sees of the outcome: the resolved image, or the
    [message] of the error it catches. *)
Definition settled (o : Outcome) : App.GenerateResult :=
  match o with
  | Image dataUrl => App.Resolved dataUrl
  | Failed message => App.Rejected message
  | FailedNullish => App.RejectedNullish
  end.

(** A whole generation: [handleGenerate], the service call it awaits, and
    the rest of [handleGenerate]. *)
Definition generate (apiKey : option string) (typeError : string)
  (reply : Reply) (prompt : string) (s : App.State) : App.State :=
  match App.handleGenerate prompt s with
  | (s1, [App.Generate sceneSnapshot p characterImage]) =>
      App.handleGenerate_resume
        (settled (generateCharacterInScene apiKey sceneSnapshot p characterImage
                    typeError reply))
        s1
  | (s1, _) => s1
  end.

End GeminiService.

(** ** The environment of the viewer (SceneViewer.tsx, EditorPanel.tsx) *)

Module Environment.
Import Types pc.
Local Open Scope R_scope.

(** [EnvironmentState] of types.ts. *)
Record EnvironmentState : Type := mkEnvironmentState {
  skyboxId : string;
  customSkyboxUrl : option string;
  customSkyboxFileName : option string;
  skyboxIntensity : R;
  skyboxRotation : R;
  exposure : R;
  cameraFov : R;
  cameraSpeed : R;
  fogEnabled : bool;
  fogColor : string;
  fogDensity : R;
  aoEnabled : bool;
  aoIntensity : R;
  aoRadius : R
}.

(** The three [handleEnvChange] calls of [handleCustomSkyboxUpload]; [url]
    is what [URL.createObjectURL(file)] returns. *)
Definition handleCustomSkyboxUpload (fileName url : string)
  (env : EnvironmentState) : EnvironmentState :=
  mkEnvironmentState "custom" (Some url) (Some fileName)
    (skyboxIntensity env) (skyboxRotation env) (exposure env) (cameraFov env)
    (cameraSpeed env) (fogEnabled env) (fogColor env) (fogDensity env)
    (aoEnabled env) (aoIntensity env) (aoRadius env).

(** [handleEnvChange('skyboxId', id)], from the environment map selector. *)
Definition selectSkybox (id : string) (env : EnvironmentState) : EnvironmentState :=
  mkEnvironmentState id (customSkyboxUrl env) (customSkyboxFileName env)
    (skyboxIntensity env) (skyboxRotation env) (exposure env) (cameraFov env)
    (cameraSpeed env) (fogEnabled env) (fogColor env) (fogDensity env)
    (aoEnabled env) (aoIntensity env) (aoRadius env).

(** *** hexToPcColor *)

(** The value of a character of the class [[a-f\d]] under the [i] flag. *)
Definition hexDigit (c : ascii) : option nat :=
  let n := nat_of_ascii c in
  if Nat.leb 48 n && Nat.leb n 57 then Some (n - 48)%nat
  else if Nat.leb 97 n && Nat.leb n 102 then Some (n - 87)%nat
  else if Nat.leb 65 n && Nat.leb n 70 then Some (n - 55)%nat
  else None.

(** [parseInt(pair, 16)] of a group of two such characters. *)
Definition hexPair (hi lo : ascii) : option nat :=
  match hexDigit hi, hexDigit lo with
  | Some h, Some l => Some (16 * h + l)%nat
  | _, _ => None
  end.

(** The three groups, when the string is exactly six such characters. *)
Definition hexGroups (s : string) : option (nat * nat * nat) :=
  match s with
  | String a (String b (String c (String d (String e (String f EmptyString))))) =>
      match hexPair a b, hexPair c d, hexPair e f with
      | Some r, Some g, Some b' => Some (r, g, b')
      | _, _, _ => None
      end
  | _ => None
  end.

(** [/^#?([a-f\d]{2})([a-f\d]{2})([a-f\d]{2})$/i.exec(hex)] *)
Definition execHex (hex : string) : option (nat * nat * nat) :=
  match hex with
  | String "#" rest => hexGroups rest
  | _ => hexGroups hex
  end.

(** A [pc.Color]. *)
Record Color : Type := mkColor { red : R; green : R; blue : R; opacity : R }.

Definition hexToPcColor (hex : string) : Color :=
  match execHex hex with
  | Some (r, g, b) => mkColor (INR r / 255) (INR g / 255) (INR b / 255) 1
  | None => mkColor 1 1 1 1
  end.

(** *** The effect on the environment settings *)

Inductive Fog : Type := FOG_NONE | FOG_EXP2.

(** The attributes of the ssao script instance on the camera. *)
Record Ssao : Type := mkSsao {
  radius : R;
  intensity : R;
  samples : R;
  brightness : R
}.

(** What the effect writes to: the scene settings, the camera's field of
    view, and the ssao script instance of the camera when there is one. *)
Record Rendering : Type := mkRendering {
  sceneSkyboxIntensity : R;
  sceneSkyboxRotation : Quat;
  sceneExposure : R;
  fov : R;
  fog : Fog;
  sceneFogColor : Color;
  sceneFogDensity : R;
  ssao : option Ssao
}.

(** The effect on [envState]; [ssaoScriptLoaded] is
    [ssaoScriptLoadedRef.current]. *)
Definition environmentEffect (env : EnvironmentState) (ssaoScriptLoaded : bool)
  (r : Rendering) : Rendering :=
  let rotation := setFromEulerAngles (mkVec3 0 (skyboxRotation env) 0) in
  let fog' := if fogEnabled env then FOG_EXP2 else FOG_NONE in
  let color := if fogEnabled env then hexToPcColor (fogColor env)
               else sceneFogColor r in
  let density := if fogEnabled env then fogDensity env else sceneFogDensity r in
  let ssao' :=
    if ssaoScriptLoaded then
      if aoEnabled env then
        match ssao r with
        | None => Some (mkSsao (aoRadius env) (aoIntensity env) 16 0)
        | Some old =>
            Some (mkSsao (aoRadius env) (aoIntensity env) (samples old)
                         (brightness old))
        end
      else None
    else ssao r in
  mkRendering (skyboxIntensity env) rotation (exposure env) (cameraFov env)
    fog' color density ssao'.

(** *** The skybox loader *)

(** [SKYBOX_URLS]; the ids looked up are those the selector offers, so
    that a lookup finds a key of the table or nothing. *)
Definition SKYBOX_URLS : gmap string string :=
  list_to_map
    [("sky_41_2k", "/cubemaps/sky_41_2k.png");
     ("helipad", "/cubemaps/helipad.dds");
     ("studio", "https://playcanvas.github.io/examples/assets/cubemaps/studio.dds")]%string.

Inductive TextureType : Type := TEXTURETYPE_RGBM | TEXTURETYPE_RGBE.

(** The asset the effect creates and loads: the name it is registered
    under, its URL, the texture type and MIME type it is given when they are
    defined, and whether the texture will be projected as a cube. *)
Record SkyboxAsset : Type := mkSkyboxAsset {
  assetName : string;
  assetUrl : string;
  textureType : option TextureType;
  mime : option string;
  cube : bool
}.

Definition skyboxAssetFor (isCustom : bool) (id url filename : string)
  : SkyboxAsset :=
  let isDDS := JS.endsWith (JS.toLowerCase filename) ".dds" in
  let isHDR := JS.endsWith (JS.toLowerCase filename) ".hdr"
               || JS.endsWith (JS.toLowerCase filename) ".exr" in
  mkSkyboxAsset (if isCustom then "custom-skybox" else id) url
    (if isDDS then Some TEXTURETYPE_RGBM
     else if isHDR then Some TEXTURETYPE_RGBE else None)
    (if isHDR then Some "image/vnd.radiance"%string else None)
    isDDS.

(** The effect on the skybox choice; [current] is the name of
    [currentSkyboxAssetRef.current] when there is one.  The result is the
    asset whose load is started, if any. *)
Definition skyboxEffect (env : EnvironmentState) (current : option string)
  : option SkyboxAsset :=
  if String.eqb (skyboxId env) "custom" then
    match customSkyboxUrl env with
    | Some url =>
        if JS.truthy url then
          let filename :=
            match JS.orElse (customSkyboxFileName env) (Some "custom.jpg"%string) with
            | Some f => f
            | None => "custom.jpg"%string
            end in
          Some (skyboxAssetFor true (skyboxId env) url filename)
        else None
    | None => None
    end
  else
    match SKYBOX_URLS !! skyboxId env with
    | Some url =>
        if JS.truthy url then
          if bool_decide (current = Some (skyboxId env)) then None
          else Some (skyboxAssetFor false (skyboxId env) url url)
        else None
    | None => None
    end.

(** [onAssetReady]: with a texture in hand the asset becomes the current
    one. *)
Definition skyboxReady (asset : SkyboxAsset) (hasTexture : bool)
  (current : option string) : option string :=
  if hasTexture then Some (assetName asset) else current.

End Environment.

(** ** More of SceneViewer.tsx: focus, hit tests, the effects of a render *)

Module Viewer.
Import Types pc SceneViewer.
Local Open Scope R_scope.

(** [handleFocus]; [euler] is what [getEulerAngles()] reports once the
    camera looks at the target. *)
Definition handleFocus (euler : Vec3) (s : State) : State :=
  match getTargetEntity s with
  | None => s
  | Some target =>
      let tPos := position target in
      let camPos := cameraPosition (cameraEntity s) in
      let dir := normalize (sub camPos tPos) in
      let dir := if Req_dec_T (length dir) 0 then mkVec3 0 0 1 else dir in
      let focusDist := 4 in
      let newPos := add tPos (mulScalar dir focusDist) in
      let s := set_cameraEntity (mkCamera newPos (LookAt tPos)) s in
      let s := set_mouseLookEulerRef (mkVec3 (vx euler) (vy euler) 0) s in
      syncOrbitParamsToCamera s
  end.

(** *** Hit tests of [onMouseDown] *)

(** A bounding box met on the way: whose it is (the tag of the gizmo part,
    or the id of the character), whether the pointer ray meets it, and how
    far its centre is from the camera. *)
Record Candidate : Type := mkCandidate {
  owner : string;
  intersects : bool;
  centerDistance : R
}.

(** The loop over the candidates: [closestDist] starts at infinity (none),
    and a candidate replaces the hit when its box is met and strictly
    nearer. *)
Fixpoint closest (l : list Candidate) (closestDist : option R)
  (hit : option string) : option string :=
  match l with
  | [] => hit
  | c :: rest =>
      let nearer :=
        match closestDist with
        | None => true
        | Some d => if Rlt_dec (centerDistance c) d then true else false
        end in
      if intersects c && nearer
      then closest rest (Some (centerDistance c)) (Some (owner c))
      else closest rest closestDist hit
  end.

(** The two hit tests, over the gizmo parts and over the mesh instances of
    the characters, each in the order the loops visit them. *)
Definition hitTest (gizmoParts characterMeshes : list Candidate) : HitTest :=
  mkHitTest (closest gizmoParts None None) (closest characterMeshes None None).

(** *** The inspector panel *)

(** The Scene button. *)
Definition selectScene (s : State) : State :=
  set_activeCharacterId None (set_selectedTarget (Some scene) s).

(** [handleCharacterSelect] *)
Definition handleCharacterSelect (charId : string) (s : State) : State :=
  set_activeCharacterId (Some charId) (set_selectedTarget (Some character) s).

(** *** The effects a render runs *)

Global Instance TargetType_eq_dec : EqDecision TargetType.
Proof. solve_decision. Defined.
Global Instance GizmoMode_eq_dec : EqDecision GizmoMode.
Proof. solve_decision. Defined.

(** [updateLocalStateFromEntity] *)
Definition updateLocalStateFromEntity (s : State) : State :=
  match getTargetEntity s with
  | Some entity =>
      set_transforms
        (mkTransforms (position entity) (getLocalEulerAngles entity)
                      (localScale entity)) s
  | None => s
  end.

(** The effect that shows the target in the inspector and puts the gizmo
    on it. *)
Definition inspectEffect (s : State) : State :=
  if isEditMode s then
    let s := updateLocalStateFromEntity s in
    match gizmoRootRef s, getTargetEntity s with
    | Some gizmo, Some t =>
        set_gizmoRootRef
          (Some (mkGizmoRoot (position t) (getRotation t) (gizmoScale gizmo)
                             (gizmoParts gizmo))) s
    | _, _ => s
    end
  else s.

(** Whether the dependencies of the [rebuildGizmo] effect differ between
    two renders. *)
Definition gizmoDepsChanged (before after : State) : bool :=
  negb (bool_decide (isEditMode before = isEditMode after))
  || negb (bool_decide (gizmoMode before = gizmoMode after))
  || negb (bool_decide (selectedTarget before = selectedTarget after))
  || negb (bool_decide (activeCharacterId before = activeCharacterId after))
  || negb (bool_decide (sceneLoadVersion before = sceneLoadVersion after)).

(** The same for the inspector effect. *)
Definition inspectDepsChanged (before after : State) : bool :=
  negb (bool_decide (isEditMode before = isEditMode after))
  || negb (bool_decide (selectedTarget before = selectedTarget after))
  || negb (bool_decide (activeCharacterId before = activeCharacterId after))
  || negb (bool_decide (sceneLoadVersion before = sceneLoadVersion after)).

(** The render that follows a change of state: the effects whose
    dependencies changed run, in the order the component declares them. *)
Definition rendered (before after : State) : State :=
  let s := if gizmoDepsChanged before after then rebuildGizmo after else after in
  if inspectDepsChanged before after then inspectEffect s else s.

(** *** Everything that can happen to the viewer *)

Inductive Event : Type :=
| MouseMove (pointerLocked : bool) (event : MouseEvent)
| MouseDown (event : MouseEvent) (forward : Vec3) (hit : HitTest)
| MouseUp
| MouseWheel (event : MouseEvent)
| Frame (f : FrameInput)
| LockChange (locked : bool)
| EditMode (on : bool)
| Tool (m : GizmoMode)
| SelectScene
| SelectCharacter (charId : string)
| Focus (euler : Vec3)
| TransformChange (ty : TransformType) (a : Axis) (value : R)
| SplatUrl (splatUrl : option string)
| SplatReady (u : string)
| Characters (characters : list Character)
| ContainerReady (c : Character) (instantiated : option Entity)
| TextureReady (c : Character).

(** The handler of an event, before the render it causes. *)
Definition handle (e : Event) (s : State) : State :=
  match e with
  | MouseMove pointerLocked event => onMouseMove pointerLocked event s
  | MouseDown event forward hit => onMouseDown event forward hit s
  | MouseUp => onMouseUp s
  | MouseWheel event => onMouseWheel event s
  | Frame f => update f s
  | LockChange locked => set_isLocked locked s
  | EditMode on => set_isEditMode on s
  | Tool m => set_gizmoMode m s
  | SelectScene => selectScene s
  | SelectCharacter charId => handleCharacterSelect charId s
  | Focus euler => handleFocus euler s
  | TransformChange ty a value => handleTransformChange ty a value s
  | SplatUrl splatUrl => fst (splatEffect splatUrl s)
  | SplatReady u => splatReady u s
  | Characters characters => fst (characterEffect characters s)
  | ContainerReady c instantiated => containerReady c instantiated s
  | TextureReady c => textureReady c s
  end.

Definition step (e : Event) (s : State) : State := rendered s (handle e s).

Definition run (events : list Event) (s : State) : State :=
  List.fold_left (fun s e => step e s) events s.

End Viewer.

(** ** What stays true as events come *)

Module Coherence.
Import Types pc SceneViewer.
Local Open Scope R_scope.

(** While the loading flag is up, a decompression is pending. *)
Definition loadingAccounted (w : System.World) : Prop :=
  App.isLoading (System.app w) = true ->
  exists file, In (App.Unzip file) (System.pending w).

(** A completion that rejects the service call with [null] or
    [undefined]. *)
Definition nullishRejection (e : System.Event) : bool :=
  match e with
  | System.GenerateSettled App.RejectedNullish => true
  | _ => false
  end.

(** Scene loads one after the other: each is started by the effect on
    [splatUrl] and its [ready] callback runs before the next begins. *)
Definition loadScenes (urls : list string) (s : State) : State :=
  List.fold_left (fun s u => splatReady u (fst (splatEffect (Some u) s))) urls s.

(** The scene entities attached to the root are the one the viewer holds,
    if it holds one. *)
Definition oneScene (s : State) : Prop :=
  match splatEntityRef s with
  | Some e => rootSplats s = [asset e]
  | None => rootSplats s = []
  end.

(** An active character goes with the character target. *)
Definition selectionCoherent (s : State) : Prop :=
  selectedTarget s = Some character \/ activeCharacterId s = None.

(** The gizmo is there exactly in edit mode with a selection, and its
    handles are those of the current tool. *)
Definition gizmoCoherent (s : State) : Prop :=
  match gizmoRootRef s with
  | Some g =>
      isEditMode s = true /\ is_Some (selectedTarget s)
      /\ gizmoParts g = gizmoMode s
  | None => isEditMode s = false \/ selectedTarget s = None
  end.

(** Two states agree on whether there is a gizmo and on its handles. *)
Definition sameGizmoShape (a b : State) : Prop :=
  match gizmoRootRef a, gizmoRootRef b with
  | Some g, Some g' => gizmoParts g = gizmoParts g'
  | None, None => True
  | _, _ => False
  end.

(** The orbit parameters describe a point of a sphere. *)
Definition orbitSane (s : State) : Prop :=
  0 <= radius (orbitParamsRef s) /\ -90 <= beta (orbitParamsRef s) <= 90.

End Coherence.

(** * Properties *)

Import Types Invariants.

(** ** Uploads and generation (App.tsx, ControlPanel.tsx) *)

Example endsWith_ignores_case_after_lowering :
  JS.endsWith (JS.toLowerCase "Room.SPZ") ".spz" = true.
Proof. reflexivity. Qed.

Example endsWith_needs_the_dot : JS.endsWith "roomspz" ".spz" = false.
Proof. reflexivity. Qed.

Example trim_of_blanks_is_empty : JS.trim "    " = ""%string.
Proof. reflexivity. Qed.

Example trim_keeps_inner_blanks : JS.trim "  a knight  " = "a knight"%string.
Proof. reflexivity. Qed.

Example findInnerFile_prefers_splat :
  App.findInnerFile ["mesh.ply"; "notes.txt"; "scan.KSPLAT"]%string
  = Some "scan.KSPLAT"%string.
Proof. reflexivity. Qed.

Example findInnerFile_falls_back_to_ply :
  App.findInnerFile ["notes.txt"; "mesh.ply"]%string = Some "mesh.ply"%string.
Proof. reflexivity. Qed.

Example gizmoAxis_tags :
  List.map (SceneViewer.gizmoAxis scale) [X; Y; Z] = ["sx"; "sy"; "sz"]%string.
Proof. reflexivity. Qed.

Section AppFacts.
Local Open Scope string_scope.

Lemma find_all_false {A : Type} (p : A -> bool) (l : list A) :
  Forall (fun x => p x = false) l -> JS.find p l = None.
Proof.
  unfold JS.find. induction 1 as [|x l Hx _ IH]; simpl.
  - reflexivity.
  - rewrite Hx. exact IH.
Qed.

Lemma findInnerFile_none (keys : list string) :
  Forall (fun k => App.isSplatName k = false /\ App.isPlyName k = false) keys ->
  App.findInnerFile keys = None.
Proof.
  intros H. unfold App.findInnerFile.
  rewrite (find_all_false App.isSplatName), (find_all_false App.isPlyName).
  - reflexivity.
  - eapply Forall_impl; [exact H|]. simpl. tauto.
  - eapply Forall_impl; [exact H|]. simpl. tauto.
Qed.

(** A found inner file has a non-empty name: the empty name carries no
    extension. *)
Lemma find_some_holds {A : Type} (p : A -> bool) (l : list A) (x : A) :
  JS.find p l = Some x -> p x = true.
Proof. unfold JS.find. intros H. apply find_some in H. tauto. Qed.

End AppFacts.

(** C6. Invoking generation when the scene capture returns none aborts at
    once: the error message becomes "Failed to capture 3D scene.", the
    generating flag stays false, and no service call is started. *)
Theorem generate_without_capture_aborts (prompt : string) (s : App.State) :
  App.captureScene s = None ->
  isGenerating (App.generationState s) = false ->
  let r := App.handleGenerate prompt s in
  error (App.generationState (fst r)) = Some "Failed to capture 3D scene."%string
  /\ isGenerating (App.generationState (fst r)) = false
  /\ snd r = [].
Proof.
  intros Hcap Hgen. unfold App.handleGenerate. rewrite Hcap. simpl.
  auto.
Qed.

Lemma generate_without_capture_aborts_witness :
  let r := App.handleGenerate "a knight by the door" App.initial in
  error (App.generationState (fst r)) = Some "Failed to capture 3D scene."%string
  /\ isGenerating (App.generationState (fst r)) = false
  /\ snd r = [].
Proof.
  apply (generate_without_capture_aborts "a knight by the door" App.initial);
    reflexivity.
Defined.

(** C7. Loading a scene archive (.spz) none of whose inner files ends in
    .splat, .ksplat or .ply fails with a descriptive error message and leaves
    the scene unset: the upload suspends on the decompression, and when that
    delivers the archive the scene URL is cleared, the loading flag is
    lowered, and the viewer's loader has nothing to load. *)
Theorem archive_without_scene_file_fails
  (file : App.File) (u0 u : string) (keys : list string)
  (s : App.State) (v : SceneViewer.State) :
  App.isSpz file = true ->
  Forall (fun k => App.isSplatName k = false /\ App.isPlyName k = false) keys ->
  let r := App.handleUploadSplat file u0 s in
  let s' := App.handleUploadSplat_resume (App.Unzipped keys) u (fst r) in
  snd r = [App.Unzip file]
  /\ error (App.generationState s') =
       Some "Failed to load file: No valid .splat or .ply file found inside SPZ archive"%string
  /\ App.splatUrl s' = None
  /\ App.isLoading s' = false
  /\ SceneViewer.splatEffect (App.splatUrl s') v = (v, []).
Proof.
  intros Hspz Hkeys. unfold App.handleUploadSplat. rewrite Hspz. simpl.
  unfold App.handleUploadSplat_resume.
  rewrite (findInnerFile_none keys Hkeys). simpl. auto.
Qed.

Lemma archive_without_scene_file_fails_witness :
  let file := App.mkFile "room.spz" "application/octet-stream" in
  let r := App.handleUploadSplat file "blob:1" App.initial in
  let s' := App.handleUploadSplat_resume
              (App.Unzipped ["readme.txt"%string]) "blob:2" (fst r) in
  snd r = [App.Unzip file]
  /\ error (App.generationState s') =
       Some "Failed to load file: No valid .splat or .ply file found inside SPZ archive"%string
  /\ App.splatUrl s' = None
  /\ App.isLoading s' = false
  /\ SceneViewer.splatEffect (App.splatUrl s') SceneViewer.initial
     = (SceneViewer.initial, []).
Proof.
  apply (archive_without_scene_file_fails
           (App.mkFile "room.spz" "application/octet-stream")
           "blob:1" "blob:2" ["readme.txt"%string] App.initial
           SceneViewer.initial).
  - reflexivity.
  - repeat constructor.
Defined.

(** C10. Uploading a character file that is neither a 3D model (name ending
    in .glb or .gltf) nor an image (MIME type starting with image/) is
    silently ignored: the whole application state, and with it the character
    list and the error slot, is unchanged, and nothing is started. *)
Theorem unsupported_character_upload_ignored
  (file : App.File) (cid u : string) (s : App.State) :
  App.is3D file = false ->
  App.isImage file = false ->
  App.handleUploadCharacter file cid u s = (s, []).
Proof.
  intros H3 Him. unfold App.handleUploadCharacter. rewrite H3, Him. reflexivity.
Qed.

Lemma unsupported_character_upload_ignored_witness :
  App.handleUploadCharacter (App.mkFile "notes.txt" "text/plain")
    "1a2b3c4d" "blob:7" App.initial = (App.initial, []).
Proof.
  apply (unsupported_character_upload_ignored
           (App.mkFile "notes.txt" "text/plain") "1a2b3c4d" "blob:7" App.initial);
    reflexivity.
Defined.

(** *** One generation request at a time *)

Section Generation.
Import System.

Lemma generations_app (l k : list App.Command) :
  generations (l ++ k) = generations l + generations k.
Proof. unfold generations. rewrite List.filter_app, List.length_app. reflexivity. Qed.

Lemma settle_generate (l rest : list App.Command) :
  settle isGenerate l = Some rest -> generations l = S (generations rest).
Proof.
  revert rest. induction l as [|c l IH]; intros rest H; simpl in H.
  - discriminate.
  - destruct (isGenerate c) eqn:Hc.
    + injection H as <-. unfold generations. simpl. rewrite Hc. reflexivity.
    + destruct (settle isGenerate l) as [r|] eqn:Hs; simpl in H; [|discriminate].
      injection H as <-. specialize (IH r eq_refl).
      unfold generations in *. simpl. rewrite Hc. exact IH.
Qed.

Lemma settle_other (p : App.Command -> bool) (l rest : list App.Command) :
  (forall c, p c = true -> isGenerate c = false) ->
  settle p l = Some rest -> generations rest = generations l.
Proof.
  intros Hp. revert rest. induction l as [|c l IH]; intros rest H; simpl in H.
  - discriminate.
  - destruct (p c) eqn:Hc.
    + injection H as <-. unfold generations. simpl. rewrite (Hp c Hc). reflexivity.
    + destruct (settle p l) as [r|] eqn:Hs; simpl in H; [|discriminate].
      injection H as <-. specialize (IH r eq_refl).
      unfold generations in *. simpl. destruct (isGenerate c); simpl; lia.
Qed.

Lemma isUnzipOf_not_generate (file : App.File) (c : App.Command) :
  isUnzipOf file c = true -> isGenerate c = false.
Proof. destruct c; simpl; congruence. Qed.

Lemma isReadOf_not_generate (file : App.File) (rid : string) (c : App.Command) :
  isReadOf file rid c = true -> isGenerate c = false.
Proof. destruct c; simpl; congruence. Qed.

Lemma handleGenerate_cases (prompt : string) (s : App.State) :
  let r := App.handleGenerate prompt s in
  (snd r = []
   /\ isGenerating (App.generationState (fst r))
      = isGenerating (App.generationState s))
  \/ (generations (snd r) = 1
      /\ isGenerating (App.generationState (fst r)) = true).
Proof.
  unfold App.handleGenerate.
  destruct (App.captureScene s) as [snap|]; simpl; [|left; auto].
  destruct (JS.truthy snap); simpl; [right|left]; auto.
Qed.

Lemma submitForm_cases (prompt : string) (s : App.State) :
  let r := ControlPanel.submitForm prompt s in
  (snd r = []
   /\ isGenerating (App.generationState (fst r))
      = isGenerating (App.generationState s))
  \/ (isGenerating (App.generationState s) = false
      /\ generations (snd r) = 1
      /\ isGenerating (App.generationState (fst r)) = true).
Proof.
  unfold ControlPanel.submitForm, ControlPanel.submitDisabled,
    ControlPanel.handleSubmit.
  destruct (isGenerating (App.generationState s)) eqn:Hg; simpl.
  - left. auto.
  - destruct (negb (JS.truthy (JS.trim prompt))); simpl.
    + left. auto.
    + destruct (handleGenerate_cases prompt s) as [[H1 H2]|[H1 H2]].
      * left. split; [exact H1|]. rewrite H2. exact Hg.
      * right. auto.
Qed.

Lemma uploadSplat_keeps_busy (file : App.File) (u : string) (s : App.State) :
  let r := App.handleUploadSplat file u s in
  generations (snd r) = 0
  /\ isGenerating (App.generationState (fst r))
     = isGenerating (App.generationState s).
Proof.
  unfold App.handleUploadSplat. destruct (App.isSpz file); simpl; auto.
Qed.

Lemma uploadSplat_resume_keeps_busy (r : App.UnzipResult) (u : string) (s : App.State) :
  isGenerating (App.generationState (App.handleUploadSplat_resume r u s))
  = isGenerating (App.generationState s).
Proof.
  unfold App.handleUploadSplat_resume. destruct r as [m|keys]; simpl; auto.
  destruct (negb (JS.truthyOpt (App.findInnerFile keys))); reflexivity.
Qed.

Lemma uploadCharacter_keeps_busy (file : App.File) (cid u : string) (s : App.State) :
  let r := App.handleUploadCharacter file cid u s in
  generations (snd r) = 0
  /\ isGenerating (App.generationState (fst r))
     = isGenerating (App.generationState s).
Proof.
  unfold App.handleUploadCharacter.
  destruct (App.is3D file); [simpl; auto|].
  destruct (App.isImage file); simpl; auto.
Qed.

Lemma step_accounted (e : Event) (w : World) :
  accounted w -> accounted (step e w).
Proof.
  unfold accounted, outstanding. intros Hw.
  destruct e as [prompt| |m|file u|file cid u|file r u|file cid res|r|cid|canvas];
    cbv beta iota delta [step started].
  - (* SubmitForm *)
    cbn [app pending]. rewrite generations_app.
    destruct (submitForm_cases prompt (app w)) as [[H1 H2]|(H0 & H1 & H2)].
    + rewrite H1, H2. change (generations []) with 0.
      rewrite !Nat.add_0_r. exact Hw.
    + rewrite H1, H2. destruct Hw as [Hw|[_ Hw]]; [|congruence].
      right. split; [lia|reflexivity].
  - (* ClickClear *)
    destruct (hasResult (app w) && _); [|exact Hw].
    cbn [app pending]. exact Hw.
  - (* ClickViewMode *)
    destruct m; [| destruct (hasResult (app w)) ..]; try exact Hw;
      cbn [app pending]; exact Hw.
  - (* ChooseSplat *)
    cbn [app pending]. rewrite generations_app.
    destruct (uploadSplat_keeps_busy file u (app w)) as [H1 H2].
    rewrite H1, H2, !Nat.add_0_r. exact Hw.
  - (* ChooseCharacter *)
    cbn [app pending]. rewrite generations_app.
    destruct (uploadCharacter_keeps_busy file cid u (app w)) as [H1 H2].
    rewrite H1, H2, !Nat.add_0_r. exact Hw.
  - (* UnzipSettled *)
    destruct (settle (isUnzipOf file) (pending w)) as [rest|] eqn:Hs; [|exact Hw].
    cbn [app pending].
    rewrite (settle_other _ _ _ (isUnzipOf_not_generate file) Hs).
    rewrite uploadSplat_resume_keeps_busy. exact Hw.
  - (* ReaderLoaded *)
    destruct (settle (isReadOf file cid) (pending w)) as [rest|] eqn:Hs; [|exact Hw].
    cbn [app pending].
    rewrite (settle_other _ _ _ (isReadOf_not_generate file cid) Hs).
    exact Hw.
  - (* GenerateSettled *)
    destruct (settle isGenerate (pending w)) as [rest|] eqn:Hs; [|exact Hw].
    cbn [app pending].
    apply settle_generate in Hs. left. lia.
  - (* RemoveCharacter *)
    cbn [app pending]. exact Hw.
  - (* ViewerMounted *)
    cbn [app pending]. exact Hw.
Qed.

Lemma run_accounted (events : list Event) (w : World) :
  accounted w -> accounted (run events w).
Proof.
  unfold run. revert w. induction events as [|e events IH]; intros w Hw; simpl.
  - exact Hw.
  - apply IH, step_accounted, Hw.
Qed.

End Generation.

(** C3. While a generation request is in flight, a new one cannot be
    submitted.  Whatever the user and the pending operations do, starting
    with nothing pending: at most one service call is outstanding; while one
    is, the busy flag is raised; and while the flag is raised a submission of
    the prompt form reaches no handler, changes nothing and starts no
    call. *)
Theorem one_generation_in_flight (s0 : App.State) (events : list System.Event) :
  let w := System.run events (System.mkWorld s0 []) in
  System.outstanding w <= 1
  /\ (System.outstanding w = 1 ->
      isGenerating (App.generationState (System.app w)) = true)
  /\ (isGenerating (App.generationState (System.app w)) = true ->
      forall prompt : string,
        ControlPanel.submitForm prompt (System.app w) = (System.app w, [])
        /\ System.outstanding (System.step (System.SubmitForm prompt) w)
           = System.outstanding w).
Proof.
  intros w.
  assert (Hacc : accounted w).
  { apply run_accounted. left. reflexivity. }
  split; [destruct Hacc as [H|[H _]]; lia|].
  split; [intros H1; destruct Hacc as [H|[_ H]]; [lia|exact H]|].
  intros Hbusy prompt.
  assert (Hsub : ControlPanel.submitForm prompt (System.app w) = (System.app w, [])).
  { unfold ControlPanel.submitForm, ControlPanel.submitDisabled.
    rewrite Hbusy. reflexivity. }
  split; [exact Hsub|].
  simpl. rewrite Hsub. unfold System.started, System.outstanding. simpl.
  rewrite List.app_nil_r. reflexivity.
Qed.

Lemma one_generation_in_flight_witness :
  let w := System.run
             [System.ViewerMounted (App.mkCanvas "data:image/png;base64,iVBOR");
              System.SubmitForm "a knight by the door"]
             (System.mkWorld App.initial []) in
  System.outstanding w = 1
  /\ isGenerating (App.generationState (System.app w)) = true
  /\ ControlPanel.submitForm "a second knight" (System.app w) = (System.app w, [])
  /\ System.outstanding (System.step (System.SubmitForm "a second knight") w) = 1.
Proof.
  destruct (one_generation_in_flight App.initial
              [System.ViewerMounted (App.mkCanvas "data:image/png;base64,iVBOR");
               System.SubmitForm "a knight by the door"])
    as (_ & Hbusy & Hblocked).
  split; [reflexivity|]. split; [apply Hbusy; reflexivity|].
  destruct (Hblocked (Hbusy eq_refl) "a second knight"%string) as [H1 H2].
  split; [exact H1|]. rewrite H2. reflexivity.
Defined.

(** [handleGenerate] itself never reads the busy flag: called directly in a
    busy state with a canvas to capture, it starts a call.  What keeps C3 is
    the disabled form. *)
Remark handleGenerate_has_no_guard (prompt : string) (s : App.State) (snap : string) :
  App.captureScene s = Some snap ->
  JS.truthy snap = true ->
  System.generations (snd (App.handleGenerate prompt s)) = 1.
Proof.
  intros Hc Ht. unfold App.handleGenerate. rewrite Hc, Ht. reflexivity.
Qed.

(** *** Scene uploads that overlap *)

Section Uploads.
Import System.

Lemma sameFile_refl (f : App.File) : sameFile f f = true.
Proof. unfold sameFile. rewrite !String.eqb_refl. reflexivity. Qed.

Lemma sameFile_eq (f g : App.File) : sameFile f g = true -> f = g.
Proof.
  unfold sameFile. intros H. apply andb_prop in H as [Hn Ht].
  apply String.eqb_eq in Hn, Ht. destruct f, g; simpl in *. congruence.
Qed.

(** A completed decompression of a well-formed archive installs its URL,
    whatever the state it returns to. *)
Lemma resume_installs_url (keys : list string) (u : string) (s : App.State) :
  JS.truthyOpt (App.findInnerFile keys) = true ->
  App.splatUrl (App.handleUploadSplat_resume (App.Unzipped keys) u s) = Some u.
Proof.
  intros H. unfold App.handleUploadSplat_resume. rewrite H. reflexivity.
Qed.

Lemma pending_ChooseSplat (file : App.File) (u : string) (w : World) :
  pending (step (ChooseSplat file u) w)
  = pending w ++ (if App.isSpz file then [App.Unzip file] else []).
Proof.
  cbv beta iota delta [step started]. cbn [pending].
  unfold App.handleUploadSplat. destruct (App.isSpz file); reflexivity.
Qed.

Lemma pending_UnzipSettled (file : App.File) (r : App.UnzipResult) (u : string)
  (w : World) :
  pending (step (UnzipSettled file r u) w)
  = match settle (isUnzipOf file) (pending w) with
    | Some rest => rest
    | None => pending w
    end.
Proof.
  cbv beta iota delta [step].
  destruct (settle (isUnzipOf file) (pending w)); reflexivity.
Qed.

Lemma app_UnzipSettled (file : App.File) (r : App.UnzipResult) (u : string)
  (w : World) (rest : list App.Command) :
  settle (isUnzipOf file) (pending w) = Some rest ->
  app (step (UnzipSettled file r u) w) = App.handleUploadSplat_resume r u (app w).
Proof. intros H. cbv beta iota delta [step]. rewrite H. reflexivity. Qed.

(** When the entity of the asset [u] becomes ready it becomes the scene
    entity, and no attached entity is detached. *)
Lemma splatReady_installs (u : string) (v : SceneViewer.State) :
  SceneViewer.asset <$> SceneViewer.splatEntityRef (SceneViewer.splatReady u v)
  = Some u
  /\ SceneViewer.rootSplats (SceneViewer.splatReady u v)
     = SceneViewer.rootSplats v ++ [u].
Proof.
  unfold SceneViewer.splatReady.
  destruct (SceneViewer.isEditMode v) eqn:He; simpl; rewrite He; simpl; auto.
Qed.

End Uploads.

(** C2, as the code has it.  No load is checked against the upload that is
    current when it completes: every completion installs its own result.
    With uploads A then B, A an archive, and A's decompression settling after
    B's load, the scene URL ends as A's.  In the viewer likewise: with the
    URL set to A's and then to B's, and B's asset ready before A's, the scene
    entity ends as A's, and B's entity stays attached beside it. *)
Theorem last_completed_load_wins
  (fileA fileB : App.File) (u0 uA uB : string) (rB : App.UnzipResult)
  (keysA : list string) (s0 : App.State) (v : SceneViewer.State) :
  App.isSpz fileA = true ->
  JS.truthyOpt (App.findInnerFile keysA) = true ->
  JS.truthy uA = true ->
  JS.truthy uB = true ->
  let w := System.run
             [System.ChooseSplat fileA u0;
              System.ChooseSplat fileB uB;
              System.UnzipSettled fileB rB uB;
              System.UnzipSettled fileA (App.Unzipped keysA) uA]
             (System.mkWorld s0 []) in
  let v1 := fst (SceneViewer.splatEffect (Some uA) v) in
  let v2 := fst (SceneViewer.splatEffect (Some uB) v1) in
  let v' := SceneViewer.splatReady uA (SceneViewer.splatReady uB v2) in
  App.splatUrl (System.app w) = Some uA
  /\ SceneViewer.asset <$> SceneViewer.splatEntityRef v' = Some uA
  /\ In uB (SceneViewer.rootSplats v').
Proof.
  intros HspzA Hkeys HuA HuB. split.
  - unfold System.run. cbn [List.fold_left].
    set (w1 := System.step (System.ChooseSplat fileA u0) (System.mkWorld s0 [])).
    set (w2 := System.step (System.ChooseSplat fileB uB) w1).
    set (w3 := System.step (System.UnzipSettled fileB rB uB) w2).
    assert (H1 : System.pending w1 = [App.Unzip fileA]).
    { unfold w1. rewrite pending_ChooseSplat, HspzA. reflexivity. }
    assert (H2 : System.pending w2
                 = App.Unzip fileA
                     :: (if App.isSpz fileB then [App.Unzip fileB] else [])).
    { unfold w2. rewrite pending_ChooseSplat, H1. reflexivity. }
    assert (H3 : exists rest,
               System.settle (System.isUnzipOf fileA) (System.pending w3)
               = Some rest).
    { unfold w3. rewrite pending_UnzipSettled, H2.
      cbn [System.settle System.isUnzipOf].
      destruct (System.sameFile fileA fileB) eqn:Hsame.
      - apply sameFile_eq in Hsame as <-. rewrite HspzA.
        cbn [System.settle System.isUnzipOf]. rewrite sameFile_refl. eauto.
      - destruct (App.isSpz fileB);
          cbn [System.settle System.isUnzipOf option_map];
          rewrite ?sameFile_refl; cbn [option_map System.settle System.isUnzipOf];
          rewrite ?sameFile_refl; eauto. }
    destruct H3 as [rest H3].
    rewrite (app_UnzipSettled _ _ _ _ _ H3).
    apply resume_installs_url, Hkeys.
  - destruct (splatReady_installs uA
                (SceneViewer.splatReady uB
                   (fst (SceneViewer.splatEffect (Some uB)
                           (fst (SceneViewer.splatEffect (Some uA) v))))))
      as [H1 H2].
    split; [exact H1|]. cbv zeta. rewrite H2.
    destruct (splatReady_installs uB
                (fst (SceneViewer.splatEffect (Some uB)
                        (fst (SceneViewer.splatEffect (Some uA) v)))))
      as [_ H3].
    rewrite H3. apply in_or_app. left. apply in_or_app. right. left. reflexivity.
Qed.

Lemma last_completed_load_wins_witness :
  let fileA := App.mkFile "castle.spz" "application/octet-stream" in
  let fileB := App.mkFile "garden.splat" "application/octet-stream" in
  let w := System.run
             [System.ChooseSplat fileA "blob:0";
              System.ChooseSplat fileB "blob:garden";
              System.UnzipSettled fileB (App.UnzipError "not an archive") "blob:garden";
              System.UnzipSettled fileA (App.Unzipped ["castle.ply"%string]) "blob:castle"]
             (System.mkWorld App.initial []) in
  let v1 := fst (SceneViewer.splatEffect (Some "blob:castle"%string) SceneViewer.initial) in
  let v2 := fst (SceneViewer.splatEffect (Some "blob:garden"%string) v1) in
  let v' := SceneViewer.splatReady "blob:castle" (SceneViewer.splatReady "blob:garden" v2) in
  App.splatUrl (System.app w) = Some "blob:castle"%string
  /\ SceneViewer.asset <$> SceneViewer.splatEntityRef v' = Some "blob:castle"%string
  /\ In "blob:garden"%string (SceneViewer.rootSplats v').
Proof.
  apply (last_completed_load_wins
           (App.mkFile "castle.spz" "application/octet-stream")
           (App.mkFile "garden.splat" "application/octet-stream")
           "blob:0" "blob:castle" "blob:garden"
           (App.UnzipError "not an archive") ["castle.ply"%string]
           App.initial SceneViewer.initial); reflexivity.
Defined.

(** C2 as stated fails: the archive castle.spz is uploaded, then
    garden.splat, whose load is immediate; when the decompression of the
    archive settles afterwards, the scene URL becomes the archive's and is no
    longer the one of the second upload, while the file label still names
    the second upload. *)
Lemma stale_upload_replaces_newer_scene :
  let fileA := App.mkFile "castle.spz" "application/octet-stream" in
  let fileB := App.mkFile "garden.splat" "application/octet-stream" in
  let w := System.run
             [System.ChooseSplat fileA "blob:0";
              System.ChooseSplat fileB "blob:garden";
              System.UnzipSettled fileA (App.Unzipped ["castle.ply"%string]) "blob:castle"]
             (System.mkWorld App.initial []) in
  App.splatUrl (System.app w) = Some "blob:castle"%string
  /\ App.splatUrl (System.app w) <> Some "blob:garden"%string
  /\ App.splatFileName (System.app w) = Some "garden.splat"%string.
Proof.
  split; [reflexivity|]. split; [|reflexivity].
  intros H. vm_compute in H. discriminate H.
Qed.

(** ** The character registry (SceneViewer.tsx) *)

Section Registry.
Import SceneViewer.

Variable ids : gset string.
Variable s0 : State.

Lemma removeVisit_map (cid : string) (x : Entity) (r : State) :
  characterEntitiesMap (removeVisit ids s0 cid x r)
  = if decide (cid ∈ ids) then characterEntitiesMap r
    else delete cid (characterEntitiesMap r).
Proof.
  unfold removeVisit. destruct (decide (cid ∈ ids)); [reflexivity|].
  destruct (decide (activeCharacterId s0 = Some cid)); [|reflexivity].
  destruct (selectedTarget s0) as [[]|]; reflexivity.
Qed.

Lemma removeVisit_other (cid : string) (x : Entity) (r : State) :
  activeCharacterId s0 <> Some cid ->
  activeCharacterId (removeVisit ids s0 cid x r) = activeCharacterId r
  /\ selectedTarget (removeVisit ids s0 cid x r) = selectedTarget r.
Proof.
  intros Hne. unfold removeVisit. destruct (decide (cid ∈ ids)); [auto|].
  destruct (decide (activeCharacterId s0 = Some cid)); [contradiction|auto].
Qed.

Lemma removeVisit_selected (cid : string) (x : Entity) (r : State) :
  cid ∉ ids ->
  activeCharacterId s0 = Some cid ->
  activeCharacterId (removeVisit ids s0 cid x r) = None
  /\ (selectedTarget s0 = Some character ->
      selectedTarget (removeVisit ids s0 cid x r) = None).
Proof.
  intros Hout Hact. unfold removeVisit.
  destruct (decide (cid ∈ ids)); [contradiction|].
  destruct (decide (activeCharacterId s0 = Some cid)); [|contradiction].
  split.
  - destruct (selectedTarget s0) as [[]|]; reflexivity.
  - intros ->. reflexivity.
Qed.

Lemma removalDone_fold (m : gmap string Entity) :
  removalDone ids s0 (map_fold (removeVisit ids s0) s0 m) m.
Proof.
  apply (map_fold_weak_ind (removalDone ids s0)).
  - split; [|split].
    + intros k [y Hy]. rewrite lookup_empty in Hy. discriminate.
    + intros a _ [y Hy]. rewrite lookup_empty in Hy. discriminate.
    + auto.
  - intros i x m' r Hi (IHmap & IHsel & IHkeep). split; [|split].
    + intros k Hk Hout. rewrite removeVisit_map.
      destruct (decide (k = i)) as [->|Hne].
      * destruct (decide (i ∈ ids)); [contradiction|]. apply lookup_delete_eq.
      * rewrite lookup_insert_ne in Hk by congruence.
        destruct (decide (i ∈ ids)).
        -- apply IHmap; assumption.
        -- rewrite lookup_delete_ne by congruence. apply IHmap; assumption.
    + intros a Hact Ha Hout.
      destruct (decide (a = i)) as [->|Hne].
      * apply removeVisit_selected; assumption.
      * rewrite lookup_insert_ne in Ha by congruence.
        destruct (removeVisit_other i x r) as [H1 H2].
        { rewrite Hact. congruence. }
        rewrite H1, H2. apply (IHsel a); assumption.
    + intros Hnone.
      assert (Hm' : forall k, is_Some (m' !! k) -> k ∉ ids ->
                              activeCharacterId s0 <> Some k).
      { intros k Hk Hout. apply Hnone; [|exact Hout].
        rewrite lookup_insert_ne; [exact Hk|].
        intros ->. rewrite Hi in Hk. destruct Hk as [y Hy]. discriminate. }
      destruct (IHkeep Hm') as [H1 H2].
      unfold removeVisit. destruct (decide (i ∈ ids)) as [Hin|Hout]; [auto|].
      destruct (decide (activeCharacterId s0 = Some i)) as [Heq|Hne]; [|auto].
      exfalso. apply (Hnone i); [|exact Hout|exact Heq].
      rewrite lookup_insert_eq. eexists; reflexivity.
Qed.

End Registry.

Lemma removed_id_not_current (rid : string) (s : App.State) :
  rid ∉ SceneViewer.currentIds (App.characters (App.handleRemoveCharacter rid s)).
Proof.
  unfold SceneViewer.currentIds, App.handleRemoveCharacter. simpl.
  rewrite elem_of_list_to_set. intros Hin. apply list_elem_of_In in Hin.
  apply in_map_iff in Hin as (c & Hc & Hin).
  apply List.filter_In in Hin as [_ Hf].
  rewrite Hc, String.eqb_refl in Hf. discriminate.
Qed.

(** C4. Removing a character whose entity is registered and which is the
    current selection clears the selection: once the character has left the
    list and the registry has been reconciled, the entity is gone, the active
    character id is none, the selection target is none, and the target lookup
    finds nothing. *)
Theorem removing_selected_character_clears_selection
  (rid : string) (entity : SceneViewer.Entity)
  (s : App.State) (v : SceneViewer.State) :
  SceneViewer.characterEntitiesMap v !! rid = Some entity ->
  SceneViewer.selectedTarget v = Some character ->
  SceneViewer.activeCharacterId v = Some rid ->
  let s' := App.handleRemoveCharacter rid s in
  let v' := fst (SceneViewer.characterEffect (App.characters s') v) in
  SceneViewer.activeCharacterId v' = None
  /\ SceneViewer.selectedTarget v' = None
  /\ SceneViewer.characterEntitiesMap v' !! rid = None
  /\ SceneViewer.getTargetEntity v' = None.
Proof.
  intros Hlive Hsel Hact s' v'.
  destruct (removalDone_fold (SceneViewer.currentIds (App.characters s')) v
              (SceneViewer.characterEntitiesMap v)) as (Hmap & Hclear & _).
  pose proof (removed_id_not_current rid s) as Hout.
  destruct (Hclear rid Hact (mk_is_Some _ _ Hlive) Hout) as [H1 H2].
  specialize (H2 Hsel). specialize (Hmap rid (mk_is_Some _ _ Hlive) Hout).
  unfold v', SceneViewer.characterEffect, SceneViewer.removeDeleted.
  cbn [fst]. repeat split; try assumption.
  unfold SceneViewer.getTargetEntity. rewrite H2. reflexivity.
Qed.

Lemma removing_selected_character_clears_selection_witness :
  let hero := mkCharacter "ab12cd34" T2d "data:image/png;base64,iVBOR" "hero.png" in
  let s := App.readerOnloadend (App.mkFile "hero.png" "image/png")
             "ab12cd34" "data:image/png;base64,iVBOR" App.initial in
  let v := SceneViewer.textureReady hero SceneViewer.initial in
  let s' := App.handleRemoveCharacter "ab12cd34" s in
  let v' := fst (SceneViewer.characterEffect (App.characters s') v) in
  SceneViewer.activeCharacterId v' = None
  /\ SceneViewer.selectedTarget v' = None
  /\ SceneViewer.characterEntitiesMap v' !! "ab12cd34"%string = None
  /\ SceneViewer.getTargetEntity v' = None.
Proof.
  eapply (removing_selected_character_clears_selection "ab12cd34").
  - apply lookup_insert_eq.
  - reflexivity.
  - reflexivity.
Defined.

(** The reconciliation only visits registered entities: a character that is
    selected in the inspector list while its asset is still loading has no
    entity, and removing it leaves the selection as it is. *)
Remark removing_unloaded_character_keeps_selection
  (rid : string) (s : App.State) (v : SceneViewer.State) :
  SceneViewer.characterEntitiesMap v !! rid = None ->
  SceneViewer.activeCharacterId v = Some rid ->
  let s' := App.handleRemoveCharacter rid s in
  let v' := fst (SceneViewer.characterEffect (App.characters s') v) in
  SceneViewer.activeCharacterId v' = Some rid
  /\ SceneViewer.selectedTarget v' = SceneViewer.selectedTarget v.
Proof.
  intros Hnone Hact s' v'.
  destruct (removalDone_fold (SceneViewer.currentIds (App.characters s')) v
              (SceneViewer.characterEntitiesMap v)) as (_ & _ & Hkeep).
  destruct Hkeep as [H1 H2].
  - intros k [y Hk] _ Heq. rewrite Hact in Heq. injection Heq as ->.
    rewrite Hnone in Hk. discriminate.
  - unfold v', SceneViewer.characterEffect, SceneViewer.removeDeleted. cbn [fst].
    rewrite H1, H2. auto.
Qed.

(** ** The orbit camera (SceneViewer.tsx) *)

Section Orbit.
Import pc SceneViewer.
Local Open Scope R_scope.

Lemma clamp_range (value lo hi : R) :
  lo <= hi -> lo <= clamp value lo hi <= hi.
Proof.
  intros H. unfold clamp.
  destruct (Rle_dec hi value); [lra|].
  destruct (Rle_dec value lo); lra.
Qed.

Lemma elevationDivisor_nonzero (r : R) : elevationDivisor r <> 0.
Proof.
  unfold elevationDivisor, orNum. destruct (Req_dec_T r 0); lra.
Qed.

Lemma divide_nonzero (x y : R) : y <> 0 -> divide x y = Some (x / y).
Proof.
  intros Hy. unfold divide. destruct (Req_dec_T y 0); [contradiction|reflexivity].
Qed.

(** The derivation always yields parameters. *)
Lemma orbitParamsFrom_defined (camPos targetPos : Vec3) :
  orbitParamsFrom camPos targetPos
  = Some (mkOrbitParams
            (atan2 (vx (sub camPos targetPos)) (vz (sub camPos targetPos))
             * RAD_TO_DEG)
            (asin (vy (sub camPos targetPos)
                   / elevationDivisor (length (sub camPos targetPos)))
             * RAD_TO_DEG)
            (length (sub camPos targetPos)) targetPos).
Proof.
  unfold orbitParamsFrom.
  rewrite (divide_nonzero _ _ (elevationDivisor_nonzero _)). reflexivity.
Qed.

Lemma startOrbit_defined (targetPos : Vec3) (s : State) :
  exists p,
    orbitParamsFrom (cameraPosition (cameraEntity s)) targetPos = Some p
    /\ startOrbit targetPos s = set_orbitParamsRef p (set_isOrbitingRef true s).
Proof.
  unfold startOrbit. cbv zeta.
  change (cameraEntity (set_isOrbitingRef true s)) with (cameraEntity s).
  rewrite orbitParamsFrom_defined. eexists. split; reflexivity.
Qed.

Lemma startOrbit_frame (targetPos : Vec3) (s : State) :
  isEditMode (startOrbit targetPos s) = isEditMode s
  /\ isFreeLookingRef (startOrbit targetPos s) = isFreeLookingRef s
  /\ isOrbitingRef (startOrbit targetPos s) = true
  /\ cameraEntity (startOrbit targetPos s) = cameraEntity s
  /\ getTargetEntity (startOrbit targetPos s) = getTargetEntity s
  /\ radius (orbitParamsRef (startOrbit targetPos s))
     = length (sub (cameraPosition (cameraEntity s)) targetPos)
  /\ targetPivot (orbitParamsRef (startOrbit targetPos s)) = targetPos.
Proof.
  destruct (startOrbit_defined targetPos s) as (p & Hp & ->).
  rewrite orbitParamsFrom_defined in Hp. injection Hp as <-.
  repeat split.
Qed.

Lemma background_press (down : MouseEvent) (forward : Vec3) (s : State)
  (target : Entity) :
  isEditMode s = true -> leftButton down = true ->
  getTargetEntity s = Some target ->
  onMouseDown down forward (mkHitTest None None) s
  = startOrbit (position target) s.
Proof.
  intros He Hl Ht. unfold onMouseDown, mouseDownSelect.
  rewrite He, Hl. cbn [negb hitAxis hitCharacterId JS.truthyOpt].
  rewrite Ht. reflexivity.
Qed.

Lemma length_zero (v : Vec3) : length v = 0 -> v = vzero.
Proof.
  unfold length, dot. intros H.
  assert (Hsq : vx v * vx v + vy v * vy v + vz v * vz v = 0).
  { apply sqrt_eq_0; [nra|exact H]. }
  destruct v as [x y z]; simpl in *. unfold vzero.
  assert (x = 0) by nra. assert (y = 0) by nra. assert (z = 0) by nra.
  subst. reflexivity.
Qed.

Lemma asin_degrees (x : R) : -90 <= asin x * RAD_TO_DEG <= 90.
Proof.
  pose proof (asin_bound x) as [H1 H2]. pose proof PI_RGT_0 as Hpi.
  unfold RAD_TO_DEG.
  replace (-90) with (- (PI / 2) * (180 / PI)) by (field; lra).
  replace 90 with (PI / 2 * (180 / PI)) by (field; lra).
  assert (Hk : 0 <= 180 / PI) by (apply Rlt_le, Rdiv_lt_0_compat; lra).
  split; apply Rmult_le_compat_r; assumption.
Qed.

(** The quotient the elevation takes the arc sine of lies within
    [-1, 1]. *)
Lemma elevation_quotient_range (v : Vec3) :
  -1 <= vy v / elevationDivisor (length v) <= 1.
Proof.
  unfold elevationDivisor, orNum.
  destruct (Req_dec_T (length v) 0) as [Hz|Hnz].
  - rewrite (length_zero v Hz). cbn [vy vzero].
    replace (0 / 0.001) with 0 by lra. lra.
  - assert (Hpos : 0 < length v).
    { pose proof (sqrt_pos (dot v v)) as H. unfold length in *. lra. }
    assert (Hsq : length v * length v = dot v v).
    { unfold length. apply sqrt_sqrt. destruct v; unfold dot; cbn [vx vy vz]; nra. }
    assert (Hvy : - length v <= vy v <= length v).
    { destruct v as [x y z]. unfold dot in Hsq. cbn [vx vy vz] in *.
      set (l := length {| vx := x; vy := y; vz := z |}) in *.
      split; nra. }
    assert (Hq : vy v / length v * length v = vy v) by (field; lra).
    set (q := vy v / length v) in *.
    split; nra.
Qed.

(** The angle about Y that the engine reads back from a quaternion lies
    within [-90, 90] degrees. *)
Lemma getEulerAngles_y_range (q : Quat) : -90 <= vy (getEulerAngles q) <= 90.
Proof.
  pose proof PI_RGT_0 as Hpi.
  assert (Hq : PI / 2 * RAD_TO_DEG = 90) by (unfold RAD_TO_DEG; field; lra).
  assert (Hn : - PI / 2 * RAD_TO_DEG = -90) by (unfold RAD_TO_DEG; field; lra).
  unfold getEulerAngles, mulScalar.
  destruct (Rle_dec _ (-0.99999)); [cbn [vx vy vz]; lra|].
  destruct (Rle_dec 0.99999 _); [cbn [vx vy vz]; lra|].
  cbn [vx vy vz]. apply asin_degrees.
Qed.

(** So what is read back is not always what was set: an angle about Y
    beyond a quarter turn never comes back as it was set. *)
Remark euler_readback_can_differ (e : Entity) :
  90 < vy (eulerAngles e) -> getLocalEulerAngles e <> eulerAngles e.
Proof.
  intros Hy Heq. pose proof (getEulerAngles_y_range (getRotation e)) as [_ H].
  unfold getLocalEulerAngles in Heq. rewrite Heq in H. lra.
Qed.

(** In the orbit branch the three mode flags stay as they are. *)
Lemma mouseOrbit_flags (event : MouseEvent) (s : State) :
  isEditMode (mouseOrbit event s) = isEditMode s
  /\ isFreeLookingRef (mouseOrbit event s) = isFreeLookingRef s
  /\ isOrbitingRef (mouseOrbit event s) = isOrbitingRef s.
Proof. unfold mouseOrbit. simpl. auto. Qed.

Lemma onMouseMove_orbiting (event : MouseEvent) (s : State) :
  orbiting s -> onMouseMove false event s = mouseOrbit event s.
Proof.
  intros (He & Hf & Ho). unfold onMouseMove. rewrite He, Hf, Ho. reflexivity.
Qed.

Lemma runMoves_orbiting (events : list MouseEvent) (s : State) :
  orbiting s -> orbiting (System.runMoves events s).
Proof.
  unfold System.runMoves. revert s.
  induction events as [|e events IH]; intros s Hs; cbn [List.fold_left];
    [exact Hs|].
  apply IH. rewrite (onMouseMove_orbiting e s Hs).
  destruct Hs as (He & Hf & Ho).
  destruct (mouseOrbit_flags e s) as (H1 & H2 & H3).
  unfold orbiting. rewrite H1, H2, H3. auto.
Qed.

Lemma runMoves_snoc (events : list MouseEvent) (e : MouseEvent) (s : State) :
  System.runMoves (events ++ [e]) s
  = onMouseMove false e (System.runMoves events s).
Proof. unfold System.runMoves. rewrite List.fold_left_app. reflexivity. Qed.

Lemma cos_elevation_positive (b : R) :
  -89 <= b <= 89 -> 0 < cos (b * DEG_TO_RAD).
Proof.
  intros Hb. pose proof PI_RGT_0 as Hpi. unfold DEG_TO_RAD.
  apply cos_gt_0; nra.
Qed.

(** The frame of [lookAt] from a point on the orbit sphere: its up axis
    has the cosine of the elevation as vertical component. *)
Lemma lookAtUp_orbit (p : OrbitParams) :
  0 < radius p ->
  0 < cos (beta p * DEG_TO_RAD) ->
  vy (lookAtUp (add (targetPivot p) (orbitOffset p)) (targetPivot p))
  = cos (beta p * DEG_TO_RAD).
Proof.
  intros Hr Hc.
  set (a := alpha p * DEG_TO_RAD). set (b := beta p * DEG_TO_RAD) in *.
  assert (Hsub : sub (add (targetPivot p) (orbitOffset p)) (targetPivot p)
                 = mkVec3 (radius p * cos b * sin a) (radius p * sin b)
                          (radius p * cos b * cos a)).
  { unfold sub, add, orbitOffset. simpl. fold a b. f_equal; ring. }
  unfold lookAtUp. rewrite Hsub.
  pose proof (sin2_cos2 a) as Ha. pose proof (sin2_cos2 b) as Hb.
  unfold Rsqr in Ha, Hb.
  assert (Hz : normalize (mkVec3 (radius p * cos b * sin a) (radius p * sin b)
                                 (radius p * cos b * cos a))
               = mkVec3 (cos b * sin a) (sin b) (cos b * cos a)).
  { unfold normalize, dot. simpl.
    assert (Hsq : radius p * cos b * sin a * (radius p * cos b * sin a)
                  + radius p * sin b * (radius p * sin b)
                  + radius p * cos b * cos a * (radius p * cos b * cos a)
                  = radius p * radius p).
    { replace (radius p * cos b * sin a * (radius p * cos b * sin a)
               + radius p * sin b * (radius p * sin b)
               + radius p * cos b * cos a * (radius p * cos b * cos a))
        with (radius p * radius p
              * ((sin b * sin b + cos b * cos b)
                 + cos b * cos b * ((sin a * sin a + cos a * cos a) - 1)))
        by ring.
      rewrite Ha, Hb. ring. }
    rewrite Hsq. destruct (Rlt_dec 0 (radius p * radius p)) as [_|Hn]; [|nra].
    rewrite sqrt_square by lra. unfold mulScalar. simpl.
    f_equal; field; lra. }
  rewrite Hz.
  assert (Hy : normalize UP = UP).
  { unfold normalize, UP, dot. simpl.
    replace (0 * 0 + 1 * 1 + 0 * 0) with 1 by ring.
    destruct (Rlt_dec 0 1) as [_|Hn]; [|lra].
    rewrite sqrt_1. unfold mulScalar. simpl. f_equal; field. }
  rewrite Hy.
  assert (Hx : normalize (cross UP (mkVec3 (cos b * sin a) (sin b) (cos b * cos a)))
               = mkVec3 (cos a) 0 (- sin a)).
  { unfold cross, UP. simpl. unfold normalize, dot. simpl.
    assert (Hsq : (1 * (cos b * cos a) - sin b * 0) * (1 * (cos b * cos a) - sin b * 0)
                  + (0 * (cos b * sin a) - cos b * cos a * 0)
                    * (0 * (cos b * sin a) - cos b * cos a * 0)
                  + (0 * sin b - cos b * sin a * 1) * (0 * sin b - cos b * sin a * 1)
                  = cos b * cos b).
    { replace ((1 * (cos b * cos a) - sin b * 0) * (1 * (cos b * cos a) - sin b * 0)
               + (0 * (cos b * sin a) - cos b * cos a * 0)
                 * (0 * (cos b * sin a) - cos b * cos a * 0)
               + (0 * sin b - cos b * sin a * 1) * (0 * sin b - cos b * sin a * 1))
        with (cos b * cos b * (sin a * sin a + cos a * cos a)) by ring.
      rewrite Ha. ring. }
    rewrite Hsq. destruct (Rlt_dec 0 (cos b * cos b)) as [_|Hn]; [|nra].
    rewrite sqrt_square by lra. unfold mulScalar. simpl.
    f_equal; field; lra. }
  rewrite Hx. unfold cross. simpl.
  replace (cos b * cos a * cos a - - sin a * (cos b * sin a))
    with (cos b * (sin a * sin a + cos a * cos a)) by ring.
  rewrite Ha. ring.
Qed.

End Orbit.

(** C9, as the code has it.  When orbit parameters are derived, by
    [syncOrbitParamsToCamera] or by the orbit seed of a press on the
    background, the division of the elevation computation always has a
    result: the divisor is the radius, or the epsilon 0.001 when the radius
    is zero; the quotient lies within [-1, 1].  For a selected target at zero distance from the camera the
    quotient is dy / 0.001 and the elevation comes out as 0.  The radius that
    is stored is the distance itself, 0: it does not default to the
    epsilon. *)
Theorem zero_distance_elevation_divides_by_epsilon
  (s : SceneViewer.State) (target : SceneViewer.Entity)
  (event : SceneViewer.MouseEvent) (forward : pc.Vec3) :
  SceneViewer.getTargetEntity s = Some target ->
  pc.length (pc.sub (SceneViewer.cameraPosition (SceneViewer.cameraEntity s))
                    (SceneViewer.position target)) = 0%R ->
  SceneViewer.isEditMode s = true ->
  SceneViewer.leftButton event = true ->
  let vec := pc.sub (SceneViewer.cameraPosition (SceneViewer.cameraEntity s))
                    (SceneViewer.position target) in
  let synced := SceneViewer.orbitParamsRef (SceneViewer.syncOrbitParamsToCamera s) in
  let seeded := SceneViewer.orbitParamsRef
                  (SceneViewer.onMouseDown event forward
                     (SceneViewer.mkHitTest None None) s) in
  (forall camPos targetPos : pc.Vec3,
     exists (p : SceneViewer.OrbitParams) (quotient : R),
       SceneViewer.orbitParamsFrom camPos targetPos = Some p
       /\ pc.divide (pc.vy (pc.sub camPos targetPos))
            (SceneViewer.elevationDivisor (pc.length (pc.sub camPos targetPos)))
          = Some quotient
       /\ (-1 <= quotient <= 1)%R
       /\ SceneViewer.beta p = (asin quotient * pc.RAD_TO_DEG)%R)
  /\ pc.divide (pc.vy vec) (SceneViewer.elevationDivisor (pc.length vec))
     = Some (pc.vy vec / 0.001)%R
  /\ exists p : SceneViewer.OrbitParams,
       SceneViewer.orbitParamsFrom
         (SceneViewer.cameraPosition (SceneViewer.cameraEntity s))
         (SceneViewer.position target) = Some p
       /\ synced = p
       /\ seeded = p
       /\ SceneViewer.beta p = (asin (pc.vy vec / 0.001) * pc.RAD_TO_DEG)%R
       /\ SceneViewer.beta p = 0%R
       /\ SceneViewer.radius p = 0%R
       /\ SceneViewer.targetPivot p = SceneViewer.position target.
Proof.
  intros Ht Hzero He Hl vec synced seeded.
  assert (Hdiv : SceneViewer.elevationDivisor (pc.length vec) = 0.001%R).
  { fold vec in Hzero. rewrite Hzero.
    unfold SceneViewer.elevationDivisor, pc.orNum.
    destruct (Req_dec_T 0 0) as [_|Hn]; [reflexivity|contradiction]. }
  pose proof (orbitParamsFrom_defined
                (SceneViewer.cameraPosition (SceneViewer.cameraEntity s))
                (SceneViewer.position target)) as Hp.
  fold vec in Hp. rewrite Hdiv in Hp.
  assert (Hsync : synced = SceneViewer.mkOrbitParams
                             (pc.atan2 (pc.vx vec) (pc.vz vec) * pc.RAD_TO_DEG)
                             (asin (pc.vy vec / 0.001) * pc.RAD_TO_DEG)
                             (pc.length vec) (SceneViewer.position target)).
  { unfold synced, SceneViewer.syncOrbitParamsToCamera. rewrite Ht, Hp. reflexivity. }
  assert (Hseed : seeded = SceneViewer.mkOrbitParams
                             (pc.atan2 (pc.vx vec) (pc.vz vec) * pc.RAD_TO_DEG)
                             (asin (pc.vy vec / 0.001) * pc.RAD_TO_DEG)
                             (pc.length vec) (SceneViewer.position target)).
  { unfold seeded, SceneViewer.onMouseDown. rewrite He, Hl.
    cbn [negb SceneViewer.hitAxis]. unfold SceneViewer.mouseDownSelect.
    cbn [SceneViewer.hitCharacterId JS.truthyOpt]. rewrite Ht.
    unfold SceneViewer.startOrbit. cbv zeta.
    change (SceneViewer.cameraEntity (SceneViewer.set_isOrbitingRef true s))
      with (SceneViewer.cameraEntity s).
    rewrite Hp. reflexivity. }
  assert (Hnull : (asin (pc.vy vec / 0.001) * pc.RAD_TO_DEG)%R = 0%R).
  { fold vec in Hzero. rewrite (length_zero _ Hzero). simpl.
    replace (0 / 0.001)%R with 0%R by lra. rewrite asin_0. lra. }
  split.
  { intros camPos targetPos. rewrite orbitParamsFrom_defined.
    eexists _, _. split; [reflexivity|].
    split; [apply divide_nonzero, elevationDivisor_nonzero|].
    split; [apply elevation_quotient_range|reflexivity]. }
  split.
  { rewrite Hdiv. apply divide_nonzero. lra. }
  eexists. split; [exact Hp|]. split; [exact Hsync|]. split; [exact Hseed|].
  cbn [SceneViewer.beta SceneViewer.radius SceneViewer.targetPivot].
  split; [reflexivity|]. split; [exact Hnull|]. split; [|reflexivity].
  fold vec in Hzero. exact Hzero.
Qed.

(** The orbit seed of a press on a character derives its parameters in the
    same way, from the character that was hit. *)
Remark character_press_seed
  (s : SceneViewer.State) (cid : string) (clicked : SceneViewer.Entity) :
  JS.truthy cid = true ->
  SceneViewer.characterEntitiesMap s !! cid = Some clicked ->
  Some (SceneViewer.orbitParamsRef
          (SceneViewer.mouseDownSelect (SceneViewer.mkHitTest None (Some cid)) s))
  = SceneViewer.orbitParamsFrom
      (SceneViewer.cameraPosition (SceneViewer.cameraEntity s))
      (SceneViewer.position clicked).
Proof.
  intros Hcid Hm. unfold SceneViewer.mouseDownSelect.
  cbn [SceneViewer.hitCharacterId JS.truthyOpt]. rewrite Hcid, Hm.
  destruct (startOrbit_defined (SceneViewer.position clicked)
              (SceneViewer.set_activeCharacterId (Some cid)
                 (SceneViewer.set_selectedTarget (Some character) s)))
    as (p & Hp & Hs).
  rewrite Hs. cbn [SceneViewer.orbitParamsRef SceneViewer.set_orbitParamsRef].
  rewrite <- Hp. reflexivity.
Qed.

(** The radius kept in the orbit parameters is the distance itself: at zero
    distance it stays zero, and only the divisor falls back to the
    epsilon. *)
Remark zero_distance_radius_kept (camPos targetPos : pc.Vec3) :
  SceneViewer.radius <$> SceneViewer.orbitParamsFrom camPos targetPos
  = Some (pc.length (pc.sub camPos targetPos)).
Proof. rewrite orbitParamsFrom_defined. reflexivity. Qed.

(** C5. After every pointer move processed while orbiting, the elevation
    lies in [-89, 89] degrees whatever the deltas.  The camera then stands on
    the orbit sphere off the vertical through the pivot (the cosine of the
    elevation is positive) and looks at the pivot, and for a positive radius
    the up axis of its frame has that positive cosine as vertical component:
    it never changes sign. *)
Theorem orbit_elevation_clamped
  (event : SceneViewer.MouseEvent) (events : list SceneViewer.MouseEvent)
  (s : SceneViewer.State) :
  SceneViewer.isEditMode s = true ->
  SceneViewer.isFreeLookingRef s = false ->
  SceneViewer.isOrbitingRef s = true ->
  let s' := System.runMoves (event :: events) s in
  let p := SceneViewer.orbitParamsRef s' in
  (-89 <= SceneViewer.beta p <= 89)%R
  /\ (0 < cos (SceneViewer.beta p * pc.DEG_TO_RAD))%R
  /\ SceneViewer.cameraEntity s'
     = SceneViewer.mkCamera
         (pc.add (SceneViewer.targetPivot p) (SceneViewer.orbitOffset p))
         (SceneViewer.LookAt (SceneViewer.targetPivot p))
  /\ ((0 < SceneViewer.radius p)%R ->
      pc.vy (pc.lookAtUp (SceneViewer.cameraPosition (SceneViewer.cameraEntity s'))
                         (SceneViewer.targetPivot p))
      = cos (SceneViewer.beta p * pc.DEG_TO_RAD)).
Proof.
  intros He Hf Ho s' p.
  destruct (@exists_last _ (event :: events)) as (prefix & last & Hsplit);
    [discriminate|].
  assert (Hs' : s' = SceneViewer.mouseOrbit last (System.runMoves prefix s)).
  { unfold s'. rewrite Hsplit, runMoves_snoc.
    apply onMouseMove_orbiting, runMoves_orbiting. repeat split; assumption. }
  assert (Hrange : (-89 <= SceneViewer.beta p <= 89)%R).
  { unfold p. rewrite Hs'. unfold SceneViewer.mouseOrbit.
    cbn [SceneViewer.orbitParamsRef SceneViewer.set_cameraEntity
         SceneViewer.set_orbitParamsRef SceneViewer.beta].
    apply clamp_range. lra. }
  assert (Hcam : SceneViewer.cameraEntity s'
     = SceneViewer.mkCamera
         (pc.add (SceneViewer.targetPivot p) (SceneViewer.orbitOffset p))
         (SceneViewer.LookAt (SceneViewer.targetPivot p))).
  { unfold p. rewrite Hs'. reflexivity. }
  split; [exact Hrange|].
  split; [apply cos_elevation_positive, Hrange|].
  split; [exact Hcam|].
  intros Hr. rewrite Hcam. cbn [SceneViewer.cameraPosition].
  apply lookAtUp_orbit; [exact Hr|apply cos_elevation_positive, Hrange].
Qed.

(** The clamp acts on pointer moves only: the elevation an orbit is seeded
    with from straight above the target is 90 degrees until the first
    move. *)
Remark orbit_seed_from_above :
  SceneViewer.beta <$> SceneViewer.orbitParamsFrom (pc.mkVec3 0 1 0) pc.vzero
  = Some 90%R.
Proof.
  rewrite orbitParamsFrom_defined. cbn [fmap option_fmap option_map]. f_equal.
  unfold SceneViewer.elevationDivisor, pc.orNum,
    pc.length, pc.dot, pc.sub, pc.vzero, pc.RAD_TO_DEG.
  cbn [SceneViewer.beta pc.vx pc.vy pc.vz].
  replace ((0 - 0) * (0 - 0) + (1 - 0) * (1 - 0) + (0 - 0) * (0 - 0))%R
    with 1%R by ring.
  rewrite sqrt_1. destruct (Req_dec_T 1 0) as [H|_]; [lra|].
  replace ((1 - 0) / 1)%R with 1%R by field.
  rewrite asin_1. pose proof PI_RGT_0. field. lra.
Qed.

Lemma orbit_elevation_clamped_witness :
  let s := SceneViewer.set_isOrbitingRef true
             (SceneViewer.set_isEditMode true SceneViewer.initial) in
  let far := SceneViewer.mkMouseEvent 0 100000 0 false
               (pc.mkRay pc.vzero pc.UP) in
  let s' := System.runMoves [far; far] s in
  let p := SceneViewer.orbitParamsRef s' in
  (-89 <= SceneViewer.beta p <= 89)%R
  /\ (0 < cos (SceneViewer.beta p * pc.DEG_TO_RAD))%R
  /\ SceneViewer.cameraEntity s'
     = SceneViewer.mkCamera
         (pc.add (SceneViewer.targetPivot p) (SceneViewer.orbitOffset p))
         (SceneViewer.LookAt (SceneViewer.targetPivot p))
  /\ ((0 < SceneViewer.radius p)%R ->
      pc.vy (pc.lookAtUp (SceneViewer.cameraPosition (SceneViewer.cameraEntity s'))
                         (SceneViewer.targetPivot p))
      = cos (SceneViewer.beta p * pc.DEG_TO_RAD)).
Proof.
  apply (orbit_elevation_clamped
           (SceneViewer.mkMouseEvent 0 100000 0 false (pc.mkRay pc.vzero pc.UP))
           [SceneViewer.mkMouseEvent 0 100000 0 false (pc.mkRay pc.vzero pc.UP)]
           (SceneViewer.set_isOrbitingRef true
              (SceneViewer.set_isEditMode true SceneViewer.initial)));
    reflexivity.
Defined.

(** ** Gizmo drags (SceneViewer.tsx) *)

Section Drag.
Import pc SceneViewer.
Local Open Scope R_scope.

Lemma gizmoAxis_mode (m : GizmoMode) (a : Axis) :
  JS.substring (gizmoAxis m a) 0 1 = modeLetter m.
Proof. destruct m, a; reflexivity. Qed.

Lemma gizmoAxis_dir (m : GizmoMode) (a : Axis) :
  JS.substringFrom (gizmoAxis m a) 1 = axisLetter a.
Proof. destruct m, a; reflexivity. Qed.

Lemma gizmoAxis_truthy (m : GizmoMode) (a : Axis) :
  JS.truthy (gizmoAxis m a) = true.
Proof. destruct m, a; reflexivity. Qed.

Lemma axisUnit_letter (a : Axis) : axisUnit (axisLetter a) = axisVector a.
Proof. destruct a; reflexivity. Qed.

Lemma mulOnAxis_letter (a : Axis) (v : Vec3) (k : R) :
  mulOnAxis (axisLetter a) v k = setComponent a (component a v * k) v.
Proof. destruct a; reflexivity. Qed.

Lemma dragStartValue_mode (m : GizmoMode) (a : Axis) (t : Entity) (old : Vec3) :
  dragStartValue (gizmoAxis m a) t old
  = match m with
    | translate => position t
    | rotate => getLocalEulerAngles t
    | scale => localScale t
    end.
Proof. destruct m, a; reflexivity. Qed.

(** *** The target under [updateTarget] *)

Lemma getTarget_updateTarget (f : Entity -> Entity) (s : State) :
  getTargetEntity (updateTarget f s) = f <$> getTargetEntity s.
Proof.
  unfold getTargetEntity, updateTarget.
  destruct (selectedTarget s) as [[]|] eqn:Hsel; [| |rewrite Hsel; reflexivity].
  - simpl. rewrite Hsel. reflexivity.
  - destruct (activeCharacterId s) as [cid|] eqn:Hact.
    + destruct (JS.truthy cid) eqn:Ht; simpl; rewrite Hsel, Hact, Ht.
      * apply lookup_alter_eq.
      * reflexivity.
    + rewrite Hsel, Hact. reflexivity.
Qed.

(** Everything but the entities is left alone by [updateTarget]. *)
Lemma updateTarget_frame (f : Entity -> Entity) (s : State) :
  isEditMode (updateTarget f s) = isEditMode s
  /\ isFreeLookingRef (updateTarget f s) = isFreeLookingRef s
  /\ isOrbitingRef (updateTarget f s) = isOrbitingRef s
  /\ draggedAxisRef (updateTarget f s) = draggedAxisRef s
  /\ dragStartValueRef (updateTarget f s) = dragStartValueRef s
  /\ gizmoRootRef (updateTarget f s) = gizmoRootRef s.
Proof.
  unfold updateTarget.
  destruct (selectedTarget s) as [[]|]; [simpl; tauto| |tauto].
  destruct (activeCharacterId s) as [cid|]; [|tauto].
  destruct (JS.truthy cid); simpl; tauto.
Qed.

(** *** One pointer move of a drag *)

Lemma onMouseMove_dragging (m : GizmoMode) (a : Axis) (start : Vec3)
  (g : GizmoRoot) (event : MouseEvent) (s : State) :
  dragging (gizmoAxis m a) start s ->
  gizmoRootRef s = Some g ->
  let d := dragProjectedDelta g (axisLetter a) event s in
  let s' := onMouseMove false event s in
  getTargetEntity s' = dragUpdate m a start (gizmoRotation g) d <$> getTargetEntity s
  /\ dragging (gizmoAxis m a) start s'
  /\ gizmoRootRef s' = Some g
  /\ (m = scale ->
      tScale (transforms s') = mulOnAxis (axisLetter a) start (1 + d * 1)).
Proof.
  intros (He & Hf & Ho & Hax & Hst & Hg & [t Ht]) Hgz d s'.
  assert (Hs' : s' = mouseDrag (gizmoAxis m a) g event s).
  { unfold s', onMouseMove. rewrite He, Hf, Ho, Hax, Hgz. simpl.
    rewrite gizmoAxis_truthy. reflexivity. }
  unfold mouseDrag in Hs'.
  rewrite gizmoAxis_mode, gizmoAxis_dir, Ht in Hs'.
  unfold dragAxisVec in Hs'. rewrite axisUnit_letter, Hst in Hs'.
  fold d in Hs'.
  assert (Hshape : exists T,
             s' = set_transforms T
                    (updateTarget (dragUpdate m a start (gizmoRotation g) d) s)
             /\ (m = scale -> tScale T = mulOnAxis (axisLetter a) start (1 + d * 1))).
  { destruct m; simpl in Hs'; eexists; (split; [exact Hs'|]);
      intros Hm; try discriminate Hm; reflexivity. }
  destruct Hshape as (T & -> & HT).
  destruct (updateTarget_frame (dragUpdate m a start (gizmoRotation g) d) s)
    as (F1 & F2 & F3 & F4 & F5 & F6).
  assert (Htarget : getTargetEntity
                      (set_transforms T
                         (updateTarget (dragUpdate m a start (gizmoRotation g) d) s))
                    = dragUpdate m a start (gizmoRotation g) d <$> getTargetEntity s).
  { rewrite <- getTarget_updateTarget. reflexivity. }
  split; [exact Htarget|]. split; [|split].
  - unfold dragging. rewrite Htarget, Ht. simpl.
    rewrite F1, F2, F3, F4, F5, F6, Hgz.
    repeat split; try assumption; eexists; reflexivity.
  - simpl. rewrite F6. exact Hgz.
  - exact HT.
Qed.

(** *** One frame of a drag *)

Lemma updateGizmo_dragging (tag : string) (start : Vec3) (s : State) :
  dragging tag start s ->
  dragging tag start (updateGizmo s)
  /\ getTargetEntity (updateGizmo s) = getTargetEntity s
  /\ exists g t,
       gizmoRootRef (updateGizmo s) = Some g
       /\ getTargetEntity s = Some t
       /\ gizmoRotation g = getRotation t.
Proof.
  intros (He & Hf & Ho & Hax & Hst & [g Hg] & [t Ht]).
  assert (Hsel : is_Some (selectedTarget s)).
  { unfold getTargetEntity in Ht.
    destruct (selectedTarget s); [eexists; reflexivity|discriminate]. }
  destruct Hsel as [sel Hsel].
  assert (Hupd : updateGizmo s
                 = set_gizmoRootRef
                     (Some (mkGizmoRoot (position t) (getRotation t)
                              (Rmax 0.1 (length (sub (cameraPosition (cameraEntity s))
                                                     (position t)) * 0.2))
                              (gizmoParts g))) s).
  { unfold updateGizmo. rewrite Hg, Hsel, Ht. reflexivity. }
  rewrite Hupd.
  assert (Hsame : forall r, getTargetEntity (set_gizmoRootRef r s)
                            = getTargetEntity s) by reflexivity.
  split; [|split].
  - unfold dragging. rewrite Hsame, Ht. simpl.
    repeat split; try assumption; eexists; reflexivity.
  - apply Hsame.
  - eexists _, t. repeat split. exact Ht.
Qed.

(** The billboard step turns 2D characters only, in place. *)
Lemma billboard_other (c : Vec3) (e : Entity) :
  is2DBillboard e = false -> billboard c e = e.
Proof. unfold billboard. intros ->. reflexivity. Qed.

Lemma getTarget_updateBillboards (s : State) (t : Entity) :
  getTargetEntity s = Some t ->
  exists t', getTargetEntity (updateBillboards s) = Some t'
             /\ (t' = t \/ t' = billboard (cameraPosition (cameraEntity s)) t).
Proof.
  unfold getTargetEntity, updateBillboards.
  cbn [selectedTarget activeCharacterId splatEntityRef characterEntitiesMap
       set_characterEntitiesMap].
  destruct (selectedTarget s) as [[]|]; [eauto| |discriminate].
  destruct (activeCharacterId s) as [cid|]; [|discriminate].
  destruct (JS.truthy cid); [|discriminate].
  intros Hm. rewrite lookup_fmap, Hm. simpl. eauto.
Qed.

(** What the last three steps of a frame leave alone. *)
Lemma update_after_gizmo (f : FrameInput) (u : State) :
  let s' := updateMouseLook f (updateMovement f (updateBillboards u)) in
  isEditMode s' = isEditMode u
  /\ isFreeLookingRef s' = isFreeLookingRef u
  /\ isOrbitingRef s' = isOrbitingRef u
  /\ draggedAxisRef s' = draggedAxisRef u
  /\ dragStartValueRef s' = dragStartValueRef u
  /\ gizmoRootRef s' = gizmoRootRef u
  /\ getTargetEntity s' = getTargetEntity (updateBillboards u).
Proof.
  unfold updateMouseLook, updateMovement.
  destruct (isLocked (updateBillboards u) || isEditMode (updateBillboards u));
    [destruct (nonzero (keyX f) || nonzero (keyZ f) || nonzero (keyY f))|];
    match goal with
    | |- context [if ?c then _ else _] => destruct c
    end; repeat split.
Qed.

Lemma update_dragging (tag : string) (start : Vec3) (f : FrameInput) (s : State) :
  dragging tag start s ->
  dragging tag start (update f s)
  /\ exists g t t',
       gizmoRootRef (update f s) = Some g
       /\ getTargetEntity s = Some t
       /\ gizmoRotation g = getRotation t
       /\ getTargetEntity (update f s) = Some t'
       /\ (is2DBillboard t = false -> t' = t).
Proof.
  intros Hdrag.
  destruct (updateGizmo_dragging tag start s Hdrag)
    as ((He & Hf & Ho & Hax & Hst & Hgz & _) & Htarget & (g & t & Hg & Ht & Hrot)).
  destruct (update_after_gizmo f (updateGizmo s))
    as (F1 & F2 & F3 & F4 & F5 & F6 & F7).
  fold (update f s) in F1, F2, F3, F4, F5, F6, F7.
  destruct (getTarget_updateBillboards (updateGizmo s) t) as (t' & Ht' & Hcase).
  { rewrite Htarget. exact Ht. }
  rewrite <- F7 in Ht'.
  split.
  - unfold dragging. rewrite F1, F2, F3, F4, F5, F6, Ht'.
    repeat split; try assumption. eexists; reflexivity.
  - exists g, t, t'. rewrite F6. repeat split; try assumption.
    intros Hb. destruct Hcase as [->| ->]; [reflexivity|].
    apply billboard_other, Hb.
Qed.

(** *** The press that starts a drag *)

Lemma onMouseDown_gizmo (m : GizmoMode) (a : Axis) (down : MouseEvent)
  (forward : Vec3) (hitChar : option string) (s : State)
  (t : Entity) (g : GizmoRoot) :
  isEditMode s = true ->
  isFreeLookingRef s = false ->
  isOrbitingRef s = false ->
  leftButton down = true ->
  getTargetEntity s = Some t ->
  gizmoRootRef s = Some g ->
  let s1 := onMouseDown down forward (mkHitTest (Some (gizmoAxis m a)) hitChar) s in
  dragging (gizmoAxis m a)
    match m with
    | translate => position t
    | rotate => getLocalEulerAngles t
    | scale => localScale t
    end s1
  /\ getTargetEntity s1 = Some t
  /\ gizmoRootRef s1 = Some g.
Proof.
  intros He Hf Ho Hl Ht Hg s1.
  assert (Hs1 : s1 = mouseDownGizmo (gizmoAxis m a) down forward s).
  { unfold s1, onMouseDown. rewrite He, Hl. simpl.
    rewrite gizmoAxis_truthy. reflexivity. }
  unfold mouseDownGizmo in Hs1. rewrite Ht, dragStartValue_mode in Hs1.
  assert (Htarget : getTargetEntity s1 = Some t).
  { rewrite Hs1, <- Ht. reflexivity. }
  split; [|split].
  - unfold dragging. rewrite Htarget. rewrite Hs1. simpl.
    rewrite He, Hf, Ho, Hg. repeat split; eexists; reflexivity.
  - exact Htarget.
  - rewrite Hs1. exact Hg.
Qed.

(** *** Whole drags *)

Lemma getRotation_same (t t0 : Entity) :
  eulerAngles t = eulerAngles t0 -> getRotation t = getRotation t0.
Proof. unfold getRotation. intros ->. reflexivity. Qed.

Lemma dragStep_translating (a : Axis) (t0 : Entity) (d : System.DragStep)
  (s : State) :
  translating a t0 s -> translating a t0 (System.dragStep d s).
Proof.
  intros (Hdrag & (g & Hg & Hrot) & (t & k & Ht & Hbb & Heul & Hscl & Hpos)).
  destruct d as [event|f]; cbn [System.dragStep].
  - destruct (onMouseMove_dragging translate a (position t0) g event s Hdrag Hg)
      as (Htarget & Hdrag' & Hg' & _).
    split; [exact Hdrag'|]. split; [exists g; split; assumption|].
    rewrite Htarget, Ht. simpl. rewrite Hrot.
    eexists _, _. split; [reflexivity|]. simpl. repeat split; assumption.
  - destruct (update_dragging _ _ f s Hdrag)
      as (Hdrag' & (g' & t1 & t' & Hg' & Ht1 & Hrot' & Ht' & Hsame)).
    rewrite Ht in Ht1. injection Ht1 as <-. specialize (Hsame Hbb). subst t'.
    split; [exact Hdrag'|]. split.
    + exists g'. split; [exact Hg'|]. rewrite Hrot'.
      apply getRotation_same, Heul.
    + exists t, k. repeat split; assumption.
Qed.

Lemma runDrag_translating (a : Axis) (t0 : Entity) (steps : list System.DragStep)
  (s : State) :
  translating a t0 s -> translating a t0 (System.runDrag steps s).
Proof.
  unfold System.runDrag. revert s.
  induction steps as [|d steps IH]; intros s Hs; cbn [List.fold_left];
    [exact Hs|].
  apply IH, dragStep_translating, Hs.
Qed.

Lemma dragStep_dragging (m : GizmoMode) (a : Axis) (start : Vec3)
  (d : System.DragStep) (s : State) :
  dragging (gizmoAxis m a) start s ->
  dragging (gizmoAxis m a) start (System.dragStep d s).
Proof.
  intros Hdrag. destruct d as [event|f]; cbn [System.dragStep].
  - destruct Hdrag as (He & Hf & Ho & Hax & Hst & [g Hg] & Ht).
    apply (onMouseMove_dragging m a start g event s); [|exact Hg].
    repeat split; try assumption. eexists; exact Hg.
  - apply update_dragging, Hdrag.
Qed.

Lemma runDrag_dragging (m : GizmoMode) (a : Axis) (start : Vec3)
  (steps : list System.DragStep) (s : State) :
  dragging (gizmoAxis m a) start s ->
  dragging (gizmoAxis m a) start (System.runDrag steps s).
Proof.
  unfold System.runDrag. revert s.
  induction steps as [|d steps IH]; intros s Hs; cbn [List.fold_left];
    [exact Hs|].
  apply IH, dragStep_dragging, Hs.
Qed.

(** *** Components *)

Lemma component_setComponent_same (a : Axis) (k : R) (v : Vec3) :
  component a (setComponent a k v) = k.
Proof. destruct a; reflexivity. Qed.

Lemma component_setComponent_other (a b : Axis) (k : R) (v : Vec3) :
  b <> a -> component b (setComponent a k v) = component b v.
Proof. destruct a, b; intros H; try reflexivity; contradiction. Qed.

Lemma component_along (b : Axis) (p v : Vec3) (k : R) :
  component b v = 0 -> component b (add p (mulScalar v k)) = component b p.
Proof. destruct b; simpl; intros ->; ring. Qed.

Lemma setFromEulerAngles_zero : setFromEulerAngles (mkVec3 0 0 0) = IDENTITY.
Proof.
  unfold setFromEulerAngles, IDENTITY. simpl.
  rewrite Rmult_0_l, sin_0, cos_0. f_equal; ring.
Qed.

Lemma transformVector_identity (v : Vec3) : transformVector IDENTITY v = v.
Proof.
  unfold transformVector, IDENTITY. destruct v as [x y z]. simpl.
  f_equal; ring.
Qed.

Lemma axisVector_off (a b : Axis) : b <> a -> component b (axisVector a) = 0.
Proof. destruct a, b; simpl; intros H; try reflexivity; contradiction. Qed.

End Drag.

(** C1, as the code has it.  A translate drag moves the target along the
    handle's axis as rotated by the gizmo, which carries the rotation of the
    target.  For a target that is no 2D billboard (the scene or a 3D
    character), at every point of the drag, with pointer moves and frames in
    any order, the position is the drag-start position plus a multiple of
    that rotated axis, and orientation and scale are untouched.  A position
    component off the constrained axis is equal before and after whenever the
    rotated axis has no share in it; for an unrotated target that is so for
    both of them. *)
Theorem translate_drag_moves_along_gizmo_axis
  (a : Axis) (down : SceneViewer.MouseEvent) (forward : pc.Vec3)
  (hitChar : option string) (steps : list System.DragStep)
  (s0 : SceneViewer.State) (target : SceneViewer.Entity)
  (gizmo : SceneViewer.GizmoRoot) :
  SceneViewer.isEditMode s0 = true ->
  SceneViewer.isFreeLookingRef s0 = false ->
  SceneViewer.isOrbitingRef s0 = false ->
  SceneViewer.leftButton down = true ->
  SceneViewer.getTargetEntity s0 = Some target ->
  SceneViewer.is2DBillboard target = false ->
  SceneViewer.gizmoRootRef s0 = Some gizmo ->
  SceneViewer.gizmoRotation gizmo = SceneViewer.getRotation target ->
  let s1 := SceneViewer.onMouseDown down forward
              (SceneViewer.mkHitTest
                 (Some (SceneViewer.gizmoAxis translate a)) hitChar) s0 in
  let s2 := System.runDrag steps s1 in
  let axisVec := pc.transformVector (SceneViewer.getRotation target) (axisVector a) in
  exists (target' : SceneViewer.Entity) (k : R),
    SceneViewer.getTargetEntity s2 = Some target'
    /\ SceneViewer.position target'
       = pc.add (SceneViewer.position target) (pc.mulScalar axisVec k)
    /\ SceneViewer.eulerAngles target' = SceneViewer.eulerAngles target
    /\ SceneViewer.localScale target' = SceneViewer.localScale target
    /\ (forall b : Axis,
          SceneViewer.component b axisVec = 0%R ->
          SceneViewer.component b (SceneViewer.position target')
          = SceneViewer.component b (SceneViewer.position target))
    /\ (SceneViewer.eulerAngles target = pc.mkVec3 0 0 0 ->
        forall b : Axis, b <> a ->
          SceneViewer.component b (SceneViewer.position target')
          = SceneViewer.component b (SceneViewer.position target)).
Proof.
  intros He Hf Ho Hl Ht Hbb Hg Hrot s1 s2 axisVec.
  destruct (onMouseDown_gizmo translate a down forward hitChar s0 target gizmo
              He Hf Ho Hl Ht Hg) as (Hdrag & Ht1 & Hg1).
  fold s1 in Hdrag, Ht1, Hg1.
  assert (H1 : translating a target s1).
  { split; [exact Hdrag|]. split; [exists gizmo; split; assumption|].
    exists target, 0%R. repeat split; try assumption.
    destruct (SceneViewer.position target) as [x y z].
    unfold pc.add, pc.mulScalar. simpl. f_equal; ring. }
  destruct (runDrag_translating a target steps s1 H1)
    as (_ & _ & (t' & k & Ht' & _ & Heul & Hscl & Hpos)).
  exists t', k. fold s2 in Ht'. fold axisVec in Hpos.
  split; [exact Ht'|]. split; [exact Hpos|]. split; [exact Heul|].
  split; [exact Hscl|]. split.
  - intros b Hb. rewrite Hpos. apply component_along, Hb.
  - intros Hzero b Hne. rewrite Hpos. apply component_along.
    unfold axisVec, SceneViewer.getRotation.
    rewrite Hzero, setFromEulerAngles_zero, transformVector_identity.
    apply axisVector_off, Hne.
Qed.

Section ScenarioFacts.
Import pc SceneViewer Scenario.
Local Open Scope R_scope.

Lemma loaded_target (s : State) (e : Entity) :
  selectedTarget s = Some character ->
  activeCharacterId s = Some "ab12cd34"%string ->
  characterEntitiesMap s !! "ab12cd34"%string = Some e ->
  getTargetEntity s = Some e.
Proof.
  intros Hsel Hact Hmap. unfold getTargetEntity. rewrite Hsel, Hact. exact Hmap.
Qed.

Lemma rebuildGizmo_target (s : State) :
  getTargetEntity (rebuildGizmo s) = getTargetEntity s.
Proof.
  unfold rebuildGizmo. destruct (negb (isEditMode s)); [reflexivity|].
  destruct (selectedTarget s); reflexivity.
Qed.

Lemma rebuildGizmo_gizmo (s : State) (sel : TargetType) (t : Entity) :
  isEditMode s = true ->
  selectedTarget s = Some sel ->
  getTargetEntity s = Some t ->
  gizmoRootRef (rebuildGizmo s)
  = Some (mkGizmoRoot (position t) (getRotation t) 1 (gizmoMode s)).
Proof.
  intros He Hsel Ht. unfold rebuildGizmo. rewrite He, Hsel, Ht. reflexivity.
Qed.

Lemma loaded_hero :
  getTargetEntity (set_isEditMode true (containerReady hero (Some body) initial))
  = Some body.
Proof.
  apply loaded_target; [reflexivity|reflexivity|].
  cbn. apply lookup_insert_eq.
Qed.

Lemma editing_target : getTargetEntity editing = Some body.
Proof. unfold editing. rewrite rebuildGizmo_target. exact loaded_hero. Qed.

Lemma editing_gizmo :
  gizmoRootRef editing
  = Some (mkGizmoRoot (position body) (getRotation body) 1 translate).
Proof.
  unfold editing.
  rewrite (rebuildGizmo_gizmo _ character body); [reflexivity|reflexivity|reflexivity|].
  exact loaded_hero.
Qed.

Lemma handleTransformChange_rotation (a : Axis) (value : R) (s : State)
  (t : Entity) (g : GizmoRoot) :
  getTargetEntity s = Some t ->
  gizmoRootRef s = Some g ->
  let t' := setLocalEulerAngles (setComponent a value (getLocalEulerAngles t)) t in
  let s' := handleTransformChange trotation a value s in
  getTargetEntity s' = Some t'
  /\ gizmoRootRef s'
     = Some (mkGizmoRoot (position t') (getRotation t') (gizmoScale g) (gizmoParts g))
  /\ isEditMode s' = isEditMode s
  /\ isFreeLookingRef s' = isFreeLookingRef s
  /\ isOrbitingRef s' = isOrbitingRef s.
Proof.
  intros Ht Hg t' s'. unfold s', handleTransformChange. rewrite Ht.
  set (f := fun e : Entity =>
              setLocalEulerAngles (setComponent a value (getLocalEulerAngles e)) e).
  set (s1 := set_transforms _ s).
  destruct (updateTarget_frame f s1) as (H1 & H2 & H3 & _ & _ & H6).
  assert (Htarget : getTargetEntity (updateTarget f s1) = Some t').
  { rewrite getTarget_updateTarget.
    assert (Hs1 : getTargetEntity s1 = getTargetEntity s) by reflexivity.
    rewrite Hs1, Ht. reflexivity. }
  assert (Hg1 : gizmoRootRef (updateTarget f s1) = Some g).
  { rewrite H6. exact Hg. }
  rewrite Hg1. cbn [gizmoRootRef set_gizmoRootRef isEditMode isFreeLookingRef
                    isOrbitingRef].
  split; [|split; [reflexivity|]].
  - rewrite <- Htarget. reflexivity.
  - rewrite H1, H2, H3. repeat split.
Qed.

(** An entity that has not been turned reads back as such. *)
Lemma getEulerAngles_identity : getEulerAngles IDENTITY = vzero.
Proof.
  unfold getEulerAngles, IDENTITY, mulScalar, vzero. cbn [qx qy qz qw vx vy vz].
  replace (2 * (1 * 0 - 0 * 0)) with 0 by ring.
  destruct (Rle_dec 0 (-0.99999)) as [H|_]; [lra|].
  destruct (Rle_dec 0.99999 0) as [H|_]; [lra|].
  cbn [vx vy vz].
  replace (2 * (1 * 0 + 0 * 0)) with 0 by ring.
  replace (1 - 2 * (0 * 0 + 0 * 0)) with 1 by ring.
  assert (Ha : atan2 0 1 = 0).
  { unfold atan2. destruct (Rlt_dec 0 1) as [_|H]; [|lra].
    replace (0 / 1) with 0 by field. apply atan_0. }
  rewrite Ha, asin_0. f_equal; ring.
Qed.

Lemma getLocalEulerAngles_unturned (e : Entity) :
  eulerAngles e = vzero -> getLocalEulerAngles e = vzero.
Proof.
  intros He. unfold getLocalEulerAngles, getRotation. rewrite He.
  change vzero with (mkVec3 0 0 0) at 1.
  rewrite setFromEulerAngles_zero. apply getEulerAngles_identity.
Qed.

Lemma turned_facts :
  getTargetEntity turned = Some turnedBody
  /\ (exists g, gizmoRootRef turned = Some g
                /\ gizmoRotation g = getRotation turnedBody)
  /\ isEditMode turned = true
  /\ isFreeLookingRef turned = false
  /\ isOrbitingRef turned = false.
Proof.
  destruct (handleTransformChange_rotation Y 90 editing body _
              editing_target editing_gizmo) as (H1 & H2 & H3 & H4 & H5).
  fold turned in H1, H2, H3, H4, H5.
  rewrite (getLocalEulerAngles_unturned body eq_refl) in H1, H2.
  split; [exact H1|]. split; [eexists; split; [exact H2|reflexivity]|].
  rewrite H3, H4, H5. unfold editing.
  repeat split.
Qed.

(** The quarter turn about Y takes the X axis to the negative Z axis. *)
Lemma quarter_turn_axis :
  transformVector (getRotation turnedBody) (mkVec3 1 0 0) = mkVec3 0 0 (-1).
Proof.
  unfold getRotation, turnedBody, setFromEulerAngles, transformVector. simpl.
  replace (90 * (0.5 * DEG_TO_RAD)) with (PI / 4) by (unfold DEG_TO_RAD; lra).
  rewrite Rmult_0_l, sin_0, cos_0, sin_PI4, cos_PI4.
  assert (Hh : 1 / sqrt 2 * (1 / sqrt 2) = 1 / 2).
  { pose proof (sqrt_sqrt 2 ltac:(lra)) as H2.
    pose proof sqrt2_neq_0 as Hn. field_simplify; [|exact Hn].
    rewrite pow2_sqrt by lra. reflexivity. }
  set (h := 1 / sqrt 2) in *.
  f_equal; nra.
Qed.

(** Where a pointer ray meets a plane it is not parallel to and that lies
    ahead of it. *)
Lemma intersectsRay_hit (p : Plane) (r : Ray) (point : Vec3) :
  dot (normal p) (direction r) <> 0 ->
  0 <= - (dot (normal p) (origin r) + distance p) / dot (normal p) (direction r) ->
  snd (intersectsRay p r point)
  = add (mulScalar (direction r)
           (- (dot (normal p) (origin r) + distance p)
            / dot (normal p) (direction r)))
        (origin r).
Proof.
  intros Hd Ht. unfold intersectsRay.
  destruct (Req_dec_T (dot (normal p) (direction r)) 0); [contradiction|].
  destruct (Rle_dec 0 _); [reflexivity|contradiction].
Qed.

Lemma press_hits_origin :
  snd (intersectsRay ground (pointerRay press) vzero) = mkVec3 0 0 0.
Proof.
  rewrite intersectsRay_hit;
    unfold ground, setFromPointNormal, forward, press, dot, mulScalar, add, vzero;
    simpl.
  - f_equal; field.
  - lra.
  - lra.
Qed.

Lemma pullBack_hits :
  snd (intersectsRay ground (pointerRay pullBack) vzero) = mkVec3 0 0 (-3).
Proof.
  rewrite intersectsRay_hit;
    unfold ground, setFromPointNormal, forward, pullBack, dot, mulScalar, add, vzero;
    simpl.
  - f_equal; field.
  - lra.
  - lra.
Qed.

Lemma pullRight_hits :
  snd (intersectsRay ground (pointerRay pullRight) vzero) = mkVec3 3 0 0.
Proof.
  rewrite intersectsRay_hit;
    unfold ground, setFromPointNormal, forward, pullRight, dot, mulScalar, add, vzero;
    simpl.
  - f_equal; field.
  - lra.
  - lra.
Qed.

(** The anchor a press on a gizmo part records. *)
Lemma onMouseDown_anchor (m : GizmoMode) (a : Axis) (down : MouseEvent)
  (fwd : Vec3) (hitChar : option string) (s : State) (t : Entity) :
  isEditMode s = true ->
  leftButton down = true ->
  getTargetEntity s = Some t ->
  let s1 := onMouseDown down fwd (mkHitTest (Some (gizmoAxis m a)) hitChar) s in
  let plane := setFromPointNormal (position t) (mulScalar fwd (-1)) in
  dragPlaneRef s1 = plane
  /\ dragStartPointRef s1 = snd (intersectsRay plane (pointerRay down) vzero).
Proof.
  intros He Hl Ht s1 plane.
  assert (Hs1 : s1 = mouseDownGizmo (gizmoAxis m a) down fwd s).
  { unfold s1, onMouseDown. rewrite He, Hl. simpl.
    rewrite gizmoAxis_truthy. reflexivity. }
  unfold mouseDownGizmo in Hs1. rewrite Ht in Hs1.
  rewrite Hs1. split; reflexivity.
Qed.

Lemma scaling_facts :
  getTargetEntity scaling = Some body
  /\ gizmoRootRef scaling
     = Some (mkGizmoRoot (position body) (getRotation body) 1 scale)
  /\ isEditMode scaling = true
  /\ isFreeLookingRef scaling = false
  /\ isOrbitingRef scaling = false.
Proof.
  assert (Ht : getTargetEntity (set_gizmoMode scale editing) = Some body).
  { rewrite <- editing_target. reflexivity. }
  unfold scaling. split; [rewrite rebuildGizmo_target; exact Ht|].
  split.
  - rewrite (rebuildGizmo_gizmo _ character body);
      [reflexivity|reflexivity|reflexivity|exact Ht].
  - unfold rebuildGizmo.
    assert (He : isEditMode (set_gizmoMode scale editing) = true) by reflexivity.
    assert (Hsel : selectedTarget (set_gizmoMode scale editing) = Some character)
      by reflexivity.
    rewrite He, Hsel. repeat split.
Qed.

End ScenarioFacts.

(** The scene is loaded turned by 180 degrees about Z: that half turn
    reverses the X and Y axes and keeps Z, so every handle of the scene still
    moves it along its own world axis. *)
Remark default_scene_orientation_keeps_axes (a b : Axis) :
  b <> a ->
  SceneViewer.component b
    (pc.transformVector (pc.setFromEulerAngles (pc.mkVec3 0 0 180)) (axisVector a))
  = 0%R.
Proof.
  intros Hne. unfold pc.setFromEulerAngles, pc.transformVector. simpl.
  replace (180 * (0.5 * pc.DEG_TO_RAD))%R with (PI / 2)%R
    by (unfold pc.DEG_TO_RAD; lra).
  rewrite Rmult_0_l, sin_0, cos_0, sin_PI2, cos_PI2.
  destruct a, b; simpl; try contradiction; ring.
Qed.

Lemma translate_drag_moves_along_gizmo_axis_witness :
  let s1 := SceneViewer.onMouseDown Scenario.press Scenario.forward
              (SceneViewer.mkHitTest
                 (Some (SceneViewer.gizmoAxis translate X)) None)
              Scenario.editing in
  let s2 := System.runDrag
              [System.Move Scenario.pullRight; System.Frame Scenario.idle;
               System.Move Scenario.pullBack] s1 in
  let axisVec := pc.transformVector (SceneViewer.getRotation Scenario.body)
                   (axisVector X) in
  exists (target' : SceneViewer.Entity) (k : R),
    SceneViewer.getTargetEntity s2 = Some target'
    /\ SceneViewer.position target'
       = pc.add (SceneViewer.position Scenario.body) (pc.mulScalar axisVec k)
    /\ SceneViewer.eulerAngles target' = SceneViewer.eulerAngles Scenario.body
    /\ SceneViewer.localScale target' = SceneViewer.localScale Scenario.body
    /\ (forall b : Axis,
          SceneViewer.component b axisVec = 0%R ->
          SceneViewer.component b (SceneViewer.position target')
          = SceneViewer.component b (SceneViewer.position Scenario.body))
    /\ (SceneViewer.eulerAngles Scenario.body = pc.mkVec3 0 0 0 ->
        forall b : Axis, b <> X ->
          SceneViewer.component b (SceneViewer.position target')
          = SceneViewer.component b (SceneViewer.position Scenario.body)).
Proof.
  apply (translate_drag_moves_along_gizmo_axis X Scenario.press Scenario.forward
           None
           [System.Move Scenario.pullRight; System.Frame Scenario.idle;
            System.Move Scenario.pullBack]
           Scenario.editing Scenario.body
           (SceneViewer.mkGizmoRoot (SceneViewer.position Scenario.body)
              (SceneViewer.getRotation Scenario.body) 1 translate)).
  - reflexivity.
  - reflexivity.
  - reflexivity.
  - reflexivity.
  - exact editing_target.
  - reflexivity.
  - exact editing_gizmo.
  - reflexivity.
Defined.

(** C1 as stated fails.  The character has been turned by 90 degrees about
    Y in the inspector; a drag of the X handle of the translate gizmo, seen
    from above, whose pointer ray moves from the origin to (0, 0, -3) on the
    ground, leaves the character at z = -3: the Z component, which is not
    the constrained one, differs before and after the drag. *)
Lemma translate_x_drag_of_turned_character_moves_z :
  let s1 := SceneViewer.onMouseDown Scenario.press Scenario.forward
              (SceneViewer.mkHitTest
                 (Some (SceneViewer.gizmoAxis translate X)) None)
              Scenario.turned in
  let s2 := System.runDrag [System.Move Scenario.pullBack] s1 in
  exists before after : SceneViewer.Entity,
    SceneViewer.getTargetEntity Scenario.turned = Some before
    /\ SceneViewer.getTargetEntity s2 = Some after
    /\ SceneViewer.component Z (SceneViewer.position before) = 0%R
    /\ SceneViewer.component Z (SceneViewer.position after) = (-3)%R
    /\ SceneViewer.component Z (SceneViewer.position after)
       <> SceneViewer.component Z (SceneViewer.position before).
Proof.
  intros s1 s2.
  destruct turned_facts as (Ht & (g & Hg & Hrot) & He & Hf & Ho).
  destruct (onMouseDown_gizmo translate X Scenario.press Scenario.forward None
              Scenario.turned Scenario.turnedBody g He Hf Ho eq_refl Ht Hg)
    as (Hdrag & Ht1 & Hg1).
  destruct (onMouseDown_anchor translate X Scenario.press Scenario.forward None
              Scenario.turned Scenario.turnedBody He eq_refl Ht) as (Hplane & Hstart).
  fold s1 in Hdrag, Ht1, Hg1, Hplane, Hstart.
  change (pc.setFromPointNormal (SceneViewer.position Scenario.turnedBody)
            (pc.mulScalar Scenario.forward (-1))) with Scenario.ground in Hplane, Hstart.
  rewrite press_hits_origin in Hstart.
  destruct (onMouseMove_dragging translate X _ g Scenario.pullBack s1 Hdrag Hg1)
    as (Ht2 & _).
  assert (Hd : SceneViewer.dragProjectedDelta g (axisLetter X) Scenario.pullBack s1
               = 3%R).
  { unfold SceneViewer.dragProjectedDelta, SceneViewer.dragAxisVec.
    rewrite Hplane, Hstart, pullBack_hits, Hrot, axisUnit_letter.
    change (axisVector X) with (pc.mkVec3 1 0 0).
    rewrite quarter_turn_axis. unfold pc.dot, pc.sub. simpl. lra. }
  rewrite Hd, Hrot, Ht1 in Ht2.
  cbn [dragUpdate] in Ht2.
  change (axisVector X) with (pc.mkVec3 1 0 0) in Ht2.
  rewrite quarter_turn_axis in Ht2.
  exists Scenario.turnedBody. eexists. split; [exact Ht|]. split; [exact Ht2|].
  assert (Hafter : SceneViewer.component Z
                     (SceneViewer.position
                        (SceneViewer.setPosition
                           (pc.add (SceneViewer.position Scenario.turnedBody)
                              (pc.mulScalar (pc.mkVec3 0 0 (-1)) 3))
                           Scenario.turnedBody)) = (-3)%R).
  { simpl. lra. }
  rewrite Hafter. split; [reflexivity|]. split; [reflexivity|].
  simpl. lra.
Qed.

(** C8. In a drag of a scale handle, a pointer move with projected delta d
    sets the scale on the constrained axis to the drag-start scale times
    (1 + d x 1.0) and leaves the other two scale components as they were
    when the drag started; the inspector shows the same scale. *)
Theorem scale_drag_multiplies_constrained_axis
  (a : Axis) (down move : SceneViewer.MouseEvent) (forward : pc.Vec3)
  (hitChar : option string) (steps : list System.DragStep)
  (s0 : SceneViewer.State) (target : SceneViewer.Entity)
  (gizmo : SceneViewer.GizmoRoot) :
  SceneViewer.isEditMode s0 = true ->
  SceneViewer.isFreeLookingRef s0 = false ->
  SceneViewer.isOrbitingRef s0 = false ->
  SceneViewer.leftButton down = true ->
  SceneViewer.getTargetEntity s0 = Some target ->
  SceneViewer.gizmoRootRef s0 = Some gizmo ->
  let s1 := SceneViewer.onMouseDown down forward
              (SceneViewer.mkHitTest
                 (Some (SceneViewer.gizmoAxis scale a)) hitChar) s0 in
  let s2 := System.runDrag steps s1 in
  let s3 := SceneViewer.onMouseMove false move s2 in
  exists (g : SceneViewer.GizmoRoot) (target' : SceneViewer.Entity),
    SceneViewer.gizmoRootRef s2 = Some g
    /\ SceneViewer.getTargetEntity s3 = Some target'
    /\ let d := SceneViewer.dragProjectedDelta g
                  (JS.substringFrom (SceneViewer.gizmoAxis scale a) 1) move s2 in
       SceneViewer.component a (SceneViewer.localScale target')
       = (SceneViewer.component a (SceneViewer.localScale target) * (1 + d * 1))%R
       /\ (forall b : Axis, b <> a ->
             SceneViewer.component b (SceneViewer.localScale target')
             = SceneViewer.component b (SceneViewer.localScale target))
       /\ SceneViewer.tScale (SceneViewer.transforms s3)
          = SceneViewer.localScale target'.
Proof.
  intros He Hf Ho Hl Ht Hg s1 s2 s3.
  destruct (onMouseDown_gizmo scale a down forward hitChar s0 target gizmo
              He Hf Ho Hl Ht Hg) as (Hdrag & _ & _).
  fold s1 in Hdrag.
  pose proof (runDrag_dragging scale a _ steps s1 Hdrag) as Hdrag2.
  fold s2 in Hdrag2.
  destruct Hdrag2 as (He2 & Hf2 & Ho2 & Hax2 & Hst2 & [g Hg2] & [t2 Ht2]).
  destruct (onMouseMove_dragging scale a (SceneViewer.localScale target) g move s2)
    as (Ht3 & _ & _ & HT); [|exact Hg2|].
  { repeat split; try assumption; eexists; eassumption. }
  fold s3 in Ht3, HT. specialize (HT eq_refl).
  rewrite Ht2 in Ht3. cbn [dragUpdate fmap option_fmap option_map] in Ht3.
  eexists g, _. split; [exact Hg2|]. split; [exact Ht3|].
  rewrite gizmoAxis_dir. cbv zeta.
  cbn [SceneViewer.localScale SceneViewer.setLocalScale].
  rewrite HT, mulOnAxis_letter.
  split; [apply component_setComponent_same|].
  split; [|reflexivity].
  intros b Hb. apply component_setComponent_other, Hb.
Qed.

Lemma scale_drag_multiplies_constrained_axis_witness :
  let s1 := SceneViewer.onMouseDown Scenario.press Scenario.forward
              (SceneViewer.mkHitTest
                 (Some (SceneViewer.gizmoAxis scale X)) None)
              Scenario.scaling in
  let s2 := System.runDrag [System.Move Scenario.pullBack; System.Frame Scenario.idle] s1 in
  let s3 := SceneViewer.onMouseMove false Scenario.pullRight s2 in
  exists (g : SceneViewer.GizmoRoot) (target' : SceneViewer.Entity),
    SceneViewer.gizmoRootRef s2 = Some g
    /\ SceneViewer.getTargetEntity s3 = Some target'
    /\ let d := SceneViewer.dragProjectedDelta g
                  (JS.substringFrom (SceneViewer.gizmoAxis scale X) 1)
                  Scenario.pullRight s2 in
       SceneViewer.component X (SceneViewer.localScale target')
       = (SceneViewer.component X (SceneViewer.localScale Scenario.body)
          * (1 + d * 1))%R
       /\ (forall b : Axis, b <> X ->
             SceneViewer.component b (SceneViewer.localScale target')
             = SceneViewer.component b (SceneViewer.localScale Scenario.body))
       /\ SceneViewer.tScale (SceneViewer.transforms s3)
          = SceneViewer.localScale target'.
Proof.
  destruct scaling_facts as (Ht & Hg & He & Hf & Ho).
  exact (scale_drag_multiplies_constrained_axis X Scenario.press
           Scenario.pullRight Scenario.forward None
           [System.Move Scenario.pullBack; System.Frame Scenario.idle]
           Scenario.scaling Scenario.body _ He Hf Ho eq_refl Ht Hg).
Defined.

Lemma zero_distance_elevation_divides_by_epsilon_witness :
  let vec := pc.sub (SceneViewer.cameraPosition (SceneViewer.cameraEntity Scenario.inside))
                    (SceneViewer.position Scenario.body) in
  let synced := SceneViewer.orbitParamsRef
                  (SceneViewer.syncOrbitParamsToCamera Scenario.inside) in
  let seeded := SceneViewer.orbitParamsRef
                  (SceneViewer.onMouseDown Scenario.press Scenario.forward
                     (SceneViewer.mkHitTest None None) Scenario.inside) in
  (forall camPos targetPos : pc.Vec3,
     exists (p : SceneViewer.OrbitParams) (quotient : R),
       SceneViewer.orbitParamsFrom camPos targetPos = Some p
       /\ pc.divide (pc.vy (pc.sub camPos targetPos))
            (SceneViewer.elevationDivisor (pc.length (pc.sub camPos targetPos)))
          = Some quotient
       /\ (-1 <= quotient <= 1)%R
       /\ SceneViewer.beta p = (asin quotient * pc.RAD_TO_DEG)%R)
  /\ pc.divide (pc.vy vec) (SceneViewer.elevationDivisor (pc.length vec))
     = Some (pc.vy vec / 0.001)%R
  /\ exists p : SceneViewer.OrbitParams,
       SceneViewer.orbitParamsFrom
         (SceneViewer.cameraPosition (SceneViewer.cameraEntity Scenario.inside))
         (SceneViewer.position Scenario.body) = Some p
       /\ synced = p
       /\ seeded = p
       /\ SceneViewer.beta p = (asin (pc.vy vec / 0.001) * pc.RAD_TO_DEG)%R
       /\ SceneViewer.beta p = 0%R
       /\ SceneViewer.radius p = 0%R
       /\ SceneViewer.targetPivot p = SceneViewer.position Scenario.body.
Proof.
  apply (zero_distance_elevation_divides_by_epsilon Scenario.inside Scenario.body
           Scenario.press Scenario.forward).
  - rewrite <- editing_target. reflexivity.
  - unfold pc.length, pc.dot, pc.sub. simpl.
    replace ((0 - 0) * (0 - 0) + (0 - 0) * (0 - 0) + (0 - 0) * (0 - 0))%R
      with 0%R by ring.
    apply sqrt_0.
  - reflexivity.
  - reflexivity.
Defined.

(** C9 as stated fails in its first half.  With the camera at the origin
    of the selected character, at zero distance, the radius that
    [syncOrbitParamsToCamera] stores is 0 and not the epsilon 0.001: the
    fallback is applied to the divisor only. *)
Lemma zero_distance_radius_is_zero_not_epsilon :
  let s := Scenario.inside in
  let p := SceneViewer.orbitParamsRef (SceneViewer.syncOrbitParamsToCamera s) in
  SceneViewer.getTargetEntity s = Some Scenario.body
  /\ pc.length (pc.sub (SceneViewer.cameraPosition (SceneViewer.cameraEntity s))
                       (SceneViewer.position Scenario.body)) = 0%R
  /\ SceneViewer.radius p = 0%R
  /\ SceneViewer.radius p <> 0.001%R.
Proof.
  intros s p.
  assert (Ht : SceneViewer.getTargetEntity s = Some Scenario.body).
  { unfold s. rewrite <- editing_target. reflexivity. }
  assert (Hz : pc.length (pc.sub (SceneViewer.cameraPosition (SceneViewer.cameraEntity s))
                                 (SceneViewer.position Scenario.body)) = 0%R).
  { unfold pc.length, pc.dot, pc.sub. simpl.
    replace ((0 - 0) * (0 - 0) + (0 - 0) * (0 - 0) + (0 - 0) * (0 - 0))%R
      with 0%R by ring.
    apply sqrt_0. }
  assert (Hr : SceneViewer.radius p = 0%R).
  { unfold p, SceneViewer.syncOrbitParamsToCamera.
    rewrite Ht, orbitParamsFrom_defined.
    cbn [SceneViewer.orbitParamsRef SceneViewer.set_orbitParamsRef SceneViewer.radius].
    exact Hz. }
  split; [exact Ht|]. split; [exact Hz|]. split; [exact Hr|].
  rewrite Hr. lra.
Qed.

(** * More of the code *)

(** ** The image service (services/geminiService.ts) *)

Section ServiceFacts.
Import GeminiService.
Local Open Scope string_scope.

Lemma startsWith_app (p d : string) : JS.startsWith (p ++ d) p = true.
Proof.
  unfold JS.startsWith. induction p as [|c p IH]; simpl.
  - destruct d; reflexivity.
  - destruct (ascii_dec c c) as [_|Hn]; [exact IH|contradiction].
Qed.

Lemma substring_all (d : string) : String.substring 0 (String.length d) d = d.
Proof. induction d as [|c d IH]; simpl; [reflexivity|]. rewrite IH. reflexivity. Qed.

Lemma substringFrom_app (p d : string) :
  JS.substringFrom (p ++ d) (String.length p) = d.
Proof.
  unfold JS.substringFrom. induction p as [|c p IH]; simpl.
  - rewrite Nat.sub_0_r. apply substring_all.
  - exact IH.
Qed.

Lemma startsWith_app_inv (s a b : string) :
  JS.startsWith s (a ++ b) = true -> JS.startsWith s a = true.
Proof.
  unfold JS.startsWith. revert s. induction a as [|c a IH]; intros s.
  - destruct s; reflexivity.
  - destruct s as [|c' s]; simpl; [discriminate|].
    destruct (ascii_dec c c'); [apply IH|discriminate].
Qed.

Lemma stripDataUrl_other (kinds : list string) (s : string) :
  JS.startsWith s "data:image/" = false -> stripDataUrl kinds s = s.
Proof.
  intros Hs. induction kinds as [|kind rest IH]; simpl; [reflexivity|].
  destruct (JS.startsWith s (dataUrlPrefix kind)) eqn:Hk; [|exact IH].
  unfold dataUrlPrefix in Hk. apply startsWith_app_inv in Hk. congruence.
Qed.

Lemma strip_prefix_here (kind : string) (rest : list string) (d : string) :
  stripDataUrl (kind :: rest) (dataUrlPrefix kind ++ d) = d.
Proof.
  cbn [stripDataUrl]. rewrite startsWith_app. apply substringFrom_app.
Qed.

Lemma strip_skip (kind : string) (rest : list string) (s : string) :
  JS.startsWith s (dataUrlPrefix kind) = false ->
  stripDataUrl (kind :: rest) s = stripDataUrl rest s.
Proof. intros H. cbn [stripDataUrl]. rewrite H. reflexivity. Qed.

End ServiceFacts.

(** X1. The cleaning of the scene image and of the reference image cuts a
    data-URL header of a listed kind (png, jpeg, jpg, and webp for the
    reference) down to the payload, and passes on unchanged every string that
    does not begin with data:image/. *)
Theorem stripDataUrl_cuts_listed_headers (d s : string) :
  (forall kind, In kind GeminiService.sceneKinds ->
     GeminiService.stripDataUrl GeminiService.sceneKinds
       (GeminiService.dataUrlPrefix kind ++ d) = d)
  /\ (forall kind, In kind GeminiService.characterKinds ->
        GeminiService.stripDataUrl GeminiService.characterKinds
          (GeminiService.dataUrlPrefix kind ++ d) = d)
  /\ (JS.startsWith s "data:image/" = false ->
      GeminiService.stripDataUrl GeminiService.sceneKinds s = s
      /\ GeminiService.stripDataUrl GeminiService.characterKinds s = s).
Proof.
  split; [|split].
  - intros kind Hin. unfold GeminiService.sceneKinds in *. simpl in Hin.
    destruct Hin as [<-|[<-|[<-|[]]]];
      repeat (rewrite strip_skip by reflexivity); apply strip_prefix_here.
  - intros kind Hin. unfold GeminiService.characterKinds in *. simpl in Hin.
    destruct Hin as [<-|[<-|[<-|[<-|[]]]]];
      repeat (rewrite strip_skip by reflexivity); apply strip_prefix_here.
  - intros Hs. split; apply stripDataUrl_other, Hs.
Qed.

Lemma stripDataUrl_cuts_listed_headers_witness :
  GeminiService.stripDataUrl GeminiService.sceneKinds "data:image/jpeg;base64,iVBOR"
  = "iVBOR"%string
  /\ GeminiService.stripDataUrl GeminiService.characterKinds "blob:abc"
     = "blob:abc"%string.
Proof.
  destruct (stripDataUrl_cuts_listed_headers "iVBOR" "blob:abc") as (H1 & _ & H3).
  split.
  - apply (H1 "jpeg"%string). right. left. reflexivity.
  - apply H3. reflexivity.
Defined.

Section ResponseFacts.
Import GeminiService.
Local Open Scope string_scope.

Lemma firstInlineData_some (parts : list ResponsePart) (data : option string) :
  firstInlineData parts = Some data ->
  exists pre post,
    parts = (pre ++ mkResponsePart (Some data) :: post)%list
    /\ Forall (fun p => inlineData p = None) pre.
Proof.
  induction parts as [|[o] parts IH]; simpl; [discriminate|].
  destruct o as [d|].
  - intros [= ->]. exists [], parts. split; [reflexivity|constructor].
  - intros H. destruct (IH H) as (pre & post & -> & Hpre).
    exists (mkResponsePart None :: pre), post. split; [reflexivity|].
    constructor; [reflexivity|exact Hpre].
Qed.

Lemma firstInlineData_none (parts : list ResponsePart) :
  firstInlineData parts = None ->
  Forall (fun p => inlineData p = None) parts.
Proof.
  induction parts as [|[o] parts IH]; simpl; [constructor|].
  destruct o as [d|]; [discriminate|].
  intros H. constructor; [reflexivity|apply IH, H].
Qed.

Lemma imageUrl_truthy (data : option string) : JS.truthy (imageUrl data) = true.
Proof. reflexivity. Qed.

Lemma orElse_fallback_truthy (m : option string) (fallback : string) :
  JS.truthy fallback = true ->
  exists e, JS.orElse m (Some fallback) = Some e /\ JS.truthy e = true.
Proof.
  intros Hf. unfold JS.orElse. destruct m as [e|]; simpl.
  - destruct (JS.truthy e) eqn:He; eauto.
  - eauto.
Qed.

Lemma find_first {A : Type} (p : A -> bool) (pre post : list A) (x : A) :
  Forall (fun y => p y = false) pre -> p x = true ->
  JS.find p (pre ++ x :: post) = Some x.
Proof.
  unfold JS.find. induction 1 as [|y pre Hy _ IH]; intros Hx; simpl.
  - rewrite Hx. reflexivity.
  - rewrite Hy. apply IH, Hx.
Qed.

End ResponseFacts.

(** X2. The response is read through its first candidate only: the image is
    the payload of the first part of that candidate that carries inline
    data, under a PNG data-URL header; the failure is "No image data found in
    response." when there is no candidate or no such part, and the engine's
    type error when the first candidate has no parts to go through. *)
Theorem parseResponse_reads_first_candidate (typeError : string)
  (response : GeminiService.Response) :
  match GeminiService.parseResponse typeError response with
  | GeminiService.Image u =>
      exists pre data post rest,
        GeminiService.candidates response
        = Some (Some (pre ++ GeminiService.mkResponsePart (Some data) :: post)%list
                  :: rest)
        /\ Forall (fun p => GeminiService.inlineData p = None) pre
        /\ u = GeminiService.imageUrl data
  | GeminiService.Failed m =>
      (m = Some GeminiService.noImage
       /\ (GeminiService.candidates response = None
           \/ GeminiService.candidates response = Some []
           \/ exists parts rest,
                GeminiService.candidates response = Some (Some parts :: rest)
                /\ Forall (fun p => GeminiService.inlineData p = None) parts))
      \/ (m = Some typeError
          /\ exists rest, GeminiService.candidates response = Some (None :: rest))
  | GeminiService.FailedNullish => False
  end.
Proof.
  destruct response as [[[|[parts|] rest]|]]; unfold GeminiService.parseResponse;
    cbn [GeminiService.candidates].
  - left. auto.
  - destruct (GeminiService.firstInlineData parts) as [data|] eqn:Hf.
    + destruct (firstInlineData_some _ _ Hf) as (pre & post & -> & Hpre).
      exists pre, data, post, rest. auto.
    + left. split; [reflexivity|]. right. right.
      exists parts, rest. split; [reflexivity|].
      apply firstInlineData_none, Hf.
  - right. split; [reflexivity|]. exists rest. reflexivity.
  - left. auto.
Qed.

(** X3. A generation that got its scene capture comes to an end for every
    reply of the service but one.  When the service answers, or rejects with
    a value other than null and undefined, or when there is no API key, the
    generating flag is lowered, and either there is a non-empty image, no
    error, and the result view is shown, or there is a non-empty error
    message, no image, and the view is as it was; without an API key the
    error is the missing-key message.  When the request is sent and rejected
    with null or undefined, reading the message in the catch block throws
    before any state is set: the generating flag stays up, with no image and
    no error, and the view is as it was. *)
Theorem generation_settles_unless_rejected_with_nullish
  (apiKey : option string) (typeError : string)
  (reply : GeminiService.Reply) (prompt : string) (s : App.State)
  (Hcapture : JS.truthyOpt (App.captureScene s) = true) :
  let s' := GeminiService.generate apiKey typeError reply prompt s in
  let g := App.generationState s' in
  let rejectedWithNullish :=
    match reply with
    | GeminiService.RefusedNullish => JS.truthyOpt apiKey
    | _ => false
    end in
  if rejectedWithNullish
  then isGenerating g = true
       /\ generatedImage g = None
       /\ error g = None
       /\ App.viewMode s' = App.viewMode s
  else isGenerating g = false
       /\ ((exists u, generatedImage g = Some u /\ JS.truthy u = true
                      /\ error g = None /\ App.viewMode s' = RESULT)
           \/ (exists m, error g = Some m /\ JS.truthy m = true
                         /\ generatedImage g = None
                         /\ App.viewMode s' = App.viewMode s))
       /\ (JS.truthyOpt apiKey = false -> error g = Some GeminiService.missingKey).
Proof.
  unfold GeminiService.generate, App.handleGenerate.
  destruct (App.captureScene s) as [snap|]; [|discriminate].
  simpl in Hcapture. rewrite Hcapture.
  set (ref := option_map url (JS.find is2d (App.characters s))).
  cbv zeta.
  set (o := GeminiService.generateCharacterInScene apiKey snap prompt ref
              typeError reply).
  assert (Ho : (exists data, o = GeminiService.Image (GeminiService.imageUrl data)
                             /\ JS.truthyOpt apiKey = true
                             /\ reply <> GeminiService.RefusedNullish)
               \/ (exists m, o = GeminiService.Failed m
                    /\ (JS.truthyOpt apiKey = false
                        -> m = Some GeminiService.missingKey)
                    /\ (reply = GeminiService.RefusedNullish
                        -> JS.truthyOpt apiKey = false))
               \/ (o = GeminiService.FailedNullish
                   /\ reply = GeminiService.RefusedNullish
                   /\ JS.truthyOpt apiKey = true)).
  { subst o. unfold GeminiService.generateCharacterInScene, GeminiService.request.
    destruct (JS.truthyOpt apiKey) eqn:Hkey.
    - destruct reply as [response|message|].
      + unfold GeminiService.parseResponse.
        destruct (GeminiService.candidates response) as [[|[parts|] rest]|];
          try (right; left; eexists; repeat split; discriminate).
        destruct (GeminiService.firstInlineData parts) as [data|].
        * left. exists data. repeat split. discriminate.
        * right; left; eexists; repeat split; discriminate.
      + right; left; eexists; repeat split; discriminate.
      + right; right. repeat split.
    - right; left. eexists. repeat split. }
  destruct Ho as [(data & -> & Hkey & Hr)|[(m & -> & Hm & Hr)|(-> & -> & Hkey)]].
  - assert (Hb : match reply with
                 | GeminiService.RefusedNullish => JS.truthyOpt apiKey
                 | _ => false
                 end = false) by (destruct reply; try reflexivity; contradiction).
    rewrite Hb. cbn. split; [reflexivity|]. split.
    + left. eexists. repeat split; reflexivity.
    + congruence.
  - assert (Hb : match reply with
                 | GeminiService.RefusedNullish => JS.truthyOpt apiKey
                 | _ => false
                 end = false) by (destruct reply; try reflexivity; auto).
    rewrite Hb.
    cbn [GeminiService.settled App.handleGenerate_resume].
    destruct (orElse_fallback_truthy m "Something went wrong during generation."
                eq_refl) as (e & He & Hte).
    cbn. rewrite He. split; [reflexivity|]. split.
    + right. exists e. repeat split; assumption.
    + intros Hk. rewrite (Hm Hk) in He. cbn in He. congruence.
  - rewrite Hkey. cbn. repeat split.
Qed.

Lemma generation_settles_unless_rejected_with_nullish_witness :
  let s := App.setCaptureRef (Some (App.mkCanvas "data:image/png;base64,iVBOR"))
             App.initial in
  let stuck := GeminiService.generate (Some "key") "" GeminiService.RefusedNullish
                 "a knight by the door" s in
  let failed := GeminiService.generate None "" GeminiService.RefusedNullish
                  "a knight by the door" s in
  isGenerating (App.generationState stuck) = true
  /\ isGenerating (App.generationState failed) = false
  /\ error (App.generationState failed) = Some GeminiService.missingKey.
Proof.
  intros s stuck failed.
  pose proof (generation_settles_unless_rejected_with_nullish (Some "key") ""
                GeminiService.RefusedNullish "a knight by the door" s eq_refl)
    as H1.
  pose proof (generation_settles_unless_rejected_with_nullish None ""
                GeminiService.RefusedNullish "a knight by the door" s eq_refl)
    as H2.
  cbv zeta in H1, H2. cbn [JS.truthyOpt] in H1, H2.
  change (JS.truthy "key") with true in H1. cbv iota in H1, H2.
  destruct H1 as (H1 & _). destruct H2 as (H2 & _ & H3).
  split; [exact H1|]. split; [exact H2|exact (H3 eq_refl)].
Defined.

(** X4. The reference image of a request is the first 2D character of the
    list: the 3D characters before it are passed over, and with a non-empty
    image URL the request has three parts, the prompt with the reference
    instructions, the cleaned scene capture and the cleaned character image,
    both declared as PNG. *)
Theorem reference_image_is_first_2d_character (apiKey : option string)
  (prompt : string) (s : App.State) (pre post : list Character) (c : Character)
  (Hcapture : JS.truthyOpt (App.captureScene s) = true)
  (Hkey : JS.truthyOpt apiKey = true)
  (Hchars : App.characters s = (pre ++ c :: post)%list)
  (Hpre : Forall (fun x => is2d x = false) pre)
  (Hc : is2d c = true)
  (Hurl : JS.truthy (url c) = true) :
  exists snap,
    App.captureScene s = Some snap
    /\ snd (App.handleGenerate prompt s) = [App.Generate snap prompt (Some (url c))]
    /\ GeminiService.request apiKey snap prompt (Some (url c))
       = Some [GeminiService.Text
                 (GeminiService.basePrompt prompt ++ GeminiService.referencePrompt)%string;
               GeminiService.InlineData
                 (GeminiService.stripDataUrl GeminiService.sceneKinds snap)
                 "image/png";
               GeminiService.InlineData
                 (GeminiService.stripDataUrl GeminiService.characterKinds (url c))
                 "image/png"].
Proof.
  unfold App.handleGenerate.
  destruct (App.captureScene s) as [snap|]; [|discriminate].
  simpl in Hcapture. rewrite Hcapture. exists snap.
  split; [reflexivity|]. split.
  - cbn [snd]. rewrite Hchars, (find_first is2d pre post c Hpre Hc). reflexivity.
  - unfold GeminiService.request, GeminiService.buildParts.
    rewrite Hkey. cbn [JS.truthyOpt]. rewrite Hurl. reflexivity.
Qed.

Lemma reference_image_is_first_2d_character_witness :
  let body := mkCharacter "b1" T3d "blob:body" "body.glb" in
  let hero := mkCharacter "h1" T2d "data:image/webp;base64,UklGR" "hero.webp" in
  let s := App.setCharacters (fun _ => [body; hero])
             (App.setCaptureRef (Some (App.mkCanvas "data:image/png;base64,iVBOR"))
                App.initial) in
  exists snap,
    App.captureScene s = Some snap
    /\ snd (App.handleGenerate "a knight" s)
       = [App.Generate snap "a knight" (Some (url hero))]
    /\ GeminiService.request (Some "key") snap "a knight" (Some (url hero))
       = Some [GeminiService.Text
                 (GeminiService.basePrompt "a knight" ++ GeminiService.referencePrompt)%string;
               GeminiService.InlineData
                 (GeminiService.stripDataUrl GeminiService.sceneKinds snap)
                 "image/png";
               GeminiService.InlineData
                 (GeminiService.stripDataUrl GeminiService.characterKinds (url hero))
                 "image/png"].
Proof.
  intros body hero s.
  apply (reference_image_is_first_2d_character (Some "key") "a knight" s
           [body] [] hero).
  - reflexivity.
  - reflexivity.
  - reflexivity.
  - repeat constructor.
  - reflexivity.
  - reflexivity.
Defined.

(** ** Uploads and the busy flags (App.tsx) *)

Section UploadFacts.
Import System.
Local Open Scope string_scope.

Lemma find_split {A : Type} (p : A -> bool) (l : list A) (x : A) :
  JS.find p l = Some x ->
  exists pre post,
    l = (pre ++ x :: post)%list /\ Forall (fun y => p y = false) pre /\ p x = true.
Proof.
  unfold JS.find. induction l as [|y l IH]; simpl; [discriminate|].
  destruct (p y) eqn:Hy.
  - intros [= ->]. exists [], l. repeat split; [constructor|exact Hy].
  - intros H. destruct (IH H) as (pre & post & -> & Hpre & Hx).
    exists (y :: pre), post. repeat split; [constructor; assumption|exact Hx].
Qed.

Lemma find_none_all {A : Type} (p : A -> bool) (l : list A) :
  JS.find p l = None -> Forall (fun y => p y = false) l.
Proof.
  unfold JS.find. induction l as [|y l IH]; simpl; [constructor|].
  destruct (p y) eqn:Hy; [discriminate|].
  intros H. constructor; [exact Hy|apply IH, H].
Qed.

Lemma endsWith_truthy (s suf : string) :
  JS.truthy suf = true -> JS.endsWith (JS.toLowerCase s) suf = true ->
  JS.truthy s = true.
Proof.
  destruct s; [|reflexivity].
  destruct suf; [discriminate|]. intros _. cbn. discriminate.
Qed.

Lemma isSplatName_truthy (k : string) : App.isSplatName k = true -> JS.truthy k = true.
Proof.
  unfold App.isSplatName. intros H. apply orb_true_iff in H.
  destruct H as [H|H]; eapply endsWith_truthy; try exact H; reflexivity.
Qed.

Lemma settle_keeps (p : App.Command -> bool) (l rest : list App.Command)
  (c : App.Command) :
  settle p l = Some rest -> p c = false -> In c l -> In c rest.
Proof.
  revert rest. induction l as [|d l IH]; intros rest H Hc Hin; simpl in H.
  - discriminate.
  - destruct (p d) eqn:Hd.
    + injection H as <-. destruct Hin as [->|Hin]; [congruence|exact Hin].
    + destruct (settle p l) as [r|] eqn:Hs; simpl in H; [|discriminate].
      injection H as <-. destruct Hin as [->|Hin]; [left; reflexivity|].
      right. apply (IH r eq_refl Hc Hin).
Qed.

Lemma uploadSplat_loading (file : App.File) (u : string) (s : App.State) :
  let r := App.handleUploadSplat file u s in
  (App.isLoading (fst r) = false /\ snd r = [])
  \/ (App.isLoading (fst r) = true /\ snd r = [App.Unzip file]).
Proof.
  unfold App.handleUploadSplat. destruct (App.isSpz file); cbn; auto.
Qed.

Lemma uploadSplat_resume_loading (r : App.UnzipResult) (u : string) (s : App.State) :
  App.isLoading (App.handleUploadSplat_resume r u s) = false.
Proof. reflexivity. Qed.

Lemma uploadCharacter_loading (file : App.File) (cid u : string) (s : App.State) :
  App.isLoading (fst (App.handleUploadCharacter file cid u s)) = App.isLoading s.
Proof.
  unfold App.handleUploadCharacter.
  destruct (App.is3D file); [reflexivity|].
  destruct (App.isImage file); reflexivity.
Qed.

Lemma submitForm_loading (prompt : string) (s : App.State) :
  App.isLoading (fst (ControlPanel.submitForm prompt s)) = App.isLoading s.
Proof.
  unfold ControlPanel.submitForm, ControlPanel.handleSubmit, App.handleGenerate.
  destruct (ControlPanel.submitDisabled _ _); [reflexivity|].
  destruct (negb _); [reflexivity|].
  destruct (App.captureScene s) as [snap|]; [|reflexivity].
  destruct (JS.truthy snap); reflexivity.
Qed.

Lemma step_loadingAccounted (e : Event) (w : World) :
  Coherence.loadingAccounted w -> Coherence.loadingAccounted (step e w).
Proof.
  unfold Coherence.loadingAccounted. intros Hw.
  destruct e as [prompt| |m|file u|file cid u|file r u|file cid res|r|cid|canvas];
    cbv beta iota delta [step started].
  - cbn [app pending]. rewrite submitForm_loading. intros H.
    destruct (Hw H) as (f & Hf). exists f. apply in_or_app. left. exact Hf.
  - destruct (hasResult (app w) && _); exact Hw.
  - destruct m; [| destruct (hasResult (app w)) ..]; exact Hw.
  - cbn [app pending].
    destruct (uploadSplat_loading file u (app w)) as [[H1 H2]|[H1 H2]];
      rewrite H1, H2; [discriminate|].
    intros _. exists file. apply in_or_app. right. left. reflexivity.
  - cbn [app pending]. rewrite uploadCharacter_loading. intros H.
    destruct (Hw H) as (f & Hf). exists f. apply in_or_app. left. exact Hf.
  - destruct (settle (isUnzipOf file) (pending w)) as [rest|] eqn:Hs; [|exact Hw].
    cbn [app pending]. rewrite uploadSplat_resume_loading. discriminate.
  - destruct (settle (isReadOf file cid) (pending w)) as [rest|] eqn:Hs; [|exact Hw].
    cbn [app pending]. intros H. destruct (Hw H) as (f & Hf). exists f.
    apply (settle_keeps _ _ _ (App.Unzip f) Hs eq_refl Hf).
  - destruct (settle isGenerate (pending w)) as [rest|] eqn:Hs; [|exact Hw].
    cbn [app pending]. intros H.
    assert (H' : App.isLoading (app w) = true) by (destruct r; exact H).
    destruct (Hw H') as (f & Hf). exists f.
    apply (settle_keeps _ _ _ (App.Unzip f) Hs eq_refl Hf).
  - exact Hw.
  - exact Hw.
Qed.

Lemma step_busy (e : Event) (w : World) :
  Coherence.nullishRejection e = false ->
  outstanding w
  = (if isGenerating (App.generationState (app w)) then 1 else 0)%nat ->
  outstanding (step e w)
  = (if isGenerating (App.generationState (app (step e w))) then 1 else 0)%nat.
Proof.
  unfold outstanding. intros Hclean Hw.
  destruct e as [prompt| |m|file u|file cid u|file r u|file cid res|r|cid|canvas];
    cbv beta iota delta [step started].
  - cbn [app pending]. rewrite generations_app.
    destruct (submitForm_cases prompt (app w)) as [[H1 H2]|(H0 & H1 & H2)].
    + rewrite H1, H2. change (generations []) with 0%nat.
      rewrite Nat.add_0_r. exact Hw.
    + rewrite H1, H2. rewrite H0 in Hw. lia.
  - destruct (hasResult (app w) && _); [|exact Hw].
    cbn [app pending]. exact Hw.
  - destruct m; [| destruct (hasResult (app w)) ..]; try exact Hw;
      cbn [app pending]; exact Hw.
  - cbn [app pending]. rewrite generations_app.
    destruct (uploadSplat_keeps_busy file u (app w)) as [H1 H2].
    rewrite H1, H2, Nat.add_0_r. exact Hw.
  - cbn [app pending]. rewrite generations_app.
    destruct (uploadCharacter_keeps_busy file cid u (app w)) as [H1 H2].
    rewrite H1, H2, Nat.add_0_r. exact Hw.
  - destruct (settle (isUnzipOf file) (pending w)) as [rest|] eqn:Hs; [|exact Hw].
    cbn [app pending].
    rewrite (settle_other _ _ _ (isUnzipOf_not_generate file) Hs).
    rewrite uploadSplat_resume_keeps_busy. exact Hw.
  - destruct (settle (isReadOf file cid) (pending w)) as [rest|] eqn:Hs; [|exact Hw].
    cbn [app pending].
    rewrite (settle_other _ _ _ (isReadOf_not_generate file cid) Hs).
    exact Hw.
  - destruct (settle isGenerate (pending w)) as [rest|] eqn:Hs; [|exact Hw].
    cbn [app pending].
    apply settle_generate in Hs.
    assert (Hf : isGenerating (App.generationState (App.handleGenerate_resume r (app w)))
                 = false) by (destruct r; try reflexivity; discriminate Hclean).
    rewrite Hf. destruct (isGenerating (App.generationState (app w))); lia.
  - exact Hw.
  - exact Hw.
Qed.

End UploadFacts.

(** X5. The inner file of an archive is chosen by kind before position: the
    first key that ends in .splat or .ksplat, in any letter case, when there
    is one; otherwise the first key that ends in .ply; none exactly when no
    key ends in either. *)
Theorem findInnerFile_takes_splat_before_ply (keys : list string) :
  match App.findInnerFile keys with
  | Some k =>
      exists pre post,
        keys = (pre ++ k :: post)%list
        /\ ((App.isSplatName k = true
             /\ Forall (fun x => App.isSplatName x = false) pre)
            \/ (App.isPlyName k = true
                /\ Forall (fun x => App.isSplatName x = false) keys
                /\ Forall (fun x => App.isPlyName x = false) pre))
  | None =>
      Forall (fun x => App.isSplatName x = false /\ App.isPlyName x = false) keys
  end.
Proof.
  unfold App.findInnerFile, JS.orElse.
  destruct (JS.find App.isSplatName keys) as [k|] eqn:Hs.
  - destruct (find_split _ _ _ Hs) as (pre & post & Hk & Hpre & Hx).
    cbn [JS.truthyOpt]. rewrite (isSplatName_truthy k Hx).
    exists pre, post. split; [exact Hk|]. left. split; assumption.
  - cbn [JS.truthyOpt]. apply find_none_all in Hs.
    destruct (JS.find App.isPlyName keys) as [k|] eqn:Hp.
    + destruct (find_split _ _ _ Hp) as (pre & post & Hk & Hpre & Hx).
      exists pre, post. split; [exact Hk|]. right. repeat split; assumption.
    + apply find_none_all in Hp.
      apply Forall_forall. intros x Hx.
      rewrite Forall_forall in Hs, Hp. split; [apply Hs|apply Hp]; exact Hx.
Qed.

(** X6. An archive upload always comes to an end: once the decompression has
    settled the loading flag is down, and either the scene URL is the blob
    URL of the inner file and the error is still cleared, or the scene URL
    is none and the error message begins with "Failed to load file: ".  The
    upload has cleared the previous result, returned to the viewport and
    recorded the file name; the characters are untouched. *)
Theorem archive_upload_settles (file : App.File) (u u' : string)
  (r : App.UnzipResult) (s : App.State)
  (Hspz : App.isSpz file = true) :
  let s1 := fst (App.handleUploadSplat file u s) in
  let s2 := App.handleUploadSplat_resume r u' s1 in
  snd (App.handleUploadSplat file u s) = [App.Unzip file]
  /\ App.isLoading s1 = true
  /\ App.isLoading s2 = false
  /\ ((App.splatUrl s2 = Some u' /\ error (App.generationState s2) = None)
      \/ (App.splatUrl s2 = None
          /\ exists msg, error (App.generationState s2)
                         = Some ("Failed to load file: " ++ msg)%string))
  /\ generatedImage (App.generationState s2) = None
  /\ App.viewMode s2 = VIEWPORT
  /\ App.splatFileName s2 = Some (App.fileName file)
  /\ App.characters s2 = App.characters s.
Proof.
  unfold App.handleUploadSplat. rewrite Hspz. cbn [fst snd].
  split; [reflexivity|]. split; [reflexivity|]. split; [reflexivity|].
  unfold App.handleUploadSplat_resume.
  destruct r as [message|keys].
  - split; [|repeat split]. right. split; [reflexivity|]. exists message. reflexivity.
  - destruct (negb (JS.truthyOpt (App.findInnerFile keys))).
    + split; [|repeat split]. right. split; [reflexivity|]. eexists. reflexivity.
    + split; [|repeat split]. left. split; reflexivity.
Qed.

Lemma archive_upload_settles_witness :
  let file := App.mkFile "room.spz" "" in
  let s1 := fst (App.handleUploadSplat file "blob:1" App.initial) in
  let s2 := App.handleUploadSplat_resume (App.Unzipped ["room.ply"]) "blob:2" s1 in
  App.isLoading s2 = false /\ App.splatUrl s2 = Some "blob:2".
Proof.
  destruct (archive_upload_settles (App.mkFile "room.spz" "") "blob:1" "blob:2"
              (App.Unzipped ["room.ply"]) App.initial eq_refl)
    as (_ & _ & H3 & _).
  split; [exact H3|reflexivity].
Defined.

(** X7. From the start of the application and through any sequence of
    events in which no service call is rejected with null or undefined, the
    generating flag is up exactly while one service call is outstanding: up
    with one call, down with none. *)
Theorem busy_flag_tracks_the_outstanding_call (events : list System.Event)
  (Hclean : Forall (fun e => Coherence.nullishRejection e = false) events) :
  let w := System.run events (System.mkWorld App.initial []) in
  System.outstanding w
  = (if isGenerating (App.generationState (System.app w)) then 1 else 0)%nat.
Proof.
  cbv zeta. unfold System.run.
  assert (H : forall w,
             System.outstanding w
             = (if isGenerating (App.generationState (System.app w)) then 1 else 0)%nat ->
             System.outstanding (fold_left (fun w e => System.step e w) events w)
             = (if isGenerating
                     (App.generationState
                        (System.app (fold_left (fun w e => System.step e w) events w)))
                then 1 else 0)%nat).
  { induction Hclean as [|e events He _ IH]; intros w Hw; simpl; [exact Hw|].
    apply IH, step_busy; assumption. }
  apply H. reflexivity.
Qed.

Lemma busy_flag_tracks_the_outstanding_call_witness :
  let w := System.run
             [System.ViewerMounted (App.mkCanvas "data:image/png;base64,iVBOR");
              System.SubmitForm "a knight by the door";
              System.GenerateSettled (App.Rejected None);
              System.SubmitForm "a knight by the window"]
             (System.mkWorld App.initial []) in
  System.outstanding w
  = (if isGenerating (App.generationState (System.app w)) then 1 else 0)%nat.
Proof.
  apply (busy_flag_tracks_the_outstanding_call
           [System.ViewerMounted (App.mkCanvas "data:image/png;base64,iVBOR");
            System.SubmitForm "a knight by the door";
            System.GenerateSettled (App.Rejected None);
            System.SubmitForm "a knight by the window"]).
  repeat constructor.
Defined.

(** The exception is real: after a rejection with null or undefined the
    flag stays up with no call outstanding, and the disabled form lets no
    further generation start. *)
Remark nullish_rejection_leaves_flag_up (prompt : string) :
  let w := System.run
             [System.ViewerMounted (App.mkCanvas "data:image/png;base64,iVBOR");
              System.SubmitForm "a knight by the door";
              System.GenerateSettled App.RejectedNullish]
             (System.mkWorld App.initial []) in
  System.outstanding w = 0%nat
  /\ isGenerating (App.generationState (System.app w)) = true
  /\ System.step (System.SubmitForm prompt) w = w.
Proof. repeat split. Qed.

(** X8. From the start of the application and through any sequence of
    events, the loading flag is up only while the decompression of an
    archive is pending. *)
Theorem loading_flag_has_a_pending_decompression (events : list System.Event) :
  let w := System.run events (System.mkWorld App.initial []) in
  App.isLoading (System.app w) = true ->
  exists file, In (App.Unzip file) (System.pending w).
Proof.
  cbv zeta. unfold System.run.
  assert (H : forall w, Coherence.loadingAccounted w ->
                        Coherence.loadingAccounted (fold_left (fun w e => System.step e w) events w)).
  { induction events as [|e events IH]; intros w Hw; simpl; [exact Hw|].
    apply IH, step_loadingAccounted, Hw. }
  apply (H (System.mkWorld App.initial [])). intros H0. discriminate H0.
Qed.

Lemma loading_flag_has_a_pending_decompression_witness :
  exists file,
    In (App.Unzip file)
       (System.pending
          (System.run [System.ChooseSplat (App.mkFile "room.spz" "") "blob:1"]
             (System.mkWorld App.initial []))).
Proof.
  apply (loading_flag_has_a_pending_decompression
           [System.ChooseSplat (App.mkFile "room.spz" "") "blob:1"]).
  reflexivity.
Defined.

(** ** Pointer, wheel and frame handlers (SceneViewer.tsx) *)

Section HandlerFacts.
Import pc SceneViewer.
Local Open Scope R_scope.

Lemma orbitOffset_length (p : OrbitParams) :
  0 <= radius p -> length (orbitOffset p) = radius p.
Proof.
  intros Hr. unfold length, orbitOffset, dot. cbn [vx vy vz].
  set (a := alpha p * DEG_TO_RAD). set (b := beta p * DEG_TO_RAD).
  pose proof (sin2_cos2 a) as Ha. pose proof (sin2_cos2 b) as Hb.
  unfold Rsqr in Ha, Hb.
  replace (radius p * cos b * sin a * (radius p * cos b * sin a)
           + radius p * sin b * (radius p * sin b)
           + radius p * cos b * cos a * (radius p * cos b * cos a))
    with (radius p * radius p
          * (cos b * cos b * (sin a * sin a + cos a * cos a) + sin b * sin b))
    by ring.
  rewrite Ha.
  replace (cos b * cos b * 1 + sin b * sin b) with (sin b * sin b + cos b * cos b)
    by ring.
  rewrite Hb, Rmult_1_r. apply sqrt_square, Hr.
Qed.

Lemma sub_add_cancel (p v : Vec3) : sub (add p v) p = v.
Proof. destruct p, v. unfold sub, add. cbn [vx vy vz]. f_equal; ring. Qed.

Lemma addOnAxis_letter (a : Axis) (v : Vec3) (k : R) :
  addOnAxis (axisLetter a) v k = setComponent a (component a v + k) v.
Proof. destruct a; reflexivity. Qed.

(** What a pointer move of a drag writes to the inspector. *)
Lemma onMouseMove_dragging_panel (m : GizmoMode) (a : Axis) (start : Vec3)
  (g : GizmoRoot) (event : MouseEvent) (s : State) :
  dragging (gizmoAxis m a) start s ->
  gizmoRootRef s = Some g ->
  let d := dragProjectedDelta g (axisLetter a) event s in
  transforms (onMouseMove false event s)
  = match m with
    | translate =>
        set_tPosition
          (add start (mulScalar (transformVector (gizmoRotation g) (axisVector a)) d))
          (transforms s)
    | rotate => set_tRotation (addOnAxis (axisLetter a) start (d * 20)) (transforms s)
    | scale => set_tScale (mulOnAxis (axisLetter a) start (1 + d * 1)) (transforms s)
    end.
Proof.
  intros (He & Hf & Ho & Hax & Hst & Hg & [t Ht]) Hgz d.
  assert (Hs' : onMouseMove false event s = mouseDrag (gizmoAxis m a) g event s).
  { unfold onMouseMove. rewrite He, Hf, Ho, Hax, Hgz. simpl.
    rewrite gizmoAxis_truthy. reflexivity. }
  rewrite Hs'. unfold mouseDrag.
  rewrite gizmoAxis_mode, gizmoAxis_dir, Ht.
  unfold dragAxisVec. rewrite axisUnit_letter, Hst. fold d.
  assert (Hfr : forall f, transforms (updateTarget f s) = transforms s).
  { intros f. unfold updateTarget.
    destruct (selectedTarget s) as [[]|]; [reflexivity| |reflexivity].
    destruct (activeCharacterId s) as [cid|]; [|reflexivity].
    destruct (JS.truthy cid); reflexivity. }
  destruct m; reflexivity.
Qed.

Lemma getTarget_selected (s : State) (t : Entity) :
  getTargetEntity s = Some t -> exists sel, selectedTarget s = Some sel.
Proof.
  unfold getTargetEntity. destruct (selectedTarget s) as [sel|]; [|discriminate].
  intros _. exists sel. reflexivity.
Qed.

End HandlerFacts.

(** X9. A wheel event during an orbit keeps the orbit radius within
    [0.5, 50]: the radius becomes the old one less a quarter of the wheel
    delta, clamped to that range; the angles and the pivot stay, the camera
    is put at exactly that distance from the pivot, and its orientation is
    not touched. *)
Theorem wheel_zoom_keeps_radius_in_range (event : SceneViewer.MouseEvent)
  (s : SceneViewer.State)
  (Hedit : SceneViewer.isEditMode s = true)
  (Horbit : SceneViewer.isOrbitingRef s = true) :
  let p := SceneViewer.orbitParamsRef s in
  let s' := SceneViewer.onMouseWheel event s in
  let p' := SceneViewer.orbitParamsRef s' in
  (0.5 <= SceneViewer.radius p' <= 50)%R
  /\ SceneViewer.radius p'
     = Rmax 0.5 (Rmin (SceneViewer.radius p
                       - SceneViewer.wheelDelta event * 0.25) 50)
  /\ SceneViewer.alpha p' = SceneViewer.alpha p
  /\ SceneViewer.beta p' = SceneViewer.beta p
  /\ SceneViewer.targetPivot p' = SceneViewer.targetPivot p
  /\ pc.length (pc.sub (SceneViewer.cameraPosition (SceneViewer.cameraEntity s'))
                       (SceneViewer.targetPivot p'))
     = SceneViewer.radius p'
  /\ SceneViewer.cameraOrientation (SceneViewer.cameraEntity s')
     = SceneViewer.cameraOrientation (SceneViewer.cameraEntity s).
Proof.
  intros p s' p'. subst p' s'. unfold SceneViewer.onMouseWheel.
  rewrite Hedit, Horbit. cbv zeta. fold p.
  cbn [andb SceneViewer.orbitParamsRef SceneViewer.set_cameraEntity
       SceneViewer.set_orbitParamsRef SceneViewer.radius SceneViewer.alpha
       SceneViewer.beta SceneViewer.targetPivot SceneViewer.cameraEntity
       SceneViewer.cameraPosition SceneViewer.cameraOrientation].
  set (r := Rmax 0.5 (Rmin (SceneViewer.radius p
                            - SceneViewer.wheelDelta event * 0.5 * 0.5) 50)).
  assert (Hr : (0.5 <= r <= 50)%R).
  { unfold r. split; [apply Rmax_l|].
    apply Rmax_lub; [lra|apply Rmin_r]. }
  split; [exact Hr|].
  split; [unfold r; f_equal; f_equal; lra|].
  repeat split.
  rewrite sub_add_cancel, orbitOffset_length; [reflexivity|].
  cbn [SceneViewer.radius]. lra.
Qed.

Lemma wheel_zoom_keeps_radius_in_range_witness :
  let s := SceneViewer.onMouseDown Scenario.press Scenario.forward
             (SceneViewer.mkHitTest None None) Scenario.editing in
  let s' := SceneViewer.onMouseWheel
              (SceneViewer.mkMouseEvent 0 0 400 false
                 (pc.mkRay pc.vzero (pc.mkVec3 0 0 (-1)))) s in
  (0.5 <= SceneViewer.radius (SceneViewer.orbitParamsRef s') <= 50)%R.
Proof.
  intros s s'.
  assert (Hs : s = SceneViewer.startOrbit (SceneViewer.position Scenario.body)
                     Scenario.editing).
  { apply background_press; [reflexivity|reflexivity|exact editing_target]. }
  destruct (startOrbit_frame (SceneViewer.position Scenario.body) Scenario.editing)
    as (F1 & _ & F3 & _).
  apply (wheel_zoom_keeps_radius_in_range
           (SceneViewer.mkMouseEvent 0 0 400 false
              (pc.mkRay pc.vzero (pc.mkVec3 0 0 (-1)))) s).
  - rewrite Hs, F1. reflexivity.
  - rewrite Hs. exact F3.
Defined.

(** X10. A pointer move under pointer lock turns the view and nothing else:
    the pitch stays within [-90, 90], the yaw goes down by a fifth of the
    horizontal move, the camera gets these two angles with no roll, and it
    stays where it is. *)
Theorem pointer_look_clamps_pitch (event : SceneViewer.MouseEvent)
  (s : SceneViewer.State) :
  let s' := SceneViewer.onMouseMove true event s in
  let look := SceneViewer.mouseLookEulerRef s' in
  (-90 <= pc.vx look <= 90)%R
  /\ pc.vy look
     = (pc.vy (SceneViewer.mouseLookEulerRef s) - SceneViewer.dx event * 0.2)%R
  /\ SceneViewer.cameraOrientation (SceneViewer.cameraEntity s')
     = SceneViewer.EulerAngles (pc.vx look) (pc.vy look) 0
  /\ SceneViewer.cameraPosition (SceneViewer.cameraEntity s')
     = SceneViewer.cameraPosition (SceneViewer.cameraEntity s)
  /\ SceneViewer.getTargetEntity s' = SceneViewer.getTargetEntity s.
Proof.
  cbv zeta. unfold SceneViewer.onMouseMove, SceneViewer.mouseLook.
  cbn [SceneViewer.mouseLookEulerRef SceneViewer.set_cameraEntity
       SceneViewer.set_mouseLookEulerRef SceneViewer.cameraEntity
       SceneViewer.cameraOrientation SceneViewer.cameraPosition pc.vx pc.vy].
  split; [apply clamp_range; lra|]. repeat split.
Qed.

(** X11. Releasing the button ends whatever the press began: after it,
    pointer moves without pointer lock and wheel events change nothing, and
    the release itself moves neither the camera nor the target nor the orbit
    parameters. *)
Theorem release_ends_every_drag (event : SceneViewer.MouseEvent)
  (s : SceneViewer.State) :
  let s' := SceneViewer.onMouseUp s in
  SceneViewer.onMouseMove false event s' = s'
  /\ SceneViewer.onMouseWheel event s' = s'
  /\ SceneViewer.cameraEntity s' = SceneViewer.cameraEntity s
  /\ SceneViewer.getTargetEntity s' = SceneViewer.getTargetEntity s
  /\ SceneViewer.orbitParamsRef s' = SceneViewer.orbitParamsRef s
  /\ SceneViewer.gizmoRootRef s' = SceneViewer.gizmoRootRef s.
Proof.
  cbv zeta. unfold SceneViewer.onMouseMove, SceneViewer.onMouseWheel,
    SceneViewer.onMouseUp.
  cbn [SceneViewer.isEditMode SceneViewer.isFreeLookingRef SceneViewer.isOrbitingRef
       SceneViewer.draggedAxisRef SceneViewer.set_isFreeLookingRef
       SceneViewer.set_isOrbitingRef SceneViewer.set_draggedAxisRef].
  rewrite andb_false_r.
  destruct (SceneViewer.isEditMode s); repeat split.
Qed.

(** X12. A drag of a rotate handle starts from the angles the engine reads
    back from the target's rotation when the button goes down; they are
    derived from the quaternion and need not be the triple that was set.  A
    pointer move with projected delta d then sets the Euler angle on the
    constrained axis to that start angle plus d x 20 degrees and the other
    two angles to their start values; position and scale are as the frames
    in between left them, and the inspector shows the same angles. *)
Theorem rotate_drag_adds_to_constrained_angle
  (a : Axis) (down move : SceneViewer.MouseEvent) (forward : pc.Vec3)
  (hitChar : option string) (steps : list System.DragStep)
  (s0 : SceneViewer.State) (target : SceneViewer.Entity)
  (gizmo : SceneViewer.GizmoRoot) :
  SceneViewer.isEditMode s0 = true ->
  SceneViewer.isFreeLookingRef s0 = false ->
  SceneViewer.isOrbitingRef s0 = false ->
  SceneViewer.leftButton down = true ->
  SceneViewer.getTargetEntity s0 = Some target ->
  SceneViewer.gizmoRootRef s0 = Some gizmo ->
  let s1 := SceneViewer.onMouseDown down forward
              (SceneViewer.mkHitTest
                 (Some (SceneViewer.gizmoAxis rotate a)) hitChar) s0 in
  let s2 := System.runDrag steps s1 in
  let s3 := SceneViewer.onMouseMove false move s2 in
  exists (g : SceneViewer.GizmoRoot) (before after : SceneViewer.Entity),
    SceneViewer.gizmoRootRef s2 = Some g
    /\ SceneViewer.dragStartValueRef s2
       = pc.getEulerAngles (SceneViewer.getRotation target)
    /\ SceneViewer.getTargetEntity s2 = Some before
    /\ SceneViewer.getTargetEntity s3 = Some after
    /\ let d := SceneViewer.dragProjectedDelta g
                  (JS.substringFrom (SceneViewer.gizmoAxis rotate a) 1) move s2 in
       SceneViewer.component a (SceneViewer.eulerAngles after)
       = (SceneViewer.component a (SceneViewer.getLocalEulerAngles target) + d * 20)%R
       /\ (forall b : Axis, b <> a ->
             SceneViewer.component b (SceneViewer.eulerAngles after)
             = SceneViewer.component b (SceneViewer.getLocalEulerAngles target))
       /\ SceneViewer.position after = SceneViewer.position before
       /\ SceneViewer.localScale after = SceneViewer.localScale before
       /\ SceneViewer.tRotation (SceneViewer.transforms s3)
          = SceneViewer.eulerAngles after.
Proof.
  intros He Hf Ho Hl Ht Hg s1 s2 s3.
  destruct (onMouseDown_gizmo rotate a down forward hitChar s0 target gizmo
              He Hf Ho Hl Ht Hg) as (Hdrag & _ & _).
  fold s1 in Hdrag.
  pose proof (runDrag_dragging rotate a _ steps s1 Hdrag) as Hdrag2.
  fold s2 in Hdrag2.
  pose proof Hdrag2 as (He2 & Hf2 & Ho2 & Hax2 & Hst2 & [g Hg2] & [t2 Ht2]).
  destruct (onMouseMove_dragging rotate a (SceneViewer.getLocalEulerAngles target) g move s2
              Hdrag2 Hg2) as (Ht3 & _ & _ & _).
  pose proof (onMouseMove_dragging_panel rotate a (SceneViewer.getLocalEulerAngles target)
                g move s2 Hdrag2 Hg2) as HT.
  fold s3 in Ht3, HT.
  rewrite Ht2 in Ht3. cbn [dragUpdate fmap option_fmap option_map] in Ht3.
  eexists g, t2, _. split; [exact Hg2|]. split; [exact Hst2|].
  split; [exact Ht2|]. split; [exact Ht3|].
  rewrite gizmoAxis_dir. cbv zeta in HT |- *.
  cbn [SceneViewer.eulerAngles SceneViewer.position SceneViewer.localScale
       SceneViewer.setLocalEulerAngles].
  rewrite HT, addOnAxis_letter.
  split; [apply component_setComponent_same|].
  split; [intros b Hb; apply component_setComponent_other, Hb|].
  repeat split.
Qed.

Lemma rotate_drag_adds_to_constrained_angle_witness :
  let s0 := SceneViewer.rebuildGizmo
              (SceneViewer.set_gizmoMode rotate Scenario.editing) in
  let s1 := SceneViewer.onMouseDown Scenario.press Scenario.forward
              (SceneViewer.mkHitTest
                 (Some (SceneViewer.gizmoAxis rotate Y)) None) s0 in
  let s2 := System.runDrag [System.Move Scenario.pullBack; System.Frame Scenario.idle] s1 in
  let s3 := SceneViewer.onMouseMove false Scenario.pullRight s2 in
  exists (g : SceneViewer.GizmoRoot) (before after : SceneViewer.Entity),
    SceneViewer.gizmoRootRef s2 = Some g
    /\ SceneViewer.dragStartValueRef s2
       = pc.getEulerAngles (SceneViewer.getRotation Scenario.body)
    /\ SceneViewer.getTargetEntity s2 = Some before
    /\ SceneViewer.getTargetEntity s3 = Some after
    /\ let d := SceneViewer.dragProjectedDelta g
                  (JS.substringFrom (SceneViewer.gizmoAxis rotate Y) 1)
                  Scenario.pullRight s2 in
       SceneViewer.component Y (SceneViewer.eulerAngles after)
       = (SceneViewer.component Y (SceneViewer.getLocalEulerAngles Scenario.body) + d * 20)%R
       /\ (forall b : Axis, b <> Y ->
             SceneViewer.component b (SceneViewer.eulerAngles after)
             = SceneViewer.component b (SceneViewer.getLocalEulerAngles Scenario.body))
       /\ SceneViewer.position after = SceneViewer.position before
       /\ SceneViewer.localScale after = SceneViewer.localScale before
       /\ SceneViewer.tRotation (SceneViewer.transforms s3)
          = SceneViewer.eulerAngles after.
Proof.
  assert (Ht : SceneViewer.getTargetEntity
                 (SceneViewer.rebuildGizmo
                    (SceneViewer.set_gizmoMode rotate Scenario.editing))
               = Some Scenario.body).
  { rewrite rebuildGizmo_target. exact editing_target. }
  exact (rotate_drag_adds_to_constrained_angle Y Scenario.press
           Scenario.pullRight Scenario.forward None
           [System.Move Scenario.pullBack; System.Frame Scenario.idle]
           (SceneViewer.rebuildGizmo
              (SceneViewer.set_gizmoMode rotate Scenario.editing))
           Scenario.body
           (SceneViewer.mkGizmoRoot (SceneViewer.position Scenario.body)
              (SceneViewer.getRotation Scenario.body) 1 rotate)
           eq_refl eq_refl eq_refl eq_refl Ht
           (rebuildGizmo_gizmo
              (SceneViewer.set_gizmoMode rotate Scenario.editing) character
              Scenario.body eq_refl eq_refl editing_target)).
Defined.

(** X13. A value typed into the inspector goes to the target, the panel and
    the gizmo together.  For position and scale the chosen component takes
    the value on the target and the other components stay.  For rotation the
    value is put into the angles the engine reads back from the target's
    rotation, which are derived from the quaternion and need not be the
    triple set before nor the one the panel shows, and the target is set to
    the three angles so obtained.  The panel changes only the typed
    component of what it showed, the other two transforms of the target
    stay, and a gizmo that exists is put at the target's new position and
    rotation with its size unchanged.  Without a target nothing changes. *)
Theorem typed_value_reaches_target_panel_and_gizmo
  (ty : SceneViewer.TransformType) (a : Axis) (value : R)
  (s : SceneViewer.State) :
  let s' := SceneViewer.handleTransformChange ty a value s in
  let typed (on : SceneViewer.TransformType) (v : pc.Vec3) :=
    match ty, on with
    | SceneViewer.tposition, SceneViewer.tposition
    | SceneViewer.trotation, SceneViewer.trotation
    | SceneViewer.tscale, SceneViewer.tscale => SceneViewer.setComponent a value v
    | _, _ => v
    end in
  match SceneViewer.getTargetEntity s with
  | None => s' = s
  | Some t =>
      exists t',
        SceneViewer.getTargetEntity s' = Some t'
        /\ SceneViewer.position t'
           = typed SceneViewer.tposition (SceneViewer.position t)
        /\ SceneViewer.eulerAngles t'
           = match ty with
             | SceneViewer.trotation =>
                 SceneViewer.setComponent a value
                   (pc.getEulerAngles (SceneViewer.getRotation t))
             | _ => SceneViewer.eulerAngles t
             end
        /\ SceneViewer.localScale t'
           = typed SceneViewer.tscale (SceneViewer.localScale t)
        /\ SceneViewer.tPosition (SceneViewer.transforms s')
           = typed SceneViewer.tposition
               (SceneViewer.tPosition (SceneViewer.transforms s))
        /\ SceneViewer.tRotation (SceneViewer.transforms s')
           = typed SceneViewer.trotation
               (SceneViewer.tRotation (SceneViewer.transforms s))
        /\ SceneViewer.tScale (SceneViewer.transforms s')
           = typed SceneViewer.tscale
               (SceneViewer.tScale (SceneViewer.transforms s))
        /\ match SceneViewer.gizmoRootRef s with
           | None => SceneViewer.gizmoRootRef s' = None
           | Some g =>
               SceneViewer.gizmoRootRef s'
               = Some (SceneViewer.mkGizmoRoot (SceneViewer.position t')
                         (SceneViewer.getRotation t') (SceneViewer.gizmoScale g)
                         (SceneViewer.gizmoParts g))
           end
  end.
Proof.
  cbv zeta. unfold SceneViewer.handleTransformChange.
  destruct (SceneViewer.getTargetEntity s) as [t|] eqn:Ht; [|reflexivity].
  cbv zeta.
  set (f := fun e : SceneViewer.Entity =>
              match ty with
              | SceneViewer.tposition =>
                  SceneViewer.setPosition
                    (SceneViewer.setComponent a value (SceneViewer.position e)) e
              | SceneViewer.trotation =>
                  SceneViewer.setLocalEulerAngles
                    (SceneViewer.setComponent a value
                       (SceneViewer.getLocalEulerAngles e)) e
              | SceneViewer.tscale =>
                  SceneViewer.setLocalScale
                    (SceneViewer.setComponent a value (SceneViewer.localScale e)) e
              end).
  set (T := match ty with
            | SceneViewer.tposition => _
            | SceneViewer.trotation => _
            | SceneViewer.tscale => _
            end).
  set (u := SceneViewer.updateTarget f (SceneViewer.set_transforms T s)).
  assert (Hu : SceneViewer.getTargetEntity u = Some (f t)).
  { unfold u. rewrite getTarget_updateTarget.
    change (SceneViewer.getTargetEntity (SceneViewer.set_transforms T s))
      with (SceneViewer.getTargetEntity s).
    rewrite Ht. reflexivity. }
  destruct (updateTarget_frame f (SceneViewer.set_transforms T s))
    as (_ & _ & _ & _ & _ & Hgz).
  fold u in Hgz. cbn [SceneViewer.gizmoRootRef SceneViewer.set_transforms] in Hgz.
  assert (Htr : SceneViewer.transforms u = T).
  { unfold u, SceneViewer.updateTarget.
    cbn [SceneViewer.selectedTarget SceneViewer.activeCharacterId
         SceneViewer.set_transforms].
    destruct (SceneViewer.selectedTarget s) as [[]|]; [reflexivity| |reflexivity].
    destruct (SceneViewer.activeCharacterId s) as [cid|]; [|reflexivity].
    destruct (JS.truthy cid); reflexivity. }
  rewrite <- Hgz.
  assert (Hf : SceneViewer.position (f t)
               = match ty with
                 | SceneViewer.tposition =>
                     SceneViewer.setComponent a value (SceneViewer.position t)
                 | _ => SceneViewer.position t
                 end
               /\ SceneViewer.eulerAngles (f t)
                  = match ty with
                    | SceneViewer.trotation =>
                        SceneViewer.setComponent a value
                          (pc.getEulerAngles (SceneViewer.getRotation t))
                    | _ => SceneViewer.eulerAngles t
                    end
               /\ SceneViewer.localScale (f t)
                  = match ty with
                    | SceneViewer.tscale =>
                        SceneViewer.setComponent a value (SceneViewer.localScale t)
                    | _ => SceneViewer.localScale t
                    end).
  { unfold f. destruct ty; repeat split. }
  destruct Hf as (Hf1 & Hf2 & Hf3).
  assert (HT : SceneViewer.tPosition T
               = match ty with
                 | SceneViewer.tposition =>
                     SceneViewer.setComponent a value
                       (SceneViewer.tPosition (SceneViewer.transforms s))
                 | _ => SceneViewer.tPosition (SceneViewer.transforms s)
                 end
               /\ SceneViewer.tRotation T
                  = match ty with
                    | SceneViewer.trotation =>
                        SceneViewer.setComponent a value
                          (SceneViewer.tRotation (SceneViewer.transforms s))
                    | _ => SceneViewer.tRotation (SceneViewer.transforms s)
                    end
               /\ SceneViewer.tScale T
                  = match ty with
                    | SceneViewer.tscale =>
                        SceneViewer.setComponent a value
                          (SceneViewer.tScale (SceneViewer.transforms s))
                    | _ => SceneViewer.tScale (SceneViewer.transforms s)
                    end).
  { unfold T. destruct ty; repeat split. }
  destruct HT as (HT1 & HT2 & HT3).
  exists (f t).
  destruct (SceneViewer.gizmoRootRef u) as [g0|] eqn:Hgu;
    cbn [SceneViewer.transforms SceneViewer.set_gizmoRootRef
         SceneViewer.gizmoRootRef];
    rewrite ?Htr, Hf1, Hf2, Hf3, HT1, HT2, HT3;
    (split; [exact Hu|]); destruct ty; repeat split; try exact Hgu.
Qed.

(** X14. A frame puts an existing gizmo on the target: at the target's
    position and rotation, and sized to a fifth of the camera distance but
    never below 0.1, so that it keeps its size on screen and can always be
    grabbed. *)
Theorem frame_puts_gizmo_on_target (f : SceneViewer.FrameInput)
  (s : SceneViewer.State) (g : SceneViewer.GizmoRoot) (t : SceneViewer.Entity)
  (Hg : SceneViewer.gizmoRootRef s = Some g)
  (Ht : SceneViewer.getTargetEntity s = Some t) :
  exists g',
    SceneViewer.gizmoRootRef (SceneViewer.update f s) = Some g'
    /\ SceneViewer.gizmoPosition g' = SceneViewer.position t
    /\ SceneViewer.gizmoRotation g' = SceneViewer.getRotation t
    /\ SceneViewer.gizmoScale g'
       = Rmax 0.1
           (pc.length (pc.sub (SceneViewer.cameraPosition (SceneViewer.cameraEntity s))
                              (SceneViewer.position t)) * 0.2)
    /\ (0.1 <= SceneViewer.gizmoScale g')%R
    /\ SceneViewer.gizmoParts g' = SceneViewer.gizmoParts g.
Proof.
  unfold SceneViewer.update.
  destruct (update_after_gizmo f (SceneViewer.updateGizmo s))
    as (_ & _ & _ & _ & _ & Hgz & _).
  cbv zeta in Hgz. rewrite Hgz.
  destruct (getTarget_selected s t Ht) as (sel & Hsel).
  unfold SceneViewer.updateGizmo. rewrite Hg, Hsel, Ht.
  eexists. split; [reflexivity|].
  cbn [SceneViewer.gizmoPosition SceneViewer.gizmoRotation SceneViewer.gizmoScale
       SceneViewer.gizmoParts].
  repeat split. apply Rmax_l.
Qed.

Lemma frame_puts_gizmo_on_target_witness :
  exists g',
    SceneViewer.gizmoRootRef (SceneViewer.update Scenario.idle Scenario.editing)
    = Some g'
    /\ SceneViewer.gizmoPosition g' = SceneViewer.position Scenario.body
    /\ (0.1 <= SceneViewer.gizmoScale g')%R.
Proof.
  destruct (frame_puts_gizmo_on_target Scenario.idle Scenario.editing _
              Scenario.body editing_gizmo editing_target)
    as (g' & H1 & H2 & _ & _ & H5 & _).
  exists g'. auto.
Defined.

(** X15. A frame turns every 2D character about the vertical only, towards
    the camera: its pitch and roll are zero and its yaw is the bearing of
    the camera from it; every 3D character is left as it is, and no
    character is moved, resized, added or dropped. *)
Theorem frame_turns_billboards_about_vertical (f : SceneViewer.FrameInput)
  (s : SceneViewer.State) (cid : string) :
  match SceneViewer.characterEntitiesMap s !! cid with
  | None => SceneViewer.characterEntitiesMap (SceneViewer.update f s) !! cid = None
  | Some e =>
      exists e',
        SceneViewer.characterEntitiesMap (SceneViewer.update f s) !! cid = Some e'
        /\ SceneViewer.position e' = SceneViewer.position e
        /\ SceneViewer.localScale e' = SceneViewer.localScale e
        /\ SceneViewer.eulerAngles e'
           = (if SceneViewer.is2DBillboard e
              then pc.mkVec3 0
                     (pc.atan2
                        (pc.vx (SceneViewer.cameraPosition (SceneViewer.cameraEntity s))
                         - pc.vx (SceneViewer.position e))
                        (pc.vz (SceneViewer.cameraPosition (SceneViewer.cameraEntity s))
                         - pc.vz (SceneViewer.position e))
                      * pc.RAD_TO_DEG) 0
              else SceneViewer.eulerAngles e)
  end.
Proof.
  assert (Hmap : SceneViewer.characterEntitiesMap (SceneViewer.update f s)
                 = SceneViewer.billboard
                     (SceneViewer.cameraPosition (SceneViewer.cameraEntity s))
                   <$> SceneViewer.characterEntitiesMap s).
  { unfold SceneViewer.update, SceneViewer.updateMouseLook,
      SceneViewer.updateMovement.
    set (u := SceneViewer.updateBillboards (SceneViewer.updateGizmo s)).
    assert (Hu : SceneViewer.characterEntitiesMap u
                 = SceneViewer.billboard
                     (SceneViewer.cameraPosition (SceneViewer.cameraEntity s))
                   <$> SceneViewer.characterEntitiesMap s).
    { unfold u, SceneViewer.updateBillboards, SceneViewer.updateGizmo.
      destruct (SceneViewer.gizmoRootRef s); [|reflexivity].
      destruct (SceneViewer.selectedTarget s); [|reflexivity].
      destruct (SceneViewer.getTargetEntity s); reflexivity. }
    rewrite <- Hu.
    destruct (SceneViewer.isLocked u || SceneViewer.isEditMode u);
      [destruct (_ || _ || _)|];
      match goal with
      | |- context [if ?c then _ else _] => destruct c
      end; reflexivity. }
  rewrite Hmap, lookup_fmap.
  destruct (SceneViewer.characterEntitiesMap s !! cid) as [e|]; [|reflexivity].
  cbn [fmap option_fmap option_map]. eexists. split; [reflexivity|].
  unfold SceneViewer.billboard.
  destruct (SceneViewer.is2DBillboard e); repeat split.
Qed.

(** ** The environment (SceneViewer.tsx, EditorPanel.tsx) *)

Section EnvironmentFacts.
Import pc Environment.
Local Open Scope R_scope.








Lemma hash_not_hex : hexDigit "#" = None.
Proof. reflexivity. Qed.



Lemma endsWith_exclusive (s a b : string) :
  String.length a = String.length b -> a <> b ->
  JS.endsWith s a = true -> JS.endsWith s b = false.
Proof.
  unfold JS.endsWith. intros Hlen Hab H.
  apply andb_true_iff in H as [_ H]. apply String.eqb_eq in H.
  rewrite <- Hlen, H. apply andb_false_iff. right.
  apply String.eqb_neq, Hab.
Qed.

End EnvironmentFacts.


(** X17. Applying the environment settings is idempotent, so that running
    the effect again for the same settings changes nothing.  Once the
    occlusion script is loaded, the camera carries an occlusion instance
    exactly when occlusion is enabled, with the radius and intensity of the
    settings; an instance that was there keeps its sample count.  Disabling
    fog only switches it off: colour and density stay as they were. *)
Theorem environment_settings_apply_idempotently
  (env : Environment.EnvironmentState) (ssaoScriptLoaded : bool)
  (r : Environment.Rendering) :
  let r' := Environment.environmentEffect env ssaoScriptLoaded r in
  Environment.environmentEffect env ssaoScriptLoaded r' = r'
  /\ (if ssaoScriptLoaded
      then match Environment.ssao r' with
           | Some o =>
               Environment.aoEnabled env = true
               /\ Environment.radius o = Environment.aoRadius env
               /\ Environment.intensity o = Environment.aoIntensity env
               /\ Environment.samples o
                  = match Environment.ssao r with
                    | Some old => Environment.samples old
                    | None => 16%R
                    end
           | None => Environment.aoEnabled env = false
           end
      else Environment.ssao r' = Environment.ssao r)
  /\ (if Environment.fogEnabled env
      then Environment.fog r' = Environment.FOG_EXP2
           /\ Environment.sceneFogColor r'
              = Environment.hexToPcColor (Environment.fogColor env)
           /\ Environment.sceneFogDensity r' = Environment.fogDensity env
      else Environment.fog r' = Environment.FOG_NONE
           /\ Environment.sceneFogColor r' = Environment.sceneFogColor r
           /\ Environment.sceneFogDensity r' = Environment.sceneFogDensity r).
Proof.
  cbv zeta. unfold Environment.environmentEffect.
  cbn [Environment.ssao Environment.fog Environment.sceneFogColor
       Environment.sceneFogDensity].
  split; [|split].
  - destruct ssaoScriptLoaded, (Environment.aoEnabled env),
      (Environment.fogEnabled env), (Environment.ssao r); reflexivity.
  - destruct ssaoScriptLoaded; [|reflexivity].
    destruct (Environment.aoEnabled env); [|reflexivity].
    destruct (Environment.ssao r); repeat split.
  - destruct (Environment.fogEnabled env); repeat split.
Qed.

(** X18. A preset skybox is loaded once: when the effect starts a load for
    a preset and that load delivers its texture, running the effect again
    for the same settings starts nothing; while the texture has not come,
    the same load would be started again.  A custom map is loaded again at
    every run, whatever is current. *)
Theorem preset_skybox_loaded_once (env : Environment.EnvironmentState)
  (current : option string) (asset : Environment.SkyboxAsset)
  (Hload : Environment.skyboxEffect env current = Some asset) :
  if String.eqb (Environment.skyboxId env) "custom"
  then forall other, Environment.skyboxEffect env other = Some asset
  else Environment.assetName asset = Environment.skyboxId env
       /\ Environment.SKYBOX_URLS !! Environment.skyboxId env
          = Some (Environment.assetUrl asset)
       /\ Environment.skyboxEffect env (Environment.skyboxReady asset true current)
          = None
       /\ Environment.skyboxEffect env (Environment.skyboxReady asset false current)
          = Some asset.
Proof.
  unfold Environment.skyboxEffect in *.
  destruct (String.eqb (Environment.skyboxId env) "custom").
  - intros other. exact Hload.
  - destruct (Environment.SKYBOX_URLS !! Environment.skyboxId env) as [url|];
      [|discriminate].
    destruct (JS.truthy url); [|discriminate].
    destruct (bool_decide (current = Some (Environment.skyboxId env))) eqn:Hc;
      [discriminate|].
    injection Hload as <-. cbn [Environment.skyboxReady Environment.assetName
                               Environment.assetUrl Environment.skyboxAssetFor].
    rewrite Hc. repeat split.
    rewrite bool_decide_true; reflexivity.
Qed.

Lemma preset_skybox_loaded_once_witness :
  let env := Environment.mkEnvironmentState "helipad" None None 1 0 1 60 2
               false "#ffffff" 0.01 false 1 1 in
  exists asset,
    Environment.skyboxEffect env None = Some asset
    /\ Environment.cube asset = true
    /\ Environment.skyboxEffect env (Environment.skyboxReady asset true None) = None.
Proof.
  intros env.
  assert (Hload : Environment.skyboxEffect env None
                  = Some (Environment.skyboxAssetFor false "helipad"
                            "/cubemaps/helipad.dds" "/cubemaps/helipad.dds"))
    by (vm_compute; reflexivity).
  eexists. split; [exact Hload|]. split; [reflexivity|].
  pose proof (preset_skybox_loaded_once env None _ Hload) as H.
  change (String.eqb (Environment.skyboxId env) "custom") with false in H.
  cbv iota in H. exact (proj1 (proj2 (proj2 H))).
Defined.

(** X19. Choosing a file as custom environment map always starts a load of
    its blob URL, under the asset name custom-skybox, whatever map was
    current and whatever the settings were.  The treatment goes by the file
    name, in any letter case: .dds is a cube map of RGBM type, .hdr and .exr
    are equirectangular maps of RGBE type with the radiance MIME type, and
    anything else is an equirectangular map of no declared type. *)
Theorem custom_skybox_upload_always_loads (fileName url : string)
  (env : Environment.EnvironmentState) (current : option string)
  (Hurl : JS.truthy url = true) (Hname : JS.truthy fileName = true) :
  let env' := Environment.handleCustomSkyboxUpload fileName url env in
  let lower := JS.toLowerCase fileName in
  exists asset,
    Environment.skyboxEffect env' current = Some asset
    /\ Environment.assetName asset = "custom-skybox"%string
    /\ Environment.assetUrl asset = url
    /\ (Environment.textureType asset, Environment.mime asset, Environment.cube asset)
       = (if JS.endsWith lower ".dds"
          then (Some Environment.TEXTURETYPE_RGBM, None, true)
          else if JS.endsWith lower ".hdr" || JS.endsWith lower ".exr"
               then (Some Environment.TEXTURETYPE_RGBE,
                     Some "image/vnd.radiance"%string, false)
               else (None, None, false)).
Proof.
  cbv zeta. unfold Environment.skyboxEffect, Environment.handleCustomSkyboxUpload.
  cbn [Environment.skyboxId Environment.customSkyboxUrl
       Environment.customSkyboxFileName].
  change (String.eqb "custom" "custom") with true. cbv iota.
  rewrite Hurl. unfold JS.orElse. cbn [JS.truthyOpt]. rewrite Hname.
  eexists. split; [reflexivity|].
  unfold Environment.skyboxAssetFor.
  cbn [Environment.assetName Environment.assetUrl Environment.textureType
       Environment.mime Environment.cube].
  split; [reflexivity|]. split; [reflexivity|].
  destruct (JS.endsWith (JS.toLowerCase fileName) ".dds") eqn:Hdds.
  - assert (H1 : JS.endsWith (JS.toLowerCase fileName) ".hdr" = false)
      by (apply (endsWith_exclusive _ ".dds"); [reflexivity|discriminate|exact Hdds]).
    assert (H2 : JS.endsWith (JS.toLowerCase fileName) ".exr" = false)
      by (apply (endsWith_exclusive _ ".dds"); [reflexivity|discriminate|exact Hdds]).
    rewrite H1, H2. reflexivity.
  - destruct (JS.endsWith (JS.toLowerCase fileName) ".hdr"
              || JS.endsWith (JS.toLowerCase fileName) ".exr"); reflexivity.
Qed.

Lemma custom_skybox_upload_always_loads_witness :
  let env := Environment.mkEnvironmentState "helipad" None None 1 0 1 60 2
               false "#ffffff" 0.01 false 1 1 in
  exists asset,
    Environment.skyboxEffect
      (Environment.handleCustomSkyboxUpload "Studio.HDR" "blob:7" env)
      (Some "helipad"%string) = Some asset
    /\ Environment.textureType asset = Some Environment.TEXTURETYPE_RGBE.
Proof.
  intros env.
  destruct (custom_skybox_upload_always_loads "Studio.HDR" "blob:7" env
              (Some "helipad"%string) eq_refl eq_refl)
    as (asset & H1 & _ & _ & H4).
  exists asset. split; [exact H1|].
  change (JS.endsWith (JS.toLowerCase "Studio.HDR") ".dds") with false in H4.
  change (JS.endsWith (JS.toLowerCase "Studio.HDR") ".hdr"
          || JS.endsWith (JS.toLowerCase "Studio.HDR") ".exr") with true in H4.
  cbv iota in H4. congruence.
Defined.

(** ** Focus, picking and the registries (SceneViewer.tsx) *)

Section ViewerFacts.
Import pc SceneViewer Viewer.
Local Open Scope R_scope.

Lemma dot_nonneg (v : Vec3) : 0 <= dot v v.
Proof. destruct v as [x y z]. unfold dot. cbn [vx vy vz]. nra. Qed.

Lemma length_mulScalar (v : Vec3) (k : R) :
  0 <= k -> length (mulScalar v k) = k * length v.
Proof.
  intros Hk. unfold length.
  replace (dot (mulScalar v k) (mulScalar v k)) with (k * k * dot v v)
    by (destruct v; unfold dot, mulScalar; cbn [vx vy vz]; ring).
  rewrite sqrt_mult; [|nra|apply dot_nonneg].
  rewrite sqrt_square by exact Hk. reflexivity.
Qed.

Lemma normalize_length (v : Vec3) :
  0 < dot v v -> length (normalize v) = 1.
Proof.
  intros Hv. unfold normalize.
  destruct (Rlt_dec 0 (dot v v)) as [_|Hn]; [|contradiction].
  assert (Hs : 0 < sqrt (dot v v)) by (apply sqrt_lt_R0, Hv).
  rewrite length_mulScalar.
  - unfold length. field. lra.
  - apply Rlt_le. apply Rdiv_lt_0_compat; lra.
Qed.

(** The direction [handleFocus] moves the camera along has length one. *)
Lemma focus_direction_unit (v : Vec3) :
  length (if Req_dec_T (length (normalize v)) 0 then mkVec3 0 0 1 else normalize v)
  = 1.
Proof.
  destruct (Rlt_dec 0 (dot v v)) as [Hv|Hv].
  - rewrite (normalize_length v Hv).
    destruct (Req_dec_T 1 0) as [H|_]; [lra|]. exact (normalize_length v Hv).
  - assert (H0 : dot v v = 0) by (pose proof (dot_nonneg v); lra).
    assert (Hn : normalize v = v).
    { unfold normalize. destruct (Rlt_dec 0 (dot v v)); [contradiction|reflexivity]. }
    assert (Hl : length v = 0) by (unfold length; rewrite H0; apply sqrt_0).
    rewrite Hn, Hl.
    destruct (Req_dec_T 0 0) as [_|H]; [|contradiction].
    unfold length, dot. cbn [vx vy vz].
    replace (0 * 0 + 0 * 0 + 1 * 1) with 1 by ring. apply sqrt_1.
Qed.

End ViewerFacts.

(** X20. Focusing puts the camera exactly four units from the target,
    looking at it, on the line from the target through where the camera was
    (or straight along +Z when it was at the target); the orbit parameters
    are re-seeded with that pivot and radius, the look angles get no roll,
    and the target is not touched.  Without a target nothing changes. *)
Theorem focus_puts_camera_four_units_away (euler : pc.Vec3)
  (s : SceneViewer.State) :
  let s' := Viewer.handleFocus euler s in
  match SceneViewer.getTargetEntity s with
  | None => s' = s
  | Some t =>
      let from := pc.sub (SceneViewer.cameraPosition (SceneViewer.cameraEntity s))
                         (SceneViewer.position t) in
      let dir := if Req_dec_T (pc.length from) 0 then pc.mkVec3 0 0 1
                 else pc.mulScalar from (1 / pc.length from) in
      SceneViewer.cameraPosition (SceneViewer.cameraEntity s')
      = pc.add (SceneViewer.position t) (pc.mulScalar dir 4)
      /\ pc.length (pc.sub (SceneViewer.cameraPosition (SceneViewer.cameraEntity s'))
                           (SceneViewer.position t)) = 4%R
      /\ SceneViewer.cameraOrientation (SceneViewer.cameraEntity s')
         = SceneViewer.LookAt (SceneViewer.position t)
      /\ SceneViewer.radius (SceneViewer.orbitParamsRef s') = 4%R
      /\ SceneViewer.targetPivot (SceneViewer.orbitParamsRef s')
         = SceneViewer.position t
      /\ SceneViewer.mouseLookEulerRef s'
         = pc.mkVec3 (pc.vx euler) (pc.vy euler) 0
      /\ SceneViewer.getTargetEntity s' = Some t
  end.
Proof.
  cbv zeta. unfold Viewer.handleFocus.
  destruct (SceneViewer.getTargetEntity s) as [t|] eqn:Ht; [|reflexivity].
  cbv zeta.
  set (v := pc.sub (SceneViewer.cameraPosition (SceneViewer.cameraEntity s))
                   (SceneViewer.position t)).
  set (dir := if Req_dec_T (pc.length (pc.normalize v)) 0 then pc.mkVec3 0 0 1
              else pc.normalize v).
  set (newPos := pc.add (SceneViewer.position t) (pc.mulScalar dir 4)).
  set (u := SceneViewer.set_mouseLookEulerRef _ (SceneViewer.set_cameraEntity _ s)).
  assert (Hu : SceneViewer.getTargetEntity u = Some t) by exact Ht.
  unfold SceneViewer.syncOrbitParamsToCamera. rewrite Hu, orbitParamsFrom_defined.
  assert (Hlen : pc.length (pc.sub newPos (SceneViewer.position t)) = 4%R).
  { unfold newPos. rewrite sub_add_cancel, length_mulScalar by lra.
    unfold dir. rewrite focus_direction_unit. ring. }
  assert (Hdir : dir = if Req_dec_T (pc.length v) 0 then pc.mkVec3 0 0 1
                       else pc.mulScalar v (1 / pc.length v)).
  { unfold dir. destruct (Rlt_dec 0 (pc.dot v v)) as [Hv|Hv].
    - rewrite (normalize_length v Hv).
      destruct (Req_dec_T 1 0) as [H|_]; [lra|].
      assert (Hs : (0 < pc.length v)%R) by (apply sqrt_lt_R0, Hv).
      destruct (Req_dec_T (pc.length v) 0) as [H|_]; [lra|].
      unfold pc.normalize. destruct (Rlt_dec 0 (pc.dot v v)); [reflexivity|contradiction].
    - assert (H0 : pc.dot v v = 0%R) by (pose proof (dot_nonneg v); lra).
      assert (Hn : pc.normalize v = v).
      { unfold pc.normalize.
        destruct (Rlt_dec 0 (pc.dot v v)); [contradiction|reflexivity]. }
      rewrite Hn.
      assert (Hl : pc.length v = 0%R) by (unfold pc.length; rewrite H0; apply sqrt_0).
      rewrite Hl. destruct (Req_dec_T 0 0) as [_|H]; [reflexivity|contradiction]. }
  rewrite <- Hdir. fold newPos.
  split; [reflexivity|]. split; [exact Hlen|]. split; [reflexivity|].
  split; [exact Hlen|]. split; [reflexivity|]. split; [reflexivity|].
  exact Hu.
Qed.

Section PickingFacts.
Import pc SceneViewer Viewer.
Local Open Scope R_scope.

(** The loop of a hit test once a first box has been met. *)
Lemma closest_from (l : list Candidate) (d : R) (h : option string) :
  (closest l (Some d) h = h
   /\ Forall (fun c => intersects c = false \/ d <= centerDistance c) l)
  \/ exists pre c post,
       l = (pre ++ c :: post)%list
       /\ closest l (Some d) h = Some (owner c)
       /\ intersects c = true
       /\ centerDistance c < d
       /\ Forall (fun c' => intersects c' = false
                            \/ centerDistance c <= centerDistance c') l
       /\ Forall (fun c' => intersects c' = false
                            \/ centerDistance c < centerDistance c') pre.
Proof.
  revert d h. induction l as [|c l IH]; intros d h.
  - left. split; [reflexivity|constructor].
  - cbn [closest].
    destruct (intersects c) eqn:Hc; cbn [andb].
    + destruct (Rlt_dec (centerDistance c) d) as [Hlt|Hge].
      * right.
        destruct (IH (centerDistance c) (Some (owner c)))
          as [[Hres Hall]|(pre & c2 & post & -> & Hres & Hc2 & Hlt2 & Hmin & Hpre)].
        -- exists [], c, l. cbn [app].
           split; [reflexivity|]. split; [exact Hres|]. split; [exact Hc|].
           split; [exact Hlt|]. split; [|constructor].
           constructor; [right; lra|exact Hall].
        -- exists (c :: pre), c2, post.
           split; [reflexivity|]. split; [exact Hres|]. split; [exact Hc2|].
           split; [lra|]. split.
           ++ constructor; [right; lra|exact Hmin].
           ++ constructor; [right; exact Hlt2|exact Hpre].
      * destruct (IH d h)
          as [[Hres Hall]|(pre & c2 & post & -> & Hres & Hc2 & Hlt2 & Hmin & Hpre)].
        -- left. split; [exact Hres|]. constructor; [right; lra|exact Hall].
        -- right. exists (c :: pre), c2, post.
           split; [reflexivity|]. split; [exact Hres|]. split; [exact Hc2|].
           split; [exact Hlt2|]. split.
           ++ constructor; [right; lra|exact Hmin].
           ++ constructor; [right; lra|exact Hpre].
    + destruct (IH d h)
        as [[Hres Hall]|(pre & c2 & post & -> & Hres & Hc2 & Hlt2 & Hmin & Hpre)].
      * left. split; [exact Hres|]. constructor; [left; exact Hc|exact Hall].
      * right. exists (c :: pre), c2, post.
        split; [reflexivity|]. split; [exact Hres|]. split; [exact Hc2|].
        split; [exact Hlt2|]. split.
        -- constructor; [left; exact Hc|exact Hmin].
        -- constructor; [left; exact Hc|exact Hpre].
Qed.

End PickingFacts.

(** X21. A hit test picks a nearest box the pointer ray meets: the owner it
    reports belongs to a box that is met, no met box has its centre nearer
    to the camera, and every met box visited before it is strictly farther,
    so that of two boxes at the same distance the one visited first wins.
    It reports nothing exactly when no box is met. *)
Theorem hit_test_picks_nearest (l : list Viewer.Candidate) :
  match Viewer.closest l None None with
  | Some o =>
      exists pre c post,
        l = (pre ++ c :: post)%list
        /\ Viewer.owner c = o
        /\ Viewer.intersects c = true
        /\ Forall (fun c' => Viewer.intersects c' = false
                             \/ (Viewer.centerDistance c <= Viewer.centerDistance c')%R) l
        /\ Forall (fun c' => Viewer.intersects c' = false
                             \/ (Viewer.centerDistance c < Viewer.centerDistance c')%R) pre
  | None => Forall (fun c => Viewer.intersects c = false) l
  end.
Proof.
  induction l as [|c l IH].
  - constructor.
  - cbn [Viewer.closest]. destruct (Viewer.intersects c) eqn:Hc; cbn [andb].
    + destruct (closest_from l (Viewer.centerDistance c) (Some (Viewer.owner c)))
        as [[Hres Hall]|(pre & c2 & post & -> & Hres & Hc2 & Hlt2 & Hmin & Hpre)].
      * rewrite Hres. exists [], c, l.
        split; [reflexivity|]. split; [reflexivity|]. split; [exact Hc|].
        split; [|constructor].
        constructor; [right; lra|exact Hall].
      * rewrite Hres. exists (c :: pre), c2, post.
        split; [reflexivity|]. split; [reflexivity|]. split; [exact Hc2|].
        split.
        -- constructor; [right; lra|exact Hmin].
        -- constructor; [right; exact Hlt2|exact Hpre].
    + destruct (Viewer.closest l None None) as [o|].
      * destruct IH as (pre & c2 & post & -> & Ho & Hc2 & Hmin & Hpre).
        exists (c :: pre), c2, post.
        split; [reflexivity|]. split; [exact Ho|]. split; [exact Hc2|].
        split.
        -- constructor; [left; exact Hc|exact Hmin].
        -- constructor; [left; exact Hc|exact Hpre].
      * constructor; [exact Hc|exact IH].
Qed.

Section RegistryFacts.
Import pc SceneViewer.
Local Open Scope R_scope.

(** What the removal loop leaves alone. *)
Lemma removeVisit_frame (ids : gset string) (s0 : State) (cid : string)
  (x : Entity) (r : State) :
  let r' := removeVisit ids s0 cid x r in
  cameraEntity r' = cameraEntity r
  /\ splatEntityRef r' = splatEntityRef r
  /\ rootSplats r' = rootSplats r
  /\ gizmoRootRef r' = gizmoRootRef r
  /\ orbitParamsRef r' = orbitParamsRef r
  /\ isEditMode r' = isEditMode r
  /\ gizmoMode r' = gizmoMode r
  /\ sceneLoadVersion r' = sceneLoadVersion r.
Proof.
  cbv zeta. unfold removeVisit.
  destruct (decide (cid ∈ ids)); [repeat split|].
  destruct (decide (activeCharacterId s0 = Some cid)); [|repeat split].
  destruct (selectedTarget s0) as [[]|]; repeat split.
Qed.

Lemma removeDeleted_frame (characters : list Character) (s : State) :
  let r := removeDeleted characters s in
  cameraEntity r = cameraEntity s
  /\ splatEntityRef r = splatEntityRef s
  /\ rootSplats r = rootSplats s
  /\ gizmoRootRef r = gizmoRootRef s
  /\ orbitParamsRef r = orbitParamsRef s
  /\ isEditMode r = isEditMode s
  /\ gizmoMode r = gizmoMode s
  /\ sceneLoadVersion r = sceneLoadVersion s.
Proof.
  cbv zeta. unfold removeDeleted.
  apply (map_fold_weak_ind
           (fun r (_ : gmap string Entity) =>
              cameraEntity r = cameraEntity s
              /\ splatEntityRef r = splatEntityRef s
              /\ rootSplats r = rootSplats s
              /\ gizmoRootRef r = gizmoRootRef s
              /\ orbitParamsRef r = orbitParamsRef s
              /\ isEditMode r = isEditMode s
              /\ gizmoMode r = gizmoMode s
              /\ sceneLoadVersion r = sceneLoadVersion s)).
  - repeat split.
  - intros i x m r _ (H1 & H2 & H3 & H4 & H5 & H6 & H7 & H8).
    destruct (removeVisit_frame (currentIds characters) s i x r)
      as (F1 & F2 & F3 & F4 & F5 & F6 & F7 & F8).
    rewrite F1, F2, F3, F4, F5, F6, F7, F8. repeat split; assumption.
Qed.

(** The registry after the removal loop, entry by entry. *)
Lemma removeDeleted_lookup (characters : list Character) (s : State) (k : string) :
  characterEntitiesMap (removeDeleted characters s) !! k
  = if decide (k ∈ currentIds characters) then characterEntitiesMap s !! k
    else None.
Proof.
  unfold removeDeleted.
  set (ids := currentIds characters).
  set (P := fun (r : State) (m : gmap string Entity) =>
              characterEntitiesMap r !! k
              = if decide (k ∈ ids) then characterEntitiesMap s !! k
                else match m !! k with
                     | Some _ => None
                     | None => characterEntitiesMap s !! k
                     end).
  assert (H : P (map_fold (removeVisit ids s) s (characterEntitiesMap s))
                (characterEntitiesMap s)).
  { apply (map_fold_weak_ind P); unfold P.
    - rewrite lookup_empty. destruct (decide (k ∈ ids)); reflexivity.
    - intros i x m r Hi IH. rewrite removeVisit_map.
      destruct (decide (i ∈ ids)) as [Hin|Hout].
      + rewrite IH. destruct (decide (k ∈ ids)) as [Hk|Hk]; [reflexivity|].
        rewrite lookup_insert_ne; [reflexivity|]. intros ->. contradiction.
      + destruct (decide (k = i)) as [->|Hne].
        * rewrite lookup_delete_eq, lookup_insert_eq.
          destruct (decide (i ∈ ids)); [contradiction|reflexivity].
        * rewrite lookup_delete_ne by congruence. rewrite IH.
          rewrite lookup_insert_ne by congruence. reflexivity. }
  unfold P in H. rewrite H.
  destruct (decide (k ∈ ids)); [reflexivity|].
  destruct (characterEntitiesMap s !! k); reflexivity.
Qed.

(** A removal loop that meets listed ids only does nothing. *)
Lemma removeVisit_fold_listed (ids : gset string) (s0 acc : State)
  (m : gmap string Entity) :
  (forall k, is_Some (m !! k) -> k ∈ ids) ->
  map_fold (removeVisit ids s0) acc m = acc.
Proof.
  apply (map_fold_weak_ind
           (fun r (m : gmap string Entity) =>
              (forall k, is_Some (m !! k) -> k ∈ ids) -> r = acc)).
  - reflexivity.
  - intros i x m' r Hi IH Hkeys.
    unfold removeVisit. destruct (decide (i ∈ ids)) as [_|Hout].
    + apply IH. intros k Hk. apply Hkeys.
      rewrite lookup_insert_ne; [exact Hk|].
      intros ->. rewrite Hi in Hk. destruct Hk as [y Hy]. discriminate.
    + exfalso. apply Hout, Hkeys. rewrite lookup_insert_eq. eexists; reflexivity.
Qed.

Lemma listed_id (characters : list Character) (c : Character) :
  In c characters -> id c ∈ currentIds characters.
Proof.
  intros Hc. unfold currentIds. rewrite elem_of_list_to_set.
  apply list_elem_of_In. apply in_map, Hc.
Qed.

Lemma addNew_removeDeleted (characters : list Character) (s : State) :
  addNew characters (removeDeleted characters s) = addNew characters s.
Proof.
  unfold addNew. f_equal. apply List.filter_ext_in. intros c Hc.
  rewrite removeDeleted_lookup.
  destruct (decide (id c ∈ currentIds characters)) as [_|Hout]; [reflexivity|].
  exfalso. apply Hout, listed_id, Hc.
Qed.

Lemma removeDeleted_idempotent (characters : list Character) (s : State) :
  removeDeleted characters (removeDeleted characters s) = removeDeleted characters s.
Proof.
  unfold removeDeleted at 1. apply removeVisit_fold_listed.
  intros k Hk. rewrite removeDeleted_lookup in Hk.
  destruct (decide (k ∈ currentIds characters)) as [Hin|_]; [exact Hin|].
  destruct Hk as [y Hy]. discriminate.
Qed.

(** One scene load, from the effect to the [ready] callback. *)
Lemma loadScene_one (u : string) (s : State) :
  Coherence.oneScene s -> JS.truthy u = true ->
  let s' := splatReady u (fst (splatEffect (Some u) s)) in
  rootSplats s' = [u]
  /\ splatEntityRef s'
     = Some (mkEntity (mkVec3 0 0 0) (mkVec3 0 0 180) (mkVec3 1 1 1) false u)
  /\ sceneLoadVersion s' = S (sceneLoadVersion s).
Proof.
  unfold Coherence.oneScene. intros Hone Hu. cbv zeta.
  unfold splatEffect. rewrite Hu.
  destruct (splatEntityRef s) as [old|] eqn:Hold; cbn [fst].
  - unfold splatReady.
    cbn [rootSplats splatEntityRef sceneLoadVersion isEditMode set_rootSplats
         set_splatEntityRef set_sceneLoadVersion set_mouseLookEulerRef
         set_cameraEntity].
    rewrite Hone. cbn [removeFirst]. rewrite String.eqb_refl.
    destruct (negb (isEditMode s)); repeat split.
  - unfold splatReady.
    cbn [rootSplats splatEntityRef sceneLoadVersion isEditMode set_rootSplats
         set_splatEntityRef set_sceneLoadVersion set_mouseLookEulerRef
         set_cameraEntity].
    rewrite Hone.
    destruct (negb (isEditMode s)); repeat split.
Qed.

Lemma loadScenes_oneScene (urls : list string) (s : State) :
  Coherence.oneScene s -> Forall (fun x => JS.truthy x = true) urls ->
  Coherence.oneScene (Coherence.loadScenes urls s)
  /\ sceneLoadVersion (Coherence.loadScenes urls s)
     = (sceneLoadVersion s + List.length urls)%nat.
Proof.
  unfold Coherence.loadScenes. revert s.
  induction urls as [|u urls IH]; intros s Hone Hall; cbn [List.fold_left List.length].
  - split; [exact Hone|lia].
  - inversion Hall as [|? ? Hu Hrest]; subst.
    destruct (loadScene_one u s Hone Hu) as (H1 & H2 & H3).
    destruct (IH (splatReady u (fst (splatEffect (Some u) s)))) as [I1 I2].
    + unfold Coherence.oneScene. rewrite H2. exact H1.
    + exact Hrest.
    + split; [exact I1|]. rewrite I2, H3. lia.
Qed.

End RegistryFacts.

(** X22. The effect on the character list reconciles the registry with the
    list: afterwards an entity is registered under an id exactly when it was
    before and the id is listed, and it is the same entity.  Loads are
    started, in list order, for exactly the listed characters that had no
    entity: a container load for a 3D character, a texture load for a 2D
    one.  Camera, scene and gizmo are not touched.  Running the effect again
    at once changes nothing more and starts the same loads again. *)
Theorem character_effect_reconciles_registry (characters : list Character)
  (s : SceneViewer.State) (k : string) :
  let r := SceneViewer.characterEffect characters s in
  SceneViewer.characterEntitiesMap (fst r) !! k
  = (if decide (k ∈ SceneViewer.currentIds characters)
     then SceneViewer.characterEntitiesMap s !! k else None)
  /\ snd r
     = List.map
         (fun c => match type c with
                   | T3d => SceneViewer.LoadContainer c
                   | T2d => SceneViewer.LoadTexture c
                   end)
         (List.filter
            (fun c => match SceneViewer.characterEntitiesMap s !! id c with
                      | None => true
                      | Some _ => false
                      end)
            characters)
  /\ SceneViewer.cameraEntity (fst r) = SceneViewer.cameraEntity s
  /\ SceneViewer.splatEntityRef (fst r) = SceneViewer.splatEntityRef s
  /\ SceneViewer.gizmoRootRef (fst r) = SceneViewer.gizmoRootRef s
  /\ SceneViewer.characterEffect characters (fst r) = r.
Proof.
  cbv zeta. unfold SceneViewer.characterEffect. cbn [fst snd].
  destruct (removeDeleted_frame characters s) as (F1 & F2 & _ & F4 & _).
  split; [apply removeDeleted_lookup|].
  split.
  { rewrite addNew_removeDeleted. unfold SceneViewer.addNew. f_equal.
    apply List.filter_ext. intros c.
    destruct (SceneViewer.characterEntitiesMap s !! id c) as [e|].
    - rewrite bool_decide_true; [reflexivity|]. eexists; reflexivity.
    - rewrite bool_decide_false; [reflexivity|]. intros [e He]. discriminate. }
  split; [exact F1|]. split; [exact F2|]. split; [exact F4|].
  rewrite removeDeleted_idempotent. reflexivity.
Qed.

(** X23. Scene loads that each finish before the next begins leave exactly
    one scene entity attached: the one of the last URL, upside-up at the
    origin (turned 180 degrees about Z, at unit scale), and the load counter
    has gone up once per load. *)
Theorem scene_loads_in_turn_leave_one_scene (urls : list string) (u : string)
  (s : SceneViewer.State)
  (Hurls : Forall (fun x => JS.truthy x = true) (urls ++ [u]))
  (Hone : Coherence.oneScene s) :
  let s' := Coherence.loadScenes (urls ++ [u]) s in
  SceneViewer.rootSplats s' = [u]
  /\ SceneViewer.splatEntityRef s'
     = Some (SceneViewer.mkEntity (pc.mkVec3 0 0 0) (pc.mkVec3 0 0 180)
               (pc.mkVec3 1 1 1) false u)
  /\ SceneViewer.sceneLoadVersion s'
     = (SceneViewer.sceneLoadVersion s + List.length (urls ++ [u]))%nat.
Proof.
  cbv zeta. apply Forall_app in Hurls as [Hpre Hu].
  inversion Hu as [|? ? Hu' _]; subst.
  destruct (loadScenes_oneScene urls s Hone Hpre) as [I1 I2].
  unfold Coherence.loadScenes in *. rewrite fold_left_app. cbn [List.fold_left].
  destruct (loadScene_one u _ I1 Hu') as (H1 & H2 & H3).
  split; [exact H1|]. split; [exact H2|].
  rewrite H3, I2, List.length_app. cbn [List.length]. lia.
Qed.

Lemma scene_loads_in_turn_leave_one_scene_witness :
  SceneViewer.rootSplats
    (Coherence.loadScenes (["blob:1"] ++ ["blob:2"]) SceneViewer.initial)
  = ["blob:2"%string].
Proof.
  apply (scene_loads_in_turn_leave_one_scene ["blob:1"%string] "blob:2"
           SceneViewer.initial).
  - repeat constructor.
  - reflexivity.
Defined.

(** ** The viewer under any sequence of events *)

Section ViewerInvariants.
Import pc SceneViewer Viewer Coherence.
Local Open Scope R_scope.

Ltac crack :=
  repeat first
    [ progress cbn [cameraEntity splatEntityRef rootSplats characterEntitiesMap
                    gizmoRootRef draggedAxisRef dragStartPointRef
                    dragStartValueRef dragPlaneRef isOrbitingRef
                    isFreeLookingRef orbitParamsRef mouseLookEulerRef isLocked
                    isEditMode selectedTarget activeCharacterId gizmoMode
                    transforms sceneLoadVersion
                    set_cameraEntity set_splatEntityRef set_rootSplats
                    set_characterEntitiesMap set_gizmoRootRef
                    set_draggedAxisRef set_dragStartPointRef
                    set_dragStartValueRef set_dragPlaneRef set_isOrbitingRef
                    set_isFreeLookingRef set_orbitParamsRef
                    set_mouseLookEulerRef set_isLocked set_isEditMode
                    set_selectedTarget set_activeCharacterId set_gizmoMode
                    set_transforms set_sceneLoadVersion
                    gizmoParts gizmoScale gizmoPosition gizmoRotation
                    radius beta alpha targetPivot fst snd]
    | match goal with
      | |- context [match ?x with _ => _ end] =>
          lazymatch x with
          | context [match _ with _ => _ end] => fail
          | _ => destruct x eqn:?
          end
      end ].

Ltac open_handlers :=
  unfold onMouseMove, mouseLook, mouseOrbit, mouseDrag, onMouseDown,
    mouseDownGizmo, mouseDownSelect, startOrbit, onMouseUp, onMouseWheel,
    update, updateMouseLook, updateMovement, updateBillboards, updateGizmo,
    handleFocus, syncOrbitParamsToCamera, handleTransformChange, updateTarget,
    splatEffect, splatReady, containerReady, textureReady, registerCharacter,
    selectScene, handleCharacterSelect.

(** The removal loop keeps an active character together with the
    character target. *)
Lemma removeDeleted_selection (characters : list Character) (s : State) :
  selectionCoherent s -> selectionCoherent (removeDeleted characters s).
Proof.
  intros Hs. unfold removeDeleted.
  apply (map_fold_weak_ind (fun r (_ : gmap string Entity) => selectionCoherent r)).
  - exact Hs.
  - intros i x m r _ IH. unfold removeVisit, selectionCoherent in *.
    crack; intuition congruence.
Qed.

Lemma handle_selection (e : Event) (s : State) :
  selectionCoherent s -> selectionCoherent (handle e s).
Proof.
  destruct e; cbn [handle];
    try (unfold selectionCoherent; open_handlers; intros H; crack;
         intuition congruence).
  unfold characterEffect. cbn [fst]. apply removeDeleted_selection.
Qed.

(** A render touches the gizmo and the inspector only. *)
Lemma rendered_frame (a b : State) :
  let r := rendered a b in
  isEditMode r = isEditMode b
  /\ selectedTarget r = selectedTarget b
  /\ activeCharacterId r = activeCharacterId b
  /\ gizmoMode r = gizmoMode b
  /\ orbitParamsRef r = orbitParamsRef b.
Proof.
  cbv zeta. unfold rendered, rebuildGizmo, inspectEffect, updateLocalStateFromEntity.
  crack; repeat split; congruence.
Qed.

Lemma step_selection (e : Event) (s : State) :
  selectionCoherent s -> selectionCoherent (step e s).
Proof.
  intros H. apply (handle_selection e) in H. unfold step.
  destruct (rendered_frame s (handle e s)) as (_ & F2 & F3 & _).
  unfold selectionCoherent in *. rewrite F2, F3. exact H.
Qed.

(** No handler makes or drops a gizmo, or changes its handles. *)
Lemma handle_gizmo_shape (e : Event) (s : State) :
  sameGizmoShape s (handle e s).
Proof.
  assert (Hrefl : forall a b, gizmoRootRef b = gizmoRootRef a -> sameGizmoShape a b).
  { intros a b H. unfold sameGizmoShape. rewrite H.
    destruct (gizmoRootRef a); reflexivity. }
  destruct e; cbn [handle];
    try (apply Hrefl; open_handlers; crack; first [reflexivity|congruence]);
    try (unfold sameGizmoShape; open_handlers; crack;
         first [exact I|reflexivity|congruence]).
  apply Hrefl. unfold characterEffect. cbn [fst].
  apply (removeDeleted_frame characters s).
Qed.

Lemma rebuildGizmo_coherent (s : State) : gizmoCoherent (rebuildGizmo s).
Proof.
  unfold gizmoCoherent, rebuildGizmo.
  destruct (isEditMode s) eqn:He; cbn [negb].
  - destruct (selectedTarget s) as [sel|] eqn:Hsel; crack;
      try discriminate; try (right; assumption).
    all: rewrite Hsel; repeat split; eauto.
  - crack; first [discriminate|left; exact He|left; reflexivity].
Qed.

Lemma inspectEffect_coherent (s : State) :
  gizmoCoherent s -> gizmoCoherent (inspectEffect s).
Proof.
  unfold gizmoCoherent, inspectEffect, updateLocalStateFromEntity.
  intros H. crack; try exact H; try discriminate; try congruence.
Qed.

Lemma step_gizmo (e : Event) (s : State) :
  gizmoCoherent s -> gizmoCoherent (step e s).
Proof.
  intros Hs. unfold step, rendered.
  pose proof (handle_gizmo_shape e s) as Hshape.
  set (b := handle e s) in *.
  assert (Hb : gizmoCoherent
                 (if gizmoDepsChanged s b then rebuildGizmo b else b)).
  { destruct (gizmoDepsChanged s b) eqn:Hd; [apply rebuildGizmo_coherent|].
    unfold gizmoDepsChanged in Hd.
    repeat (apply orb_false_iff in Hd as [Hd ?]).
    repeat match goal with
           | H : negb (bool_decide _) = false |- _ =>
               apply negb_false_iff, bool_decide_eq_true in H
           end.
    unfold gizmoCoherent, sameGizmoShape in *.
    destruct (gizmoRootRef s) as [g|], (gizmoRootRef b) as [g'|];
      try contradiction; congruence. }
  destruct (inspectDepsChanged s b); [apply inspectEffect_coherent|]; exact Hb.
Qed.

Lemma orbitParamsFrom_sane (camPos targetPos : Vec3) (p : OrbitParams) :
  orbitParamsFrom camPos targetPos = Some p ->
  0 <= radius p /\ -90 <= beta p <= 90.
Proof.
  rewrite orbitParamsFrom_defined. intros [= <-]. cbn [radius beta].
  split; [apply sqrt_pos|apply asin_degrees].
Qed.

Lemma handle_orbit (e : Event) (s : State) :
  orbitSane s -> orbitSane (handle e s).
Proof.
  unfold orbitSane. intros Hs.
  assert (Hclamp : forall x, -90 <= clamp x (-89) 89 <= 90).
  { intros x. pose proof (clamp_range x (-89) 89). lra. }
  assert (Hwheel : forall x, 0 <= Rmax 0.5 (Rmin x 50)).
  { intros x. pose proof (Rmax_l 0.5 (Rmin x 50)). lra. }
  destruct e; cbn [handle];
    try (open_handlers; crack;
         first [ exact Hs
               | eapply orbitParamsFrom_sane; eassumption
               | split; [apply Hs|apply Hclamp]
               | split; [apply Hwheel|apply Hs] ]).
  unfold characterEffect. cbn [fst].
  destruct (removeDeleted_frame characters s) as (_ & _ & _ & _ & F5 & _).
  rewrite F5. exact Hs.
Qed.

Lemma step_orbit (e : Event) (s : State) :
  orbitSane s -> orbitSane (step e s).
Proof.
  intros H. apply (handle_orbit e) in H. unfold step.
  destruct (rendered_frame s (handle e s)) as (_ & _ & _ & _ & F5).
  unfold orbitSane in *. rewrite F5. exact H.
Qed.

Lemma run_invariant (P : State -> Prop) (events : list Event) (s : State) :
  (forall e s, P s -> P (step e s)) -> P s -> P (run events s).
Proof.
  intros Hstep. unfold run. revert s.
  induction events as [|e events IH]; intros s Hs; cbn [List.fold_left];
    [exact Hs|].
  apply IH, Hstep, Hs.
Qed.

End ViewerInvariants.

(** X24. Through any sequence of pointer, wheel, frame, panel and loader
    events from the first mount, a character is active only while the
    character target is selected. *)
Theorem active_character_goes_with_character_target (events : list Viewer.Event) :
  let s := Viewer.run events SceneViewer.initial in
  SceneViewer.selectedTarget s = Some character
  \/ SceneViewer.activeCharacterId s = None.
Proof.
  apply (run_invariant Coherence.selectionCoherent events SceneViewer.initial
           step_selection).
  right. reflexivity.
Qed.

(** X25. Through any such sequence, once the render that follows each
    event has run its effects, there is a gizmo exactly in edit mode with a
    selection, and its handles are those of the current tool. *)
Theorem gizmo_there_exactly_when_editing_a_selection (events : list Viewer.Event) :
  let s := Viewer.run events SceneViewer.initial in
  match SceneViewer.gizmoRootRef s with
  | Some g =>
      SceneViewer.isEditMode s = true
      /\ is_Some (SceneViewer.selectedTarget s)
      /\ SceneViewer.gizmoParts g = SceneViewer.gizmoMode s
  | None =>
      SceneViewer.isEditMode s = false \/ SceneViewer.selectedTarget s = None
  end.
Proof.
  apply (run_invariant Coherence.gizmoCoherent events SceneViewer.initial step_gizmo).
  left. reflexivity.
Qed.

(** X26. Through any such sequence the orbit parameters stay those of a
    point on a sphere about the pivot: the radius is never negative and the
    elevation stays within [-90, 90] degrees. *)
Theorem orbit_parameters_stay_on_a_sphere (events : list Viewer.Event) :
  let p := SceneViewer.orbitParamsRef (Viewer.run events SceneViewer.initial) in
  (0 <= SceneViewer.radius p)%R /\ (-90 <= SceneViewer.beta p <= 90)%R.
Proof.
  apply (run_invariant Coherence.orbitSane events SceneViewer.initial step_orbit).
  unfold Coherence.orbitSane. cbn. lra.
Qed.

(** ** Characters and prompts from the panel to the viewer *)

Section PanelFacts.
Import pc SceneViewer.
Local Open Scope R_scope.

Lemma trimStart_blank (s : string) :
  Forall (fun c => JS.isSpace c = true) (list_ascii_of_string s) ->
  JS.trimStart s = EmptyString.
Proof.
  induction s as [|c s IH]; cbn [list_ascii_of_string JS.trimStart];
    [reflexivity|].
  intros H. inversion H as [|? ? Hc Hs]; subst. rewrite Hc. apply IH, Hs.
Qed.

Lemma listed_after_removal (rid k : string) (s : App.State) :
  k <> rid -> k ∈ currentIds (App.characters s) ->
  k ∈ currentIds (App.characters (App.handleRemoveCharacter rid s)).
Proof.
  unfold currentIds, App.handleRemoveCharacter. cbn [App.characters App.setCharacters].
  rewrite !elem_of_list_to_set. intros Hne Hin.
  apply list_elem_of_In in Hin. apply list_elem_of_In.
  apply in_map_iff in Hin as (c & Hc & Hin).
  apply in_map_iff. exists c. split; [exact Hc|].
  apply List.filter_In. split; [exact Hin|].
  rewrite Hc. apply negb_true_iff, String.eqb_neq, Hne.
Qed.

Lemma runMoves_orbit_keeps (events : list MouseEvent) (s : State) :
  orbiting s ->
  radius (orbitParamsRef (System.runMoves events s)) = radius (orbitParamsRef s)
  /\ targetPivot (orbitParamsRef (System.runMoves events s))
     = targetPivot (orbitParamsRef s)
  /\ getTargetEntity (System.runMoves events s) = getTargetEntity s.
Proof.
  revert s. induction events as [|e events IH]; intros s Hs.
  - repeat split.
  - unfold System.runMoves. cbn [List.fold_left].
    fold (System.runMoves events (onMouseMove false e s)).
    rewrite (onMouseMove_orbiting e s Hs).
    destruct (IH (mouseOrbit e s)) as (I1 & I2 & I3).
    { destruct Hs as (H1 & H2 & H3).
      destruct (mouseOrbit_flags e s) as (F1 & F2 & F3).
      unfold orbiting. rewrite F1, F2, F3. repeat split; assumption. }
    rewrite I1, I2, I3. repeat split.
Qed.

End PanelFacts.

(** X27. Removing a character from the list and reconciling the viewer
    destroys the entity of that character and of no other listed one: the
    registry has nothing under the removed id, and the entity of every other
    listed character is the one it was. *)
Theorem removing_character_drops_only_its_entity (rid k : string)
  (s : App.State) (v : SceneViewer.State)
  (Hother : k <> rid)
  (Hlisted : k ∈ SceneViewer.currentIds (App.characters s)) :
  let s' := App.handleRemoveCharacter rid s in
  let v' := fst (SceneViewer.characterEffect (App.characters s') v) in
  SceneViewer.characterEntitiesMap v' !! rid = None
  /\ SceneViewer.characterEntitiesMap v' !! k
     = SceneViewer.characterEntitiesMap v !! k
  /\ Forall (fun c => id c <> rid) (App.characters s').
Proof.
  cbv zeta. unfold SceneViewer.characterEffect. cbn [fst].
  rewrite !removeDeleted_lookup.
  destruct (decide (rid ∈ SceneViewer.currentIds
                      (App.characters (App.handleRemoveCharacter rid s))))
    as [Hin|_]; [exfalso; exact (removed_id_not_current rid s Hin)|].
  destruct (decide (k ∈ SceneViewer.currentIds
                      (App.characters (App.handleRemoveCharacter rid s))))
    as [_|Hout]; [|exfalso; apply Hout, listed_after_removal; assumption].
  split; [reflexivity|]. split; [reflexivity|].
  apply Forall_forall. intros c Hc. apply list_elem_of_In in Hc.
  unfold App.handleRemoveCharacter in Hc. cbn [App.characters App.setCharacters] in Hc.
  apply List.filter_In in Hc as [_ Hc].
  apply negb_true_iff, String.eqb_neq in Hc. exact Hc.
Qed.

Lemma removing_character_drops_only_its_entity_witness :
  let body := mkCharacter "b1" T3d "blob:body" "body.glb" in
  let s := App.setCharacters (fun _ => [Scenario.hero; body]) App.initial in
  let v := SceneViewer.containerReady body (Some Scenario.body)
             (SceneViewer.containerReady Scenario.hero (Some Scenario.body)
                SceneViewer.initial) in
  let v' := fst (SceneViewer.characterEffect
                   (App.characters (App.handleRemoveCharacter "b1" s)) v) in
  SceneViewer.characterEntitiesMap v' !! "b1"%string = None
  /\ SceneViewer.characterEntitiesMap v' !! "ab12cd34"%string
     = SceneViewer.characterEntitiesMap v !! "ab12cd34"%string.
Proof.
  intros body s v v'.
  destruct (removing_character_drops_only_its_entity "b1" "ab12cd34" s v)
    as (H1 & H2 & _).
  - discriminate.
  - unfold SceneViewer.currentIds. rewrite elem_of_list_to_set.
    apply list_elem_of_In. left. reflexivity.
  - split; [exact H1|exact H2].
Defined.

(** X28. A prompt made of white space only starts nothing: the submit
    button is disabled for it, and the submit handler itself returns without
    a capture, a state change or a service call. *)
Theorem blank_prompt_starts_nothing (prompt : string) (busy : bool) (s : App.State)
  (Hblank : Forall (fun c => JS.isSpace c = true) (list_ascii_of_string prompt)) :
  ControlPanel.submitDisabled busy prompt = true
  /\ ControlPanel.handleSubmit prompt s = (s, [])
  /\ ControlPanel.submitForm prompt s = (s, []).
Proof.
  unfold ControlPanel.submitForm, ControlPanel.handleSubmit,
    ControlPanel.submitDisabled, JS.trim.
  rewrite (trimStart_blank prompt Hblank). cbn.
  rewrite !orb_true_r. repeat split.
Qed.

Lemma blank_prompt_starts_nothing_witness :
  ControlPanel.handleSubmit "   " App.initial = (App.initial, []).
Proof.
  apply (blank_prompt_starts_nothing "   " false App.initial).
  repeat constructor.
Defined.

(** X29. An orbit drag keeps the camera at the distance from the target it
    had when the button went down on the background: after any number of
    pointer moves the camera is that far from the target's position, and
    looks at it. *)
Theorem orbit_drag_keeps_camera_distance
  (down event : SceneViewer.MouseEvent) (events : list SceneViewer.MouseEvent)
  (forward : pc.Vec3) (s : SceneViewer.State) (target : SceneViewer.Entity) :
  SceneViewer.isEditMode s = true ->
  SceneViewer.isFreeLookingRef s = false ->
  SceneViewer.leftButton down = true ->
  SceneViewer.getTargetEntity s = Some target ->
  let s1 := SceneViewer.onMouseDown down forward
              (SceneViewer.mkHitTest None None) s in
  let s2 := System.runMoves (event :: events) s1 in
  pc.length (pc.sub (SceneViewer.cameraPosition (SceneViewer.cameraEntity s2))
                    (SceneViewer.position target))
  = pc.length (pc.sub (SceneViewer.cameraPosition (SceneViewer.cameraEntity s))
                      (SceneViewer.position target))
  /\ SceneViewer.cameraOrientation (SceneViewer.cameraEntity s2)
     = SceneViewer.LookAt (SceneViewer.position target)
  /\ SceneViewer.getTargetEntity s2 = Some target.
Proof.
  intros He Hf Hl Ht s1 s2.
  assert (Hs1 : s1 = SceneViewer.startOrbit (SceneViewer.position target) s).
  { apply background_press; assumption. }
  destruct (startOrbit_frame (SceneViewer.position target) s)
    as (F1 & F2 & F3 & _ & F5 & F6 & F7).
  assert (Horb : orbiting s1).
  { rewrite Hs1. unfold orbiting. rewrite F1, F2, F3. auto. }
  destruct (@exists_last _ (event :: events)) as (prefix & last & Hsplit);
    [discriminate|].
  assert (Hs2 : s2 = SceneViewer.mouseOrbit last (System.runMoves prefix s1)).
  { unfold s2. rewrite Hsplit, runMoves_snoc.
    apply onMouseMove_orbiting, runMoves_orbiting, Horb. }
  destruct (runMoves_orbit_keeps prefix s1 Horb) as (Hr & Hp & Hk).
  assert (Hr1 : SceneViewer.radius (SceneViewer.orbitParamsRef s1)
                = pc.length (pc.sub (SceneViewer.cameraPosition (SceneViewer.cameraEntity s))
                                    (SceneViewer.position target))).
  { rewrite Hs1. exact F6. }
  assert (Hp1 : SceneViewer.targetPivot (SceneViewer.orbitParamsRef s1)
                = SceneViewer.position target).
  { rewrite Hs1. exact F7. }
  rewrite Hs2. unfold SceneViewer.mouseOrbit.
  cbn [SceneViewer.cameraEntity SceneViewer.set_cameraEntity
       SceneViewer.cameraPosition SceneViewer.cameraOrientation
       SceneViewer.targetPivot].
  rewrite Hp, Hp1. split; [|split; [reflexivity|]].
  - rewrite sub_add_cancel, orbitOffset_length.
    + cbn [SceneViewer.radius]. rewrite Hr, Hr1. reflexivity.
    + cbn [SceneViewer.radius]. rewrite Hr, Hr1. apply sqrt_pos.
  - change (SceneViewer.getTargetEntity (System.runMoves prefix s1) = Some target).
    rewrite Hk, Hs1, F5. exact Ht.
Qed.

Lemma orbit_drag_keeps_camera_distance_witness :
  let s1 := SceneViewer.onMouseDown Scenario.press Scenario.forward
              (SceneViewer.mkHitTest None None) Scenario.editing in
  let s2 := System.runMoves [Scenario.pullRight; Scenario.pullBack] s1 in
  pc.length (pc.sub (SceneViewer.cameraPosition (SceneViewer.cameraEntity s2))
                    (SceneViewer.position Scenario.body))
  = pc.length (pc.sub (SceneViewer.cameraPosition
                         (SceneViewer.cameraEntity Scenario.editing))
                      (SceneViewer.position Scenario.body)).
Proof.
  destruct (orbit_drag_keeps_camera_distance Scenario.press Scenario.pullRight
              [Scenario.pullBack] Scenario.forward Scenario.editing Scenario.body
              eq_refl eq_refl eq_refl editing_target) as (H & _).
  exact H.
Defined.
